(** * QariAI: the local progress store and the guided tour

    A shallow embedding of
    - [src/db/schema.ts]                  (schema, seeds, [runMigrations]),
    - [src/services/data.ts]              (attempt recording, aggregation,
                                           level promotion),
    - [src/services/user.ts]              ([ensureLocalUser]),
    - [src/tutorial/TutorialContext.tsx]  (the guided-tour steps and their
                                           persistence),
    - [src/screens/AnalyticsScreen.tsx]   (the data of the dashboard),
    - [src/screens/PracticeScreen.tsx]    (the data path of [handleSend]),
    followed by the properties stated about them.

    The database is an explicit state threaded through a state-and-exception
    monad: every [db.*Sync] call of the source is one monadic statement, a
    JavaScript [throw] (or an SQLite error) is [Err], and the state that is
    returned next to an [Err] is the database as the failed call left it.
    JavaScript numbers that hold a quotient are IEEE-754 binary64 values
    ([PrimFloat.float]); counts and identifiers are [Z]; TEXT columns are
    byte strings compared bytewise, as SQLite's BINARY collation does. *)

From Stdlib Require Import ZArith Strings.Ascii Strings.String.
From Stdlib Require Floats.PrimFloat Numbers.Cyclic.Int63.Uint63.
From stdpp Require Import gmap strings list sorting.

Local Open Scope Z_scope.

(* ================================================================== *)
(** ** JavaScript values *)

Module JS.

(** An optional property [p?: T | null]: absent, [null], or a value. *)
Inductive optional (A : Type) : Type :=
  | Undefined
  | Null
  | Val (a : A).
Arguments Undefined {A}.
Arguments Null {A}.
Arguments Val {A} a.

(** [s ? f(s) : null] on a string: [undefined], [null] and the empty
    string are falsy; the result is the string when it is truthy. *)
Definition truthy (o : optional string) : option string :=
  match o with
  | Val s => if decide (s = EmptyString) then None else Some s
  | Undefined | Null => None
  end.

(** [x ?? null]. *)
Definition nullish {A} (o : optional A) : option A :=
  match o with
  | Val a => Some a
  | Undefined | Null => None
  end.

(** The conversion of an integer-valued number to binary64 and the
    division [/] of two numbers. *)
Definition num (z : Z) : PrimFloat.float :=
  PrimFloat.of_uint63 (Uint63.of_Z z).

Definition fdiv (x y : Z) : PrimFloat.float :=
  PrimFloat.div (num x) (num y).

Definition fzero : PrimFloat.float := num 0.

(** [x >= y] on numbers. *)
Definition fge (x y : PrimFloat.float) : bool := PrimFloat.leb y x.

End JS.

(* ================================================================== *)
(** ** SQLite date functions and TEXT comparison *)

Module Sqlite.

(** The clock is the number of milliseconds since 1970-01-01T00:00:00Z. *)
Definition day_ms : Z := 86400000.

Definition digit (n : Z) : ascii := ascii_of_nat (48 + Z.to_nat (n mod 10)).

(** [n] printed in [w] decimal digits, zero-padded. *)
Fixpoint pad (w : nat) (n : Z) : string :=
  match w with
  | O => EmptyString
  | S w' => pad w' (n / 10) +:+ String (digit n) EmptyString
  end.

(** Proleptic Gregorian date of a day number (days since 1970-01-01). *)
Definition civil_from_days (z0 : Z) : Z * Z * Z :=
  let z := z0 + 719468 in
  let era := z / 146097 in
  let doe := z - era * 146097 in
  let yoe := (doe - doe / 1460 + doe / 36524 - doe / 146096) / 365 in
  let doy := doe - (365 * yoe + yoe / 4 - yoe / 100) in
  let mp := (5 * doy + 2) / 153 in
  let d := doy - (153 * mp + 2) / 5 + 1 in
  let m := if mp <? 10 then mp + 3 else mp - 9 in
  let y := yoe + era * 400 + (if m <=? 2 then 1 else 0) in
  (y, m, d).

(** [%Y-%m-%d] *)
Definition ymd (t : Z) : string :=
  let '(y, m, d) := civil_from_days (t / day_ms) in
  pad 4 y +:+ "-" +:+ pad 2 m +:+ "-" +:+ pad 2 d.

(** [%H:%M:%S] *)
Definition hms (t : Z) : string :=
  let s := (t mod day_ms) / 1000 in
  pad 2 (s / 3600) +:+ ":" +:+ pad 2 (s / 60 mod 60) +:+ ":" +:+ pad 2 (s mod 60).

(** [strftime('%Y-%m-%dT%H:%M:%fZ','now')] at clock [t]. *)
Definition strftime_iso (t : Z) : string :=
  ymd t +:+ "T" +:+ hms t +:+ "." +:+ pad 3 (t mod 1000) +:+ "Z".

(** [datetime(t)]: [YYYY-MM-DD HH:MM:SS]. *)
Definition datetime (t : Z) : string := ymd t +:+ " " +:+ hms t.

(** [datetime('now','-7 days')] at clock [now]. *)
Definition datetime_minus_7_days (now : Z) : string :=
  datetime (now - 7 * day_ms).

(** [a >= b] on TEXT values (BINARY collation: bytewise comparison). *)
Definition text_ge (a b : string) : bool :=
  match String.compare a b with
  | Lt => false
  | Eq | Gt => true
  end.

(** [a <= b] on TEXT values, the order of [ORDER BY ... ASC]. *)
Definition text_le (a b : string) : Prop := String.leb a b = true.

#[global] Instance text_le_dec : RelDecision text_le.
Proof. intros a b. unfold text_le. apply _. Defined.

(** [substr(s, 1, 10)] of an ASCII text. *)
Definition substr_1_10 (s : string) : string := String.substring 0 10 s.

(** [SUM(x)] over integers: NULL over no rows. *)
Definition sum (xs : list Z) : option Z :=
  match xs with
  | [] => None
  | _ => Some (foldr Z.add 0 xs)
  end.

(** [COUNT( * )]. *)
Definition count {A} (xs : list A) : Z := Z.of_nat (length xs).

End Sqlite.

(* ================================================================== *)
(** ** src/db/schema.ts: the database, its schema and its seeds *)

Module Schema.

Import PrimFloat.

(** Rows of the five tables of migration 1.  A field [x_c] is the column
    [c] of the table the queries alias as [x]. *)
Record UserRow : Type := mkUser {
  u_id : string;                       (* TEXT PRIMARY KEY *)
  u_display_name : option string;
  u_created_at : string
}.

Record LetterRow : Type := mkLetter {
  l_id : Z;                            (* INTEGER PRIMARY KEY *)
  l_ar : string;                       (* TEXT UNIQUE NOT NULL *)
  l_en : option string;
  l_order_index : Z
}.

Record AttemptRow : Type := mkAttempt {
  a_id : Z;                            (* INTEGER PRIMARY KEY AUTOINCREMENT *)
  a_user_id : string;                  (* REFERENCES users(id) *)
  a_target_letter_id : Z;              (* REFERENCES letters(id) *)
  a_predicted_letter_id : option Z;    (* REFERENCES letters(id), nullable *)
  a_correct : bool;                    (* INTEGER NOT NULL, 0/1 *)
  a_confidence : option PrimFloat.float;
  a_duration_ms : option Z;
  a_audio_uri : option string;
  a_created_at : string
}.

Record LevelRow : Type := mkLevel {
  lv_level : Z;                        (* INTEGER PRIMARY KEY *)
  lv_min_accuracy : PrimFloat.float;
  lv_min_attempts : Z
}.

(** [user_levels] is keyed by its primary key [user_id]. *)
Record UserLevelRow : Type := mkUserLevel {
  ul_level : Z;                        (* REFERENCES levels(level) *)
  ul_updated_at : string
}.

(** A table that has not been created is [None]. *)
Record Tables : Type := mkTables {
  _meta : option (list Z);
  users : option (list UserRow);
  letters : option (list LetterRow);
  attempts : option (list AttemptRow);
  levels : option (list LevelRow);
  user_levels : option (gmap string UserLevelRow);
  indexes : gset string
}.

(** The connection [db]: the [foreign_keys] pragma (off on a fresh
    connection), the tables, and the snapshot taken by [BEGIN] while a
    transaction is open. *)
Record DB : Type := mkDB {
  foreign_keys : bool;
  tables : Tables;
  txn : option Tables
}.

Definition no_tables : Tables := mkTables None None None None None None ∅.

(** A newly created database file on a fresh connection. *)
Definition fresh : DB := mkDB false no_tables None.

Definition set__meta v (t : Tables) : Tables :=
  mkTables v (users t) (letters t) (attempts t) (levels t) (user_levels t) (indexes t).
Definition set_users v (t : Tables) : Tables :=
  mkTables (_meta t) v (letters t) (attempts t) (levels t) (user_levels t) (indexes t).
Definition set_letters v (t : Tables) : Tables :=
  mkTables (_meta t) (users t) v (attempts t) (levels t) (user_levels t) (indexes t).
Definition set_attempts v (t : Tables) : Tables :=
  mkTables (_meta t) (users t) (letters t) v (levels t) (user_levels t) (indexes t).
Definition set_levels v (t : Tables) : Tables :=
  mkTables (_meta t) (users t) (letters t) (attempts t) v (user_levels t) (indexes t).
Definition set_user_levels v (t : Tables) : Tables :=
  mkTables (_meta t) (users t) (letters t) (attempts t) (levels t) v (indexes t).
Definition set_indexes v (t : Tables) : Tables :=
  mkTables (_meta t) (users t) (letters t) (attempts t) (levels t) (user_levels t) v.

(** *** Errors and the statement monad *)

Inductive error : Type :=
  | UnknownLetter (ar : string)        (* Error("Unknown letter: " + ar) *)
  | NoSuchTable (name : string)
  | ConstraintFailed (table : string)  (* PRIMARY KEY or UNIQUE *)
  | ForeignKeyFailed
  | TransactionError.

Inductive result (A : Type) : Type :=
  | Ok (a : A)
  | Err (e : error).
Arguments Ok {A} a.
Arguments Err {A} e.

Definition M (A : Type) : Type := DB → result A * DB.

Definition ret {A} (a : A) : M A := λ db, (Ok a, db).

Definition throw {A} (e : error) : M A := λ db, (Err e, db).

Definition bind {A B} (m : M A) (k : A → M B) : M B :=
  λ db, match m db with
        | (Ok a, db') => k a db'
        | (Err e, db') => (Err e, db')
        end.

(** [try { m } catch (e) { h e }] *)
Definition try_catch {A} (m : M A) (h : error → M A) : M A :=
  λ db, match m db with
        | (Ok a, db') => (Ok a, db')
        | (Err e, db') => h e db'
        end.

Declare Scope stmt_scope.
Delimit Scope stmt_scope with stmt.
Notation "x <- m ;; k" := (bind m (λ x, k))
  (at level 100, m at next level, right associativity) : stmt_scope.
Notation "m ;; k" := (bind m (λ _, k))
  (at level 100, right associativity) : stmt_scope.
Local Open Scope stmt_scope.

Definition get_tables : M Tables := λ db, (Ok (tables db), db).

Definition modify_tables (f : Tables → Tables) : M unit :=
  λ db, (Ok tt, mkDB (foreign_keys db) (f (tables db)) (txn db)).

Definition get_foreign_keys : M bool := λ db, (Ok (foreign_keys db), db).

(** [FROM name]: the rows of a table, or "no such table". *)
Definition from {R} (name : string) (sel : Tables → option R) : M R :=
  t <- get_tables ;;
  match sel t with
  | Some rows => ret rows
  | None => throw (NoSuchTable name)
  end.

Definition when (b : bool) (m : M unit) : M unit := if b then m else ret tt.

(** A condition the engine enforces: error [e] unless it holds. *)
Definition require (P : Prop) `{Decision P} (e : error) : M unit :=
  if decide P then ret tt else throw e.

(** [PRAGMA foreign_keys = ON;] is a no-op inside a transaction. *)
Definition pragma_foreign_keys_on : M unit :=
  λ db, match txn db with
        | Some _ => (Ok tt, db)
        | None => (Ok tt, mkDB true (tables db) None)
        end.

Definition BEGIN : M unit :=
  λ db, match txn db with
        | Some _ => (Err TransactionError, db)
        | None => (Ok tt, mkDB (foreign_keys db) (tables db) (Some (tables db)))
        end.

Definition COMMIT : M unit :=
  λ db, match txn db with
        | Some _ => (Ok tt, mkDB (foreign_keys db) (tables db) None)
        | None => (Err TransactionError, db)
        end.

Definition ROLLBACK : M unit :=
  λ db, match txn db with
        | Some saved => (Ok tt, mkDB (foreign_keys db) saved None)
        | None => (Err TransactionError, db)
        end.

(** [CREATE TABLE IF NOT EXISTS]: an absent table is created empty. *)
Definition create_table_if_not_exists {R} (sel : Tables → option R)
    (set : option R → Tables → Tables) (empty : R) : M unit :=
  modify_tables (λ t, match sel t with
                      | Some _ => t
                      | None => set (Some empty) t
                      end).

Definition create_index_if_not_exists (name : string) : M unit :=
  modify_tables (λ t, set_indexes ({[ name ]} ∪ indexes t) t).

(** *** The seeds *)

Definition CANON_LETTERS : list string :=
  [ "الف"; "باء"; "تاء"; "ثاء"; "جيم"; "حاء"; "خاء"; "دال"; "ذال"; "راء"; "زاي";
    "سين"; "شين"; "صاد"; "ضاد"; "طاء"; "ظاء"; "عين"; "غين"; "فاء"; "قاف"; "كاف";
    "لام"; "ميم"; "نون"; "هاء"; "واو"; "ياء" ]%string.

(** [INSERT INTO letters(id, ar, en, order_index) VALUES (?,?,?,?);] *)
Definition insert_letter (r : LetterRow) : M unit :=
  ls <- from "letters" letters ;;
  require ((l_id r ∉ (l_id <$> ls)) ∧ (l_ar r ∉ (l_ar <$> ls)))
          (ConstraintFailed "letters") ;;
  modify_tables (set_letters (Some (ls ++ [r]))).

(** [INSERT INTO levels(level, min_accuracy, min_attempts) VALUES ...;]
    (one statement: all rows or none). *)
Definition insert_levels (rs : list LevelRow) : M unit :=
  lvs <- from "levels" levels ;;
  require (NoDup (lv_level <$> (lvs ++ rs))) (ConstraintFailed "levels") ;;
  modify_tables (set_levels (Some (lvs ++ rs))).

#[warnings="-inexact-float"]
Definition SEED_LEVELS : list LevelRow :=
  [ mkLevel 1 0.50%float 20;
    mkLevel 2 0.65%float 50;
    mkLevel 3 0.75%float 100;
    mkLevel 4 0.85%float 200;
    mkLevel 5 0.92%float 350 ].

(** [arr.forEach((x, i) => f(x, i))], from index [i]. *)
Fixpoint forEach {A} (f : A → Z → M unit) (i : Z) (xs : list A) : M unit :=
  match xs with
  | [] => ret tt
  | x :: rest => f x i ;; forEach f (i + 1) rest
  end.

(** [MIGRATIONS[0].post] *)
Definition post_1 : M unit :=
  ls <- from "letters" letters ;;
  let has := Sqlite.count ls in
  when (has =? 0)
    (forEach (λ ar i, insert_letter (mkLetter i ar None i)) 0 CANON_LETTERS) ;;
  rows <- from "levels" levels ;;
  let lvls := Sqlite.count rows in
  when (lvls =? 0) (insert_levels SEED_LEVELS).

(** [MIGRATIONS[0].sql] *)
Definition sql_1 : M unit :=
  pragma_foreign_keys_on ;;
  create_table_if_not_exists _meta set__meta [] ;;
  modify_tables (set__meta (Some [])) ;;           (* DELETE FROM _meta *)
  modify_tables (set__meta (Some [0])) ;;          (* INSERT INTO _meta(version) VALUES (0) *)
  create_table_if_not_exists users set_users [] ;;
  create_table_if_not_exists letters set_letters [] ;;
  create_table_if_not_exists attempts set_attempts [] ;;
  create_index_if_not_exists "idx_attempts_user" ;;
  create_index_if_not_exists "idx_attempts_user_date" ;;
  create_index_if_not_exists "idx_attempts_user_letter" ;;
  create_table_if_not_exists levels set_levels [] ;;
  create_table_if_not_exists user_levels set_user_levels ∅.

Record Migration : Type := mkMigration {
  id : Z;
  sql : M unit;
  post : option (M unit)
}.

Definition MIGRATIONS : list Migration :=
  [ mkMigration 1 sql_1 (Some post_1) ].

(** [UPDATE _meta SET version = ?;] *)
Definition update_meta_version (v : Z) : M unit :=
  rows <- from "_meta" _meta ;;
  modify_tables (set__meta (Some ((λ _, v) <$> rows))).

(** [SELECT version FROM _meta LIMIT 1;] through [getFirstSync]. *)
Definition select_version : M (option Z) :=
  rows <- from "_meta" _meta ;;
  ret (head rows).

(** The body of [for (const m of MIGRATIONS)], with [cur] threaded. *)
Fixpoint run_pending (ms : list Migration) (cur : Z) : M unit :=
  match ms with
  | [] => ret tt
  | m :: rest =>
      if decide (cur < id m) then
        BEGIN ;;
        cur' <- try_catch
                  (sql m ;;
                   update_meta_version (id m) ;;
                   COMMIT ;;
                   match post m with Some p => p | None => ret tt end ;;
                   ret (id m))
                  (λ e, ROLLBACK ;; throw e) ;;
        run_pending rest cur'
      else run_pending rest cur
  end.

Definition runMigrations : M unit :=
  pragma_foreign_keys_on ;;
  create_table_if_not_exists _meta set__meta [] ;;
  metaRow <- select_version ;;
  match metaRow with
  | None =>
      rows <- from "_meta" _meta ;;
      modify_tables (set__meta (Some (rows ++ [0])))   (* INSERT INTO _meta(version) VALUES (0) *)
  | Some _ => ret tt
  end ;;
  v <- select_version ;;
  let cur := default 0 v in
  run_pending MIGRATIONS cur.

(** src/services/user.ts, the statement of [ensureLocalUser]:
    [INSERT INTO users(id, display_name) VALUES(?, ?);] *)
Definition insert_user (now : Z) (uid name : string) : M unit :=
  us <- from "users" users ;;
  require (uid ∉ (u_id <$> us)) (ConstraintFailed "users") ;;
  modify_tables (set_users (Some (us ++ [mkUser uid (Some name) (Sqlite.strftime_iso now)]))).

End Schema.


(* ================================================================== *)
(** ** src/services/data.ts: attempts and progress *)

Module Data.

Import PrimFloat.
Import Schema.
Local Open Scope stmt_scope.

Record NewAttempt : Type := mkNewAttempt {
  userId : string;
  targetLetterAr : string;
  predictedLetterAr : JS.optional string;
  correct : bool;
  confidence : JS.optional float;
  durationMs : JS.optional Z;
  audioUri : JS.optional string
}.

(** [SELECT id FROM letters WHERE ar = ?;] through [getFirstSync]. *)
Definition letterIdByAr (ar : string) : M Z :=
  ls <- from "letters" letters ;;
  match head (filter (λ l, l_ar l = ar) ls) with
  | None => throw (UnknownLetter ar)
  | Some row => ret (l_id row)
  end.

(** The rowid SQLite gives the next row of an append-only table. *)
Definition next_rowid (rows : list AttemptRow) : Z :=
  1 + foldr Z.max 0 (a_id <$> rows).

(** A nullable foreign key refers to a parent row unless it is NULL. *)
Definition fk_nullable (o : option Z) (ids : list Z) : Prop :=
  match o with
  | Some p => p ∈ ids
  | None => True
  end.

#[global] Instance fk_nullable_dec o ids : Decision (fk_nullable o ids).
Proof. destruct o; simpl; apply _. Defined.

(** [INSERT INTO attempts (user_id, target_letter_id, predicted_letter_id,
    correct, confidence, duration_ms, audio_uri, created_at)
    VALUES (?,?,?,?,?,?,?, strftime('%Y-%m-%dT%H:%M:%fZ','now'));]
    With [foreign_keys] on, the three REFERENCES clauses are enforced. *)
Definition insert_attempt (now : Z) (uid : string) (targetId : Z)
    (predId : option Z) (c : bool) (conf : option float) (dur : option Z)
    (uri : option string) : M unit :=
  rows <- from "attempts" attempts ;;
  fk <- get_foreign_keys ;;
  when fk
    (us <- from "users" users ;;
     ls <- from "letters" letters ;;
     require ((uid ∈ (u_id <$> us)) ∧ (targetId ∈ (l_id <$> ls))
              ∧ fk_nullable predId (l_id <$> ls)) ForeignKeyFailed) ;;
  modify_tables
    (set_attempts
       (Some (rows ++ [mkAttempt (next_rowid rows) uid targetId predId c
                                 conf dur uri (Sqlite.strftime_iso now)]))).

Definition recordAttempt (now : Z) (a : NewAttempt) : M unit :=
  targetId <- letterIdByAr (targetLetterAr a) ;;
  predId <- match JS.truthy (predictedLetterAr a) with
            | Some ar => id <- letterIdByAr ar ;; ret (Some id)
            | None => ret None
            end ;;
  insert_attempt now (userId a) targetId predId (correct a)
    (JS.nullish (confidence a)) (JS.nullish (durationMs a))
    (JS.nullish (audioUri a)).

(** The stored flag as the integer 0/1 the queries add up. *)
Definition b2z (b : bool) : Z := if b then 1 else 0.

(** [SUM(correct)] over a group of attempts. *)
Definition sum_correct (g : list AttemptRow) : option Z :=
  Sqlite.sum ((λ a, b2z (a_correct a)) <$> g).

(** [CASE WHEN COUNT( * )=0 THEN 0.0
         ELSE CAST(SUM(correct) AS REAL)/COUNT( * ) END] *)
Definition ratio_correct (g : list AttemptRow) : float :=
  if Sqlite.count g =? 0 then JS.fzero
  else JS.fdiv (default 0 (sum_correct g)) (Sqlite.count g).

(** [CASE WHEN COUNT( * )=0 THEN 0.0 ELSE AVG(CAST(correct AS REAL)) END]:
    AVG adds the REAL values up and divides by their number. *)
Definition avg_correct (g : list AttemptRow) : float :=
  if Sqlite.count g =? 0 then JS.fzero
  else PrimFloat.div
         (foldl (λ s a, PrimFloat.add s (JS.num (b2z (a_correct a)))) JS.fzero g)
         (JS.num (Sqlite.count g)).

Record PerLetter : Type := mkPerLetter {
  pl_ar : string;
  pl_n : Z;
  pl_correct : Z;
  pl_acc : float
}.

(** [ORDER BY l.order_index] *)
Definition by_order_index (x y : LetterRow) : Prop :=
  l_order_index x ≤ l_order_index y.

#[global] Instance by_order_index_dec : RelDecision by_order_index.
Proof. intros x y. unfold by_order_index. apply _. Defined.

(** [LEFT JOIN attempts a ON a.target_letter_id = l.id AND a.user_id = ?]:
    the attempts joined to the letter [l]. *)
Definition joined (userId : string) (l : LetterRow) (rows : list AttemptRow)
    : list AttemptRow :=
  filter (λ a, a_target_letter_id a = l_id l ∧ a_user_id a = userId) rows.

(** [GROUP BY l.id] makes one group per row of [letters], whose [id] is its
    primary key; [r.correct ?? 0] turns the NULL sum of an empty group
    into 0. *)
Definition getPerLetterStats (userId : string) : M (list PerLetter) :=
  ls <- from "letters" letters ;;
  rows <- from "attempts" attempts ;;
  ret ((λ l, let g := joined userId l rows in
             mkPerLetter (l_ar l) (Sqlite.count g) (default 0 (sum_correct g))
                         (ratio_correct g))
         <$> merge_sort by_order_index ls).

Record Totals : Type := mkTotals {
  t_n : Z;
  t_correct : Z;
  t_acc : float
}.

(** [SELECT COUNT( * ) as n, SUM(correct) as correct FROM attempts
     WHERE user_id = ?;] then [n ? correct / n : 0]. *)
Definition getTotals (userId : string) : M Totals :=
  rows <- from "attempts" attempts ;;
  let mine := filter (λ a, a_user_id a = userId) rows in
  let n := Sqlite.count mine in
  let correct := default 0 (sum_correct mine) in
  ret (mkTotals n correct (if n =? 0 then JS.fzero else JS.fdiv correct n)).

Record DayStat : Type := mkDayStat {
  d_day : string;
  d_n : Z;
  d_acc : float
}.

(** [substr(created_at, 1, 10) as day] *)
Definition day_of (a : AttemptRow) : string :=
  Sqlite.substr_1_10 (a_created_at a).

(** [created_at >= (datetime('now', '-7 days'))] *)
Definition in_window (now : Z) (a : AttemptRow) : Prop :=
  Sqlite.text_ge (a_created_at a) (Sqlite.datetime_minus_7_days now) = true.

#[global] Instance in_window_dec now a : Decision (in_window now a).
Proof. unfold in_window. apply _. Defined.

(** [GROUP BY day ORDER BY day ASC], with the aggregate [acc] of the query. *)
Definition group_by_day (acc : list AttemptRow → float)
    (sel : list AttemptRow) : list DayStat :=
  (λ d, let g := filter (λ a, day_of a = d) sel in
        mkDayStat d (Sqlite.count g) (acc g))
    <$> merge_sort Sqlite.text_le (remove_dups (day_of <$> sel)).

Definition getLast7Days (now : Z) (userId : string) : M (list DayStat) :=
  rows <- from "attempts" attempts ;;
  ret (group_by_day ratio_correct
         (filter (λ a, a_user_id a = userId ∧ in_window now a) rows)).

(** [FROM attempts a JOIN letters l ON l.id = a.target_letter_id
     WHERE ... AND l.ar IN (...)]: an attempt is kept once for every letter
    row it joins to that passes the filter. *)
Definition join_letters (names : list string) (ls : list LetterRow)
    (rows : list AttemptRow) : list AttemptRow :=
  a ← rows;
  l ← filter (λ l, l_id l = a_target_letter_id a ∧ l_ar l ∈ names) ls;
  [a].

Definition getLast7DaysForLetters (now : Z) (userId : string)
    (letterNames : JS.optional (list string)) : M (list DayStat) :=
  match letterNames with
  | JS.Undefined | JS.Null | JS.Val [] => ret []
  | JS.Val names =>
      rows <- from "attempts" attempts ;;
      ls <- from "letters" letters ;;
      ret (group_by_day avg_correct
             (join_letters names ls
                (filter (λ a, a_user_id a = userId ∧ in_window now a) rows)))
  end.

(** [SELECT * FROM levels ORDER BY level ASC;] *)
Definition by_level (x y : LevelRow) : Prop := lv_level x ≤ lv_level y.

#[global] Instance by_level_dec : RelDecision by_level.
Proof. intros x y. unfold by_level. apply _. Defined.

(** [n >= L.min_attempts && acc >= L.min_accuracy] *)
Definition satisfied (n : Z) (acc : float) (L : LevelRow) : bool :=
  (lv_min_attempts L <=? n) && JS.fge acc (lv_min_accuracy L).

(** [let best = 1; for (const L of lvls) if (...) best = L.level;] *)
Definition scan (n : Z) (acc : float) (lvls : list LevelRow) : Z :=
  foldl (λ best L, if satisfied n acc L then lv_level L else best) 1 lvls.

(** [INSERT INTO user_levels(user_id, level) VALUES (?, ?)
     ON CONFLICT(user_id) DO UPDATE SET level=excluded.level,
       updated_at=(strftime('%Y-%m-%dT%H:%M:%fZ','now'));]
    With [foreign_keys] on, a new row must reference a user and a level;
    the update changes [level] only, so only that reference is checked. *)
Definition upsert_user_level (now : Z) (userId : string) (lvl : Z) : M unit :=
  uls <- from "user_levels" user_levels ;;
  fk <- get_foreign_keys ;;
  when fk
    (lvs <- from "levels" levels ;;
     match uls !! userId with
     | None =>
         us <- from "users" users ;;
         require ((userId ∈ (u_id <$> us)) ∧ (lvl ∈ (lv_level <$> lvs)))
                 ForeignKeyFailed
     | Some _ => require (lvl ∈ (lv_level <$> lvs)) ForeignKeyFailed
     end) ;;
  modify_tables
    (set_user_levels
       (Some (<[userId := mkUserLevel lvl (Sqlite.strftime_iso now)]> uls))).

Definition computeAndUpdateLevel (now : Z) (userId : string) : M Z :=
  t <- getTotals userId ;;
  rows <- from "levels" levels ;;
  let lvls := merge_sort by_level rows in
  let best := scan (t_n t) (t_acc t) lvls in
  upsert_user_level now userId best ;;
  ret best.

(** [SELECT level FROM user_levels WHERE user_id = ?;] then [v?.level ?? 1]. *)
Definition getCurrentLevel (userId : string) : M Z :=
  uls <- from "user_levels" user_levels ;;
  ret (default 1 (ul_level <$> uls !! userId)).

(** *** Recent attempts *)

Record Recent : Type := mkRecent {
  r_created_at : string;
  r_correct : Z;
  r_confidence : option float;
  r_target_ar : string;
  r_predicted_ar : option string
}.

(** [ORDER BY a.created_at DESC] *)
Definition newest_first (x y : Recent) : Prop :=
  Sqlite.text_le (r_created_at y) (r_created_at x).

#[global] Instance newest_first_dec : RelDecision newest_first.
Proof. intros x y. unfold newest_first. apply _. Defined.

(** [LEFT JOIN letters lp ON lp.id = a.predicted_letter_id]: the labels of
    the letter rows the predicted letter joins to, and one NULL when it
    joins to none (as a NULL predicted letter does). *)
Definition predicted_labels (ls : list LetterRow) (pid : option Z)
    : list (option string) :=
  match match pid with
        | Some p => filter (λ l, l_id l = p) ls
        | None => []
        end with
  | [] => [None]
  | m => (λ l, Some (l_ar l)) <$> m
  end.

(** [LIMIT n]: a negative [n] is no limit. *)
Definition sql_limit {A} (n : Z) (xs : list A) : list A :=
  if n <? 0 then xs else take (Z.to_nat n) xs.

(** [FROM attempts a JOIN letters lt ON lt.id = a.target_letter_id
     LEFT JOIN letters lp ON lp.id = a.predicted_letter_id
     WHERE a.user_id = ?] *)
Definition recent_rows (userId : string) (ls : list LetterRow)
    (rows : list AttemptRow) : list Recent :=
  a ← filter (λ a, a_user_id a = userId) rows;
  lt ← filter (λ l, l_id l = a_target_letter_id a) ls;
  p ← predicted_labels ls (a_predicted_letter_id a);
  [mkRecent (a_created_at a) (b2z (a_correct a)) (a_confidence a) (l_ar lt) p].

(** [getRecentAttempts(userId, limit = 5)]; [None] is the omitted limit. *)
Definition getRecentAttempts (userId : string) (limit : option Z)
    : M (list Recent) :=
  rows <- from "attempts" attempts ;;
  ls <- from "letters" letters ;;
  ret (sql_limit (default 5 limit)
         (merge_sort newest_first (recent_rows userId ls rows))).

End Data.

(* ================================================================== *)
(** ** src/services/user.ts: the local user *)

Module User.

Import Schema.

Definition KEY : string := "qariai:user_id".

(** AsyncStorage next to the database. *)
Definition Store : Type := gmap string string * DB.

(** [ensureLocalUser()], the identifier [nanoid()] returns being the
    parameter [fresh]:  a stored identifier (a non-empty string) is returned
    as it is; otherwise the new identifier is inserted into [users] and then
    stored. *)
Definition ensureLocalUser (now : Z) (fresh : string) (s : Store)
    : result string * Store :=
  let '(kv, db) := s in
  match JS.truthy (match kv !! KEY with
                   | Some existing => JS.Val existing
                   | None => JS.Null
                   end) with
  | Some existing => (Ok existing, (kv, db))
  | None =>
      match insert_user now fresh "Local User" db with
      | (Ok _, db') => (Ok fresh, (<[KEY := fresh]> kv, db'))
      | (Err e, db') => (Err e, (kv, db'))
      end
  end.

End User.

(* ================================================================== *)
(** ** src/tutorial/TutorialContext.tsx: the guided tour *)

Module Tutorial.

Inductive Step : Type := home | levels | practice | profile | done.

#[global] Instance Step_eq_dec : EqDecision Step.
Proof. solve_decision. Defined.

(** The string a [Step] is at run time. *)
Definition step_name (s : Step) : string :=
  match s with
  | home => "home"
  | levels => "levels"
  | practice => "practice"
  | profile => "profile"
  | done => "done"
  end.

(** The provider's React state and the AsyncStorage it writes to. *)
Record State : Type := mkState {
  active : bool;
  step : Step;
  username : option string;
  storage : gmap string string
}.

Definition setStep (s : Step) (st : State) : State :=
  mkState (active st) s (username st) (storage st).

Definition setActive (b : bool) (st : State) : State :=
  mkState b (step st) (username st) (storage st).

Definition setUsername (u : option string) (st : State) : State :=
  mkState (active st) (step st) u (storage st).

Definition setItem (k v : string) (st : State) : State :=
  mkState (active st) (step st) (username st) (<[k := v]> (storage st)).

Definition removeItem (k : string) (st : State) : State :=
  mkState (active st) (step st) (username st) (delete k (storage st)).

(** [String.prototype.toLowerCase] on the ASCII letters of a username. *)
Definition lower (c : ascii) : ascii :=
  let n := nat_of_ascii c in
  if (65 <=? n)%nat && (n <=? 90)%nat then ascii_of_nat (n + 32) else c.

Fixpoint toLowerCase (s : string) : string :=
  match s with
  | EmptyString => EmptyString
  | String c r => String (lower c) (toLowerCase r)
  end.

Definition key (prefix u : string) : string := prefix +:+ toLowerCase u.

(** [if (!username) return; await AsyncStorage.setItem(...)] *)
Definition persist (s : Step) (st : State) : State :=
  match username st with
  | None => st
  | Some u =>
      if decide (u = EmptyString) then st
      else setItem (key "tutorialStep:" u) (step_name s) st
  end.

Definition order : list Step := [home; levels; practice; profile; done].

(** [Array.prototype.indexOf]: the first index of [x], or -1. *)
Fixpoint indexOf_from (i : Z) (xs : list Step) (x : Step) : Z :=
  match xs with
  | [] => -1
  | y :: rest => if decide (y = x) then i else indexOf_from (i + 1) rest x
  end.

Definition indexOf (xs : list Step) (x : Step) : Z := indexOf_from 0 xs x.

(** [order[i]]: [undefined] outside the array. *)
Definition at_index (xs : list Step) (i : Z) : option Step :=
  if i <? 0 then None else xs !! Z.to_nat i.

(** [next]: the index [Math.min(idx + 1, order.length - 1)] lies inside
    [order], so the lookup never yields [undefined]. *)
Definition next (st : State) : State :=
  let idx := indexOf order (step st) in
  match at_index order (Z.min (idx + 1) (Z.of_nat (length order) - 1)) with
  | Some n => persist n (setStep n st)
  | None => st
  end.

Definition start (u : string) (st : State) : State :=
  setActive true
    (setStep home
       (setItem (key "tutorialStep:" u) "home"
          (setItem (key "tutorialActive:" u) "1"
             (setUsername (Some u) st)))).

Definition markPracticeDone (st : State) : State :=
  persist profile (setStep profile st).

Definition finish (st : State) : State :=
  let st' :=
    match username st with
    | None => st
    | Some u =>
        if decide (u = EmptyString) then st
        else removeItem (key "tutorialStep:" u)
               (removeItem (key "tutorialActive:" u) st)
    end in
  setStep done (setActive false st').

(** The step a stored string names. *)
Definition step_of_name (s : string) : option Step :=
  if decide (s = "home"%string) then Some home
  else if decide (s = "levels"%string) then Some levels
  else if decide (s = "practice"%string) then Some practice
  else if decide (s = "profile"%string) then Some profile
  else if decide (s = "done"%string) then Some done
  else None.

(** The provider when it is mounted, over the persisted storage. *)
Definition mounted (sto : gmap string string) : State :=
  mkState false home None sto.

(** The effect run once after mounting.  [current] is the [username] of the
    object [JSON.parse] reads from the item [currentUser], and [None] when
    the item is absent or empty.  [(saved as Step) || 'home'] keeps a stored
    string as it is; the result is [None] where that string names no
    [Step]. *)
Definition resume (current : option string) (st : State) : option State :=
  match current with
  | None => Some st
  | Some u =>
      let st1 := setUsername (Some u) st in
      if decide (storage st !! key "tutorialActive:" u = Some "1"%string) then
        let st2 := setActive true st1 in
        match JS.truthy (match storage st !! key "tutorialStep:" u with
                         | Some saved => JS.Val saved
                         | None => JS.Null
                         end) with
        | Some saved => s ← step_of_name saved; Some (setStep s st2)
        | None => Some (setStep home st2)
        end
      else Some st1
  end.

(** The calls the screens make while a tour runs. *)
Inductive Call : Type := Next | MarkPracticeDone.

Definition call (c : Call) (st : State) : State :=
  match c with
  | Next => next st
  | MarkPracticeDone => markPracticeDone st
  end.

Definition calls (cs : list Call) (st : State) : State :=
  foldl (λ st c, call c st) st cs.

End Tutorial.


(* ================================================================== *)
(** ** src/screens/AnalyticsScreen.tsx: the dashboard's data
       (with src/constants/letters.ts and src/constants/levels.ts) *)

Module Analytics.

Import Schema Data.
Local Open Scope stmt_scope.

(** [LETTERS.map(L => L.ar)] *)
Definition ALL_AR : list string :=
  [
    "الف"; "باء"; "تاء"; "ثاء"; "جيم"; "حاء"; "خاء"; "دال";
    "ذال"; "راء"; "زاي"; "سين"; "شين"; "صاد"; "ضاد"; "طاء";
    "ظاء"; "عين"; "غين"; "فاء"; "قاف"; "كاف"; "لام"; "ميم";
    "نون"; "هاء"; "واو"; "ياء"
  ]%string.

Record Level : Type := mkLevelCfg {
  level : Z;
  name : string;
  letters : list string
}.

Definition LEVELS : list Level :=
  [ mkLevelCfg 1 "Level 1"
      [
        "الف"; "باء"; "تاء"; "ثاء"; "جيم"; "حاء"; "خاء";
        "دال"; "ذال"; "راء"; "زاي"; "سين"; "شين"; "صاد";
        "ضاد"; "طاء"; "ظاء"; "عين"; "غين"; "فاء"; "قاف";
        "كاف"; "لام"; "ميم"; "نون"; "هاء"; "واو"; "ياء"
      ]%string;
    mkLevelCfg 2 "Level 2" [];
    mkLevelCfg 3 "Level 3" [] ].

(** [LEVELS.find(L => L.level === selectedLevel)] *)
Definition findLevel (selectedLevel : Z) : option Level :=
  head (filter (λ L, level L = selectedLevel) LEVELS).

(** [LEVELS.find(...)?.letters || ALL_AR]: an array, also an empty one, is
    truthy, so [ALL_AR] stands in only for a level that is not in
    [LEVELS]. *)
Definition levelLetters (selectedLevel : Z) : list string :=
  match findLevel selectedLevel with
  | Some L => letters L
  | None => ALL_AR
  end.

(** [LETTERS.map(L => rows.find(r => r.ar === L.ar) ?? {ar: L.ar, n: 0,
    correct: 0, acc: 0}).filter(r => LEVEL_AR_SET.has(r.ar))] *)
Definition merged (selectedLevel : Z) (rows : list PerLetter) : list PerLetter :=
  filter (λ r, pl_ar r ∈ levelLetters selectedLevel)
    ((λ ar, default (mkPerLetter ar 0 0 JS.fzero)
                    (head (filter (λ r, pl_ar r = ar) rows)))
       <$> ALL_AR).

(** [merged.reduce((acc, r) => { acc.n += r.n; acc.correct += r.correct;
    return acc; }, { n: 0, correct: 0 })] *)
Definition perLevelTotals (m : list PerLetter) : Z * Z :=
  foldl (λ acc r, (acc.1 + pl_n r, acc.2 + pl_correct r)) (0, 0) m.

(** [perLevelTotals.n ? perLevelTotals.correct / perLevelTotals.n : 0] *)
Definition perLevelAcc (t : Z * Z) : PrimFloat.float :=
  if t.1 =? 0 then JS.fzero else JS.fdiv t.2 t.1.

(** The state [refresh] writes. *)
Record Screen : Type := mkScreen {
  rows : list PerLetter;
  totals : Totals;
  shown_level : Z;
  selectedLevel : Z;
  last7 : list DayStat;
  refreshing : bool
}.

(** The [try] block of [refresh], threading the screen: what has been set
    when a call raises stays set.  [now1] and [now2] are the clock at the
    upsert and at the series query. *)
Definition refresh_try (now1 now2 : Z) (userId : string) (sc : Screen)
    (db : DB) : result unit * (Screen * DB) :=
  match getPerLetterStats userId db with
  | (Err e, db1) => (Err e, (sc, db1))
  | (Ok r, db1) =>
  match getTotals userId db1 with
  | (Err e, db2) => (Err e, (sc, db2))
  | (Ok t, db2) =>
  let sc1 := mkScreen r t (shown_level sc) (selectedLevel sc) (last7 sc)
                      (refreshing sc) in
  match computeAndUpdateLevel now1 userId db2 with
  | (Err e, db3) => (Err e, (sc1, db3))
  | (Ok newLvl, db3) =>
  let sc2 := mkScreen r t newLvl (selectedLevel sc) (last7 sc)
                      (refreshing sc) in
  match getLast7DaysForLetters now2 userId
          (JS.Val (levelLetters (selectedLevel sc))) db3 with
  | (Err e, db4) => (Err e, (sc2, db4))
  | (Ok l7, db4) =>
  let sel := match findLevel (selectedLevel sc) with
             | Some _ => selectedLevel sc
             | None => if newLvl =? 0 then 1 else newLvl
             end in
  (Ok tt, (mkScreen r t newLvl sel l7 (refreshing sc), db4))
  end end end end.

(** [refresh]: nothing without a user id; otherwise the [try] block, an
    error being logged and dropped, and [refreshing] reset at the end. *)
Definition refresh (now1 now2 : Z) (userId : option string) (sc : Screen)
    (db : DB) : Screen * DB :=
  match JS.truthy (match userId with
                   | Some u => JS.Val u
                   | None => JS.Null
                   end) with
  | None => (sc, db)
  | Some u =>
      let '(_, (sc', db')) := refresh_try now1 now2 u sc db in
      (mkScreen (rows sc') (totals sc') (shown_level sc') (selectedLevel sc')
                (last7 sc') false, db')
  end.

End Analytics.

(* ================================================================== *)
(** ** src/screens/PracticeScreen.tsx: sending an attempt *)

Module Practice.

Import PrimFloat.
Import Schema Data.

(** The object literal [GLYPH_TO_CANON_AR], as the map of its own
    properties. *)
Definition GLYPH_TO_CANON_AR : gmap string string :=
  list_to_map
    ([
      ("ا", "الف"); ("أ", "الف"); ("إ", "الف"); ("آ", "الف");
      ("ب", "باء"); ("ت", "تاء"); ("ث", "ثاء"); ("ج", "جيم");
      ("ح", "حاء"); ("خ", "خاء"); ("د", "دال"); ("ذ", "ذال");
      ("ر", "راء"); ("ز", "زاي"); ("س", "سين"); ("ش", "شين");
      ("ص", "صاد"); ("ض", "ضاد"); ("ط", "طاء"); ("ظ", "ظاء");
      ("ع", "عين"); ("غ", "غين"); ("ف", "فاء"); ("ق", "قاف");
      ("ك", "كاف"); ("ل", "لام"); ("م", "ميم"); ("ن", "نون");
      ("ه", "هاء"); ("و", "واو"); ("ي", "ياء"); ("ى", "ياء")
     ]%string : list (string * string)).

Definition LEVEL1_ITEMS : list string :=
  [
    "ا"; "ب"; "ت"; "ث"; "ج"; "ح"; "خ"; "د"; "ذ"; "ر"; "ز"; "س";
    "ش"; "ص"; "ض"; "ط"; "ظ"; "ع"; "غ"; "ف"; "ق"; "ك"; "ل"; "م";
    "ن"; "ه"; "و"; "ي"
  ]%string.

Definition LEVEL2_ITEMS : list string :=
  [
    "بَ"; "بِ"; "بُ"; "تَ"; "تِ"; "تُ"; "ثَ"; "ثِ"; "ثُ"
  ]%string.

(** [LevelConfig], without the display title and the audio assets. *)
Record LevelConfig : Type := mkLevelConfig {
  id : Z;
  key : string;
  items : list string
}.

Definition LEVEL_1 : LevelConfig := mkLevelConfig 1 "level-1" LEVEL1_ITEMS.
Definition LEVEL_2 : LevelConfig := mkLevelConfig 2 "level-2" LEVEL2_ITEMS.

Definition LEVELS : list LevelConfig := [LEVEL_1; LEVEL_2].

(** [LEVELS.find((l) => l.id === id) ?? LEVELS[0]] *)
Definition getLevelById (i : Z) : LevelConfig :=
  default LEVEL_1 (head (filter (λ l, id l = i) LEVELS)).

(** The screen's data: the tour provider with the AsyncStorage, and the
    database. *)
Record App : Type := mkApp {
  tour : Tutorial.State;
  database : DB
}.

(** How [handleSend] ends. *)
Inductive Sent : Type :=
  | NoRecording                 (* [if (!audioRecorder.uri) return;] *)
  | MappingError                (* the alert "Mapping Error" *)
  | Saved
  | SaveFailed (e : error).     (* the alert "Could not save your attempt." *)

(** [evaluateAttempt()] *)
#[warnings="-inexact-float"]
Definition evaluateAttempt : bool * float * Z := (true, 0.99%float, 1000).

(** [handleSend], as far as it reads and writes the storage, the database
    and the tour; the feedback and counters of the screen are left out.
    [uri] is [audioRecorder.uri], [userId] the screen's user id, and
    [currentLetter] the item shown, which is one of the level's items.
    [nowUser] and [now] are the clock at the two inserts and [fresh] the
    identifier [nanoid()] would return. *)
Definition handleSend (nowUser now : Z) (fresh : string) (uri : option string)
    (userId : option string) (currentLetter : string) (app : App)
    : Sent * App :=
  match JS.truthy (match uri with Some s => JS.Val s | None => JS.Null end) with
  | None => (NoRecording, app)
  | Some recording =>
      let t := tour app in
      let '(rid, (kv, db)) :=
        match userId with
        | Some i => (Ok i, (Tutorial.storage t, database app))
        | None =>
            User.ensureLocalUser nowUser fresh
              (Tutorial.storage t, database app)
        end in
      let t1 := Tutorial.mkState (Tutorial.active t) (Tutorial.step t)
                  (Tutorial.username t) kv in
      match rid with
      | Err e => (SaveFailed e, mkApp t1 db)
      | Ok i =>
          match JS.truthy (match GLYPH_TO_CANON_AR !! currentLetter with
                           | Some c => JS.Val c
                           | None => JS.Undefined
                           end) with
          | None => (MappingError, mkApp t1 db)
          | Some targetCanonAr =>
              let '(correct, confidence, durationMs) := evaluateAttempt in
              match recordAttempt now
                      (mkNewAttempt i targetCanonAr (JS.Val targetCanonAr)
                         correct (JS.Val confidence) (JS.Val durationMs)
                         (JS.Val recording)) db with
              | (Err e, db') => (SaveFailed e, mkApp t1 db')
              | (Ok _, db') =>
                  if correct && Tutorial.active t
                     && bool_decide (Tutorial.step t = Tutorial.practice)
                  then (Saved, mkApp (Tutorial.markPracticeDone t1) db')
                  else (Saved, mkApp t1 db')
              end
          end
      end
  end.

End Practice.

(* ================================================================== *)
(** * The vocabulary of the statements *)

Import Schema Data.
Local Open Scope stmt_scope.

(** A statement that only reads leaves the database as it found it. *)
Definition read_only {A} (m : M A) : Prop := ∀ db, snd (m db) = db.

(** The user's attempts, and the correct ones among some attempts. *)
Definition attempts_of (userId : string) (rows : list AttemptRow) : list AttemptRow :=
  filter (λ a, a_user_id a = userId) rows.

Definition correct_ones (g : list AttemptRow) : list AttemptRow :=
  filter (λ a, a_correct a = true) g.

(** 2024-01-01T00:00:00.000Z *)
Definition t0 : Z := 1704067200000.

(** A fresh database file after [runMigrations()]. *)
Definition migrated : DB := snd (runMigrations fresh).

(** The same after [ensureLocalUser()] has inserted the user ["u1"]. *)
Definition with_user : DB := snd (insert_user t0 "u1" "Local User" migrated).

(** [k] calls of [recordAttempt] with the same attempt, one second apart
    from clock [now], ignoring their results. *)
Fixpoint record_many (k : nat) (now : Z) (a : NewAttempt) (db : DB) : DB :=
  match k with
  | O => db
  | S k' => record_many k' (now + 1000) a (snd (recordAttempt now a db))
  end.

Definition attempt_on (uid ar : string) (ok : bool) : NewAttempt :=
  mkNewAttempt uid ar JS.Undefined ok JS.Undefined JS.Undefined JS.Undefined.

(** ["u1"] after two correct attempts and one wrong attempt on the first
    letter. *)
Definition practised : DB :=
  record_many 1 (t0 + 2000) (attempt_on "u1" "الف" false)
    (record_many 2 t0 (attempt_on "u1" "الف" true) with_user).

Definition rows_of (db : DB) : list AttemptRow := default [] (attempts (tables db)).

(** The rows the seed step inserts into [letters]: letter [i] of the
    catalog gets [id = i] and [order_index = i]. *)
Definition seeded_letters : list LetterRow :=
  imap (λ i ar, mkLetter (Z.of_nat i) ar None (Z.of_nat i)) CANON_LETTERS.

(** The step that follows [s] in [home, levels, practice, profile, done],
    the last one following itself. *)
Definition following (s : Tutorial.Step) : Tutorial.Step :=
  match s with
  | Tutorial.home => Tutorial.levels
  | Tutorial.levels => Tutorial.practice
  | Tutorial.practice => Tutorial.profile
  | Tutorial.profile => Tutorial.done
  | Tutorial.done => Tutorial.done
  end.

(** The user has a row in [users]. *)
Definition registered (db : DB) (uid : string) : Prop :=
  ∃ us, users (tables db) = Some us ∧ uid ∈ (u_id <$> us).

(** The database [db] with one more row in [attempts] and nothing else
    changed. *)
Definition with_attempts (rows : list AttemptRow) (db : DB) : DB :=
  mkDB (foreign_keys db) (set_attempts (Some rows) (tables db)) (txn db).

(** The labels [recordAttempt] resolves: the target label, and the
    predicted label when it is present (truthy). *)
Definition labels (a : NewAttempt) : list string :=
  targetLetterAr a :: option_list (JS.truthy (predictedLetterAr a)).

(** The input [a] with the property [predictedLetterAr] left out. *)
Definition without_predicted (a : NewAttempt) : NewAttempt :=
  mkNewAttempt (userId a) (targetLetterAr a) JS.Undefined (correct a)
               (confidence a) (durationMs a) (audioUri a).

(** The totals the promotion reads. *)
Definition attempts_n (userId : string) (rows : list AttemptRow) : Z :=
  Z.of_nat (length (attempts_of userId rows)).

Definition attempts_correct (userId : string) (rows : list AttemptRow) : Z :=
  Z.of_nat (length (correct_ones (attempts_of userId rows))).

Definition attempts_acc (userId : string) (rows : list AttemptRow) : PrimFloat.float :=
  if attempts_n userId rows =? 0 then JS.fzero
  else JS.fdiv (attempts_correct userId rows) (attempts_n userId rows).

(** The level the call computes from the two tables it reads. *)
Definition level_for (userId : string) (rows : list AttemptRow)
    (lvs : list LevelRow) : Z :=
  scan (attempts_n userId rows) (attempts_acc userId rows) (merge_sort by_level lvs).

(** The database with the user's row of [user_levels] set and nothing
    else changed. *)
Definition with_user_level (userId : string) (lvl now : Z)
    (uls : gmap string UserLevelRow) (db : DB) : DB :=
  mkDB (foreign_keys db)
       (set_user_levels
          (Some (<[userId := mkUserLevel lvl (Sqlite.strftime_iso now)]> uls))
          (tables db))
       (txn db).

(** ["u1"] after ten correct and ten wrong attempts. *)
Definition twenty_half : DB :=
  record_many 10 (t0 + 10000) (attempt_on "u1" "الف" false)
    (record_many 10 t0 (attempt_on "u1" "الف" true) with_user).

(** ["u1"] after 35 correct and 15 wrong attempts, then promoted; and the
    same after 5 more wrong attempts. *)
Definition fifty : DB :=
  record_many 15 (t0 + 35000) (attempt_on "u1" "الف" false)
    (record_many 35 t0 (attempt_on "u1" "الف" true) with_user).

Definition fifty_promoted : DB := snd (computeAndUpdateLevel (t0 + 60000) "u1" fifty).

Definition fifty_five : DB :=
  record_many 5 (t0 + 70000) (attempt_on "u1" "الف" false) fifty_promoted.

(** The latest schema version: the highest [id] in [MIGRATIONS]. *)
Definition latest : Z := 1.

(** The version marker [runMigrations] reads: the first row of [_meta]. *)
Definition version (db : DB) : option Z :=
  rows ← _meta (tables db); head rows.

(** [PRAGMA foreign_keys = ON] as a state change. *)
Definition pragma_on (db : DB) : DB := snd (pragma_foreign_keys_on db).

(** Statements that leave the version marker, the pragma and the
    transaction state alone. *)
Definition same_marker (db db' : DB) : Prop :=
  _meta (tables db') = _meta (tables db)
  ∧ foreign_keys db' = foreign_keys db
  ∧ txn db' = txn db.

Definition keeps_marker {A} (m : M A) : Prop := ∀ db, same_marker db (snd (m db)).

(** [runMigrations] up to its loop, the loop being a parameter. *)
Definition prologue (loop : Z → M unit) : M unit :=
  pragma_foreign_keys_on ;;
  create_table_if_not_exists _meta set__meta [] ;;
  metaRow <- select_version ;;
  match metaRow with
  | None =>
      rows <- from "_meta" _meta ;;
      modify_tables (set__meta (Some (rows ++ [0])))
  | Some _ => ret tt
  end ;;
  v <- select_version ;;
  loop (default 0 v).

Definition with_meta (rows : list Z) (db : DB) : DB :=
  mkDB (foreign_keys db) (set__meta (Some rows) (tables db)) (txn db).

(** ["u1"] with a single correct attempt, recorded at [t0]. *)
Definition once : DB :=
  snd (recordAttempt t0 (attempt_on "u1" "الف" true) with_user).

(** Seven days and twelve hours after [t0]. *)
Definition later : Z := t0 + 7 * Sqlite.day_ms + 12 * 3600000.

(** ** The vocabulary of the further properties *)

(** The row of [getPerLetterStats] for the letter [l]. *)
Definition stat_row (userId : string) (rows : list AttemptRow) (l : LetterRow)
    : PerLetter :=
  mkPerLetter (l_ar l) (Sqlite.count (joined userId l rows))
              (default 0 (sum_correct (joined userId l rows)))
              (ratio_correct (joined userId l rows)).

(** Every attempt refers to a user and to letters that exist, and every
    stored level to a user and a threshold that exist: the REFERENCES
    clauses of the schema, as a property of the rows. *)
Definition references_hold (db : DB) : Prop :=
  ∃ rows us ls lvs uls,
    attempts (tables db) = Some rows ∧ users (tables db) = Some us
    ∧ letters (tables db) = Some ls ∧ levels (tables db) = Some lvs
    ∧ user_levels (tables db) = Some uls
    ∧ (∀ a, a ∈ rows →
         a_user_id a ∈ (u_id <$> us)
         ∧ a_target_letter_id a ∈ (l_id <$> ls)
         ∧ fk_nullable (a_predicted_letter_id a) (l_id <$> ls))
    ∧ (∀ u r, uls !! u = Some r →
         u ∈ (u_id <$> us) ∧ ul_level r ∈ (lv_level <$> lvs)).

(** Whether the row [r] of the per-letter statistics is the row an attempt
    [a] of [u] counts in. *)
Definition counts_in (u : string) (a : NewAttempt) (r : PerLetter) : Prop :=
  u = userId a ∧ pl_ar r = targetLetterAr a.

#[global] Instance counts_in_dec u a r : Decision (counts_in u a r).
Proof. unfold counts_in. apply _. Defined.

(** The sum of the counts of a series. *)
Definition series_total (out : list DayStat) : Z :=
  foldr Z.add 0 (d_n <$> out).

(** The attempt targets a letter of [ls] that carries one of [names]. *)
Definition targets_named (names : list string) (ls : list LetterRow)
    (a : AttemptRow) : Prop :=
  Exists (λ l, l_id l = a_target_letter_id a ∧ l_ar l ∈ names) ls.

#[global] Instance targets_named_dec names ls a : Decision (targets_named names ls a).
Proof. unfold targets_named. apply _. Defined.

(** The attempts of [userId] that the query at clock [now] selects. *)
Definition selected (now : Z) (userId : string) (rows : list AttemptRow)
    : list AttemptRow :=
  filter (λ a, a_user_id a = userId ∧ in_window now a) rows.

(** The day and the count of a bucket. *)
Definition day_count (b : DayStat) : string * Z := (d_day b, d_n b).

(** The tables after the statements of migration 1: every table that was
    missing is there and empty, the others are as they were, and the
    version marker is one row holding 0. *)
Definition created (t : Tables) : Tables :=
  mkTables (Some [0])
           (Some (default [] (users t)))
           (Some (default [] (letters t)))
           (Some (default [] (attempts t)))
           (Some (default [] (levels t)))
           (Some (default ∅ (user_levels t)))
           ({[ "idx_attempts_user_letter"%string ]}
            ∪ ({[ "idx_attempts_user_date"%string ]}
               ∪ ({[ "idx_attempts_user"%string ]} ∪ indexes t))).

(** The rows [forEach] inserts for the labels [xs], from index [i]. *)
Fixpoint letters_from (i : Z) (xs : list string) : list LetterRow :=
  match xs with
  | [] => []
  | x :: rest => mkLetter i x None i :: letters_from (i + 1) rest
  end.

(** A table after its seed step: the seed if it was empty. *)
Definition seed_if_empty {A} (seed rows : list A) : list A :=
  match rows with
  | [] => seed
  | _ => rows
  end.

(** The database after migration 1 has been applied to [db]. *)
Definition after_migration_1 (db : DB) : DB :=
  let t := set__meta (Some [1]) (created (tables db)) in
  mkDB (foreign_keys db)
       (set_levels (Some (seed_if_empty SEED_LEVELS (default [] (levels t))))
          (set_letters
             (Some (seed_if_empty seeded_letters (default [] (letters t)))) t))
       None.

(** No migration is pending on [db]. *)
Definition up_to_date (db : DB) : Prop :=
  ∃ v, version db = Some v ∧ latest ≤ v.

#[global] Instance up_to_date_dec db : Decision (up_to_date db).
Proof.
  unfold up_to_date. destruct (version db) as [v|].
  - destruct (decide (latest ≤ v)); [left; by exists v|right].
    intros (v' & [= <-] & ?). done.
  - right. by intros (v & ? & _).
Defined.

(** The dashboard before its first refresh: the initial [useState] values. *)
Definition initial_screen : Analytics.Screen :=
  Analytics.mkScreen [] (mkTotals 0 0 JS.fzero) 1 1 [] false.

(** The provider of a tour that runs for [u] at step [s]. *)
Definition running (u : string) (s : Tutorial.Step) (sto : gmap string string)
    : Tutorial.State :=
  Tutorial.mkState true s (Some u) sto.

(** The keys of the tour of [u]. *)
Definition tour_keys (u : string) : list string :=
  [Tutorial.key "tutorialActive:" u; Tutorial.key "tutorialStep:" u].

(** What holds while a tour runs: the provider knows the user and is
    active, and the storage holds the flag and the step shown. *)
Definition in_sync (u : string) (st : Tutorial.State) : Prop :=
  Tutorial.active st = true ∧ Tutorial.username st = Some u
  ∧ Tutorial.storage st !! Tutorial.key "tutorialActive:" u = Some "1"%string
  ∧ Tutorial.storage st !! Tutorial.key "tutorialStep:" u
    = Some (Tutorial.step_name (Tutorial.step st)).

(** The tour after a send that was saved: a tour at its practice step moves
    on to the profile step. *)
Definition tour_after_send (t : Tutorial.State) : Tutorial.State :=
  if Tutorial.active t && bool_decide (Tutorial.step t = Tutorial.practice)
  then Tutorial.markPracticeDone t else t.

(** The row [handleSend] stores for the letter row [l]: the letter is the
    target and the predicted letter, with the values of [evaluateAttempt]. *)
Definition sent_row (rowid : Z) (uid : string) (l : LetterRow)
    (recording : string) (now : Z) : AttemptRow :=
  let '(c, conf, dur) := Practice.evaluateAttempt in
  mkAttempt rowid uid (l_id l) (Some (l_id l)) c (Some conf) (Some dur)
            (Some recording) (Sqlite.strftime_iso now).

(** The practice screen of ["u1"] on the new installation, during the
    practice step of the tour. *)
Definition practising : Practice.App :=
  Practice.mkApp
    (Tutorial.calls [Tutorial.Next; Tutorial.Next]
       (Tutorial.start "u1" (Tutorial.mounted ∅)))
    with_user.

(* ================================================================== *)
(** * Properties *)

(** ** Running statements *)

Lemma bind_ok {A B} (m : M A) (k : A → M B) db a db' :
  m db = (Ok a, db') → bind m k db = k a db'.
Proof. intros H. unfold bind. by rewrite H. Qed.

Lemma bind_err {A B} (m : M A) (k : A → M B) db e db' :
  m db = (Err e, db') → bind m k db = (Err e, db').
Proof. intros H. unfold bind. by rewrite H. Qed.

Lemma from_some {R} name (sel : Tables → option R) db rows :
  sel (tables db) = Some rows → from name sel db = (Ok rows, db).
Proof. intros H. unfold from, bind, get_tables, ret. by rewrite H. Qed.

Lemma from_none {R} name (sel : Tables → option R) db :
  sel (tables db) = None → from name sel db = (Err (NoSuchTable name), db).
Proof. intros H. unfold from, bind, get_tables, throw. by rewrite H. Qed.

Lemma from_read_only {R} name (sel : Tables → option R) : read_only (from name sel).
Proof.
  intros db. destruct (sel (tables db)) eqn:E.
  - by rewrite (from_some _ _ _ _ E).
  - by rewrite (from_none _ _ _ E).
Qed.

(** ** Aggregates *)

Lemma foldr_add_correct (g : list AttemptRow) :
  foldr Z.add 0 ((λ a, b2z (a_correct a)) <$> g) = Z.of_nat (length (correct_ones g)).
Proof.
  unfold correct_ones.
  induction g as [|a g IH]; [done|].
  rewrite fmap_cons, filter_cons. cbn [foldr]. rewrite IH.
  destruct (a_correct a) eqn:E; cbn [b2z].
  - rewrite decide_True by done. cbn [length]. lia.
  - rewrite decide_False by done. lia.
Qed.

(** [SUM(correct)], with NULL read as 0, counts the rows whose flag is 1. *)
Lemma sum_correct_count (g : list AttemptRow) :
  default 0 (sum_correct g) = Z.of_nat (length (correct_ones g)).
Proof.
  destruct g as [|a g]; [done|].
  unfold sum_correct, Sqlite.sum. rewrite fmap_cons. cbn [default].
  exact (foldr_add_correct (a :: g)).
Qed.

(** ** Totals *)

(** C7: [getTotals(userId)] succeeds on the attempts table and returns [n],
    the number of the user's attempts, [correct], the number of those whose
    flag is 1, and [acc], which is [correct / n] when [n > 0] and [0] when
    [n = 0]; a user without attempts gets [n = 0], [correct = 0], [acc = 0];
    the database is left unchanged. *)
Theorem getTotals_counts (userId : string) (db : DB) (rows : list AttemptRow) :
  attempts (tables db) = Some rows →
  let n := Z.of_nat (length (attempts_of userId rows)) in
  let correct := Z.of_nat (length (correct_ones (attempts_of userId rows))) in
  ∃ t, getTotals userId db = (Ok t, db)
       ∧ t_n t = n
       ∧ t_correct t = correct
       ∧ (0 < n → t_acc t = JS.fdiv correct n)
       ∧ (n = 0 → t_acc t = JS.fzero)
       ∧ (attempts_of userId rows = [] → t = mkTotals 0 0 JS.fzero).
Proof.
  intros Hrows n correct.
  unfold getTotals. rewrite (bind_ok _ _ _ _ _ (from_some _ _ _ _ Hrows)).
  fold (attempts_of userId rows). rewrite sum_correct_count.
  unfold ret, Sqlite.count. fold n correct.
  eexists. split; [reflexivity|]. cbn [t_n t_correct t_acc].
  repeat split.
  - intros Hn. destruct (Z.eqb_spec n 0); [lia|done].
  - intros Hn. by rewrite Hn.
  - intros Hnil. subst n correct. by rewrite Hnil.
Qed.

Lemma getTotals_counts_witness :
  ∃ t, getTotals "u1" practised = (Ok t, practised)
       ∧ t_n t = 3 ∧ t_correct t = 2 ∧ t_acc t = JS.fdiv 2 3.
Proof.
  destruct (getTotals_counts "u1" practised (rows_of practised))
    as (t & Hrun & Hn & Hc & Hacc & _).
  - vm_compute. reflexivity.
  - exists t. split; [exact Hrun|]. split; [exact Hn|]. split; [exact Hc|].
    apply Hacc. vm_compute. reflexivity.
Defined.

(** ** Per-letter statistics *)

Lemma migrated_letters : letters (tables migrated) = Some seeded_letters.
Proof. vm_compute. reflexivity. Qed.

Lemma seeded_letters_sorted : merge_sort by_order_index seeded_letters = seeded_letters.
Proof. vm_compute. reflexivity. Qed.

Lemma seeded_letters_ar : l_ar <$> seeded_letters = CANON_LETTERS.
Proof. reflexivity. Qed.

Lemma seeded_letters_lookup (i : nat) (l : LetterRow) :
  seeded_letters !! i = Some l →
  l_id l = Z.of_nat i ∧ l_order_index l = Z.of_nat i ∧ CANON_LETTERS !! i = Some (l_ar l).
Proof.
  unfold seeded_letters. rewrite list_lookup_imap.
  destruct (CANON_LETTERS !! i) as [ar|]; [|done].
  intros [= <-]. done.
Qed.



(** ** The letter-filtered series without letters *)

(** C9: [getLast7DaysForLetters] called with an empty list, or with no list
    at all ([undefined] or [null]), returns the empty series, whatever the
    clock, the user and the database are, and without touching the
    database. *)
Theorem getLast7DaysForLetters_no_letters (now : Z) (userId : string) (db : DB) :
  getLast7DaysForLetters now userId (JS.Val []) db = (Ok [], db)
  ∧ getLast7DaysForLetters now userId JS.Undefined db = (Ok [], db)
  ∧ getLast7DaysForLetters now userId JS.Null db = (Ok [], db).
Proof. repeat split. Qed.

(** The unfiltered series of the same user is not empty in general, so the
    empty answer is not the unfiltered one. *)
Example getLast7Days_practised :
  fst (getLast7Days (t0 + 5000) "u1" practised)
  = Ok [mkDayStat "2024-01-01" 3 (JS.fdiv 2 3)].
Proof. vm_compute. reflexivity. Qed.

(** ** The guided tour *)

Module TutorialFacts.
Import Tutorial.

Lemma indexOf_order (s : Step) :
  at_index order (indexOf order s) = Some s.
Proof. by destruct s. Qed.

(** C8: [next()] moves the step one position forward in the order
    home, levels, practice, profile, done; from [done] the step stays
    [done]; [next] is a total function of the state (no transition is
    refused), and it changes neither [active] nor [username]. *)
Theorem next_advances (st : State) :
  step (next st) = following (step st)
  ∧ indexOf order (step (next st)) = Z.min (indexOf order (step st) + 1) 4
  ∧ (step st = done → step (next st) = done)
  ∧ active (next st) = active st
  ∧ username (next st) = username st.
Proof.
  destruct st as [a s u sto].
  unfold next, persist. cbn [step username active].
  destruct s; cbn; destruct u as [u|]; cbn; try done;
    destruct (decide (u = EmptyString)); done.
Qed.

Lemma next_advances_witness :
  step (next (mkState true done (Some "Bob"%string) ∅)) = done.
Proof.
  apply (next_advances (mkState true done (Some "Bob"%string) ∅)).
  reflexivity.
Defined.

End TutorialFacts.

(** ** Recording an attempt *)

Lemma head_filter_none {A} (P : A → Prop) `{∀ x, Decision (P x)} (xs : list A) :
  (∀ x, x ∈ xs → ¬ P x) → head (filter P xs) = None.
Proof.
  induction xs as [|x xs IH]; intros Hno; [done|].
  rewrite filter_cons, decide_False by (apply Hno; left).
  apply IH. intros y Hy. apply Hno. by right.
Qed.

Lemma head_filter_some {A} (P : A → Prop) `{∀ x, Decision (P x)} (xs : list A) x :
  x ∈ xs → P x → ∃ y, head (filter P xs) = Some y ∧ y ∈ xs ∧ P y.
Proof.
  induction xs as [|z xs IH]; intros Hin HP; [by apply elem_of_nil in Hin|].
  rewrite filter_cons. destruct (decide (P z)) as [Hz|Hz].
  - exists z. split; [done|]. split; [left|done].
  - apply elem_of_cons in Hin as [->|Hin]; [done|].
    destruct (IH Hin HP) as (y & Hy & Hyin & HPy).
    exists y. split; [done|]. split; [by right|done].
Qed.

(** A label that no row of [letters] carries is an unknown letter. *)
Lemma letterIdByAr_unknown (ar : string) db ls :
  letters (tables db) = Some ls → ar ∉ (l_ar <$> ls) →
  letterIdByAr ar db = (Err (UnknownLetter ar), db).
Proof.
  intros Hls Hno. unfold letterIdByAr.
  rewrite (bind_ok _ _ _ _ _ (from_some _ _ _ _ Hls)).
  rewrite head_filter_none; [done|].
  intros l Hl Har. apply Hno. apply list_elem_of_fmap. by exists l.
Qed.

(** A label that some row carries resolves to the [id] of such a row. *)
Lemma letterIdByAr_known (ar : string) db ls :
  letters (tables db) = Some ls → ar ∈ (l_ar <$> ls) →
  ∃ l, l ∈ ls ∧ l_ar l = ar ∧ letterIdByAr ar db = (Ok (l_id l), db).
Proof.
  intros Hls Hin. apply list_elem_of_fmap in Hin as (l0 & Har0 & Hl0).
  destruct (head_filter_some (λ l, l_ar l = ar) ls l0 Hl0 (eq_sym Har0))
    as (l & Hhead & Hl & Har).
  exists l. split; [done|]. split; [done|].
  unfold letterIdByAr.
  rewrite (bind_ok _ _ _ _ _ (from_some _ _ _ _ Hls)).
  by rewrite Hhead.
Qed.

(** The insert goes through when the references it makes are to rows that
    exist, or when foreign keys are not enforced. *)
Lemma insert_attempt_ok now uid tid pid c conf dur uri db rows ls :
  attempts (tables db) = Some rows →
  letters (tables db) = Some ls →
  foreign_keys db = false ∨ registered db uid →
  tid ∈ (l_id <$> ls) → fk_nullable pid (l_id <$> ls) →
  insert_attempt now uid tid pid c conf dur uri db
  = (Ok tt, with_attempts
              (rows ++ [mkAttempt (next_rowid rows) uid tid pid c conf dur uri
                                  (Sqlite.strftime_iso now)]) db).
Proof.
  intros Hrows Hls Hfk Htid Hpid. unfold insert_attempt.
  rewrite (bind_ok _ _ _ _ _ (from_some _ _ _ _ Hrows)).
  unfold bind at 1, get_foreign_keys.
  destruct (foreign_keys db) eqn:Efk; cbn [when].
  - destruct Hfk as [|(us & Hus & Hin)]; [done|].
    erewrite bind_ok; [reflexivity|].
    rewrite (bind_ok _ _ _ _ _ (from_some _ _ _ _ Hus)).
    rewrite (bind_ok _ _ _ _ _ (from_some _ _ _ _ Hls)).
    unfold require. by rewrite decide_True.
  - reflexivity.
Qed.

(** With foreign keys enforced, an attempt of an unregistered user is
    refused and nothing is written. *)
Lemma insert_attempt_unregistered now uid tid pid c conf dur uri db rows us ls :
  attempts (tables db) = Some rows →
  users (tables db) = Some us →
  letters (tables db) = Some ls →
  foreign_keys db = true → uid ∉ (u_id <$> us) →
  insert_attempt now uid tid pid c conf dur uri db = (Err ForeignKeyFailed, db).
Proof.
  intros Hrows Hus Hls Hfk Hno. unfold insert_attempt.
  rewrite (bind_ok _ _ _ _ _ (from_some _ _ _ _ Hrows)).
  unfold bind at 1, get_foreign_keys. rewrite Hfk. cbn [when].
  erewrite bind_err; [reflexivity|].
  rewrite (bind_ok _ _ _ _ _ (from_some _ _ _ _ Hus)).
  rewrite (bind_ok _ _ _ _ _ (from_some _ _ _ _ Hls)).
  unfold require. rewrite decide_False; [done|]. by intros [? _].
Qed.

Lemma labels_resolve (a : NewAttempt) (known : list string) :
  (∀ ar, ar ∈ labels a → ar ∈ known) →
  targetLetterAr a ∈ known
  ∧ ∀ p, JS.truthy (predictedLetterAr a) = Some p → p ∈ known.
Proof.
  intros Hall. unfold labels in Hall. split.
  - apply Hall. left.
  - intros p Hp. apply Hall. right. rewrite Hp. left.
Qed.

(** C3, as the code has it: on a database whose [letters] rows carry the
    canonical labels, an input with a label outside the catalog (the target
    label, or the predicted label when present) makes [recordAttempt] raise
    the unknown-letter error for such a label and leave the database as it
    was; an input whose labels all resolve, whose user is registered in
    [users] (or with foreign keys not enforced), appends exactly one row to
    [attempts], carrying the input's user, target, flag and the clock's
    timestamp, and changes nothing else. *)
Theorem recordAttempt_outcome (now : Z) (a : NewAttempt) (db : DB)
    (ls : list LetterRow) (rows : list AttemptRow) :
  letters (tables db) = Some ls →
  l_ar <$> ls = CANON_LETTERS →
  attempts (tables db) = Some rows →
  ((∃ ar, ar ∈ labels a ∧ (ar ∉ CANON_LETTERS)) →
     ∃ ar, ar ∈ labels a ∧ (ar ∉ CANON_LETTERS)
           ∧ recordAttempt now a db = (Err (UnknownLetter ar), db))
  ∧ ((∀ ar, ar ∈ labels a → ar ∈ CANON_LETTERS) →
     foreign_keys db = false ∨ registered db (userId a) →
     ∃ row, recordAttempt now a db = (Ok tt, with_attempts (rows ++ [row]) db)
            ∧ a_user_id row = userId a
            ∧ (∃ l, l ∈ ls ∧ l_ar l = targetLetterAr a
                    ∧ a_target_letter_id row = l_id l)
            ∧ a_correct row = correct a
            ∧ a_created_at row = Sqlite.strftime_iso now).
Proof.
  intros Hls Hcanon Hrows. split.
  - intros (bad & Hbad & Hout).
    destruct (decide (targetLetterAr a ∈ CANON_LETTERS)) as [Ht|Ht].
    + (* the target resolves, so the label outside is the predicted one *)
      unfold labels in Hbad. apply elem_of_cons in Hbad as [->|Hbad]; [done|].
      destruct (JS.truthy (predictedLetterAr a)) as [p|] eqn:Ep;
        [|by apply elem_of_nil in Hbad].
      cbn in Hbad. apply list_elem_of_singleton in Hbad as ->.
      exists p. split; [unfold labels; rewrite Ep; right; left|]. split; [done|].
      rewrite <- Hcanon in Ht, Hout.
      destruct (letterIdByAr_known _ db ls Hls Ht) as (l & _ & _ & Hrun).
      unfold recordAttempt. rewrite (bind_ok _ _ _ _ _ Hrun). rewrite Ep.
      erewrite bind_err; [reflexivity|].
      erewrite bind_err; [reflexivity|].
      by apply letterIdByAr_unknown with ls.
    + exists (targetLetterAr a). split; [left|]. split; [done|].
      rewrite <- Hcanon in Ht.
      unfold recordAttempt. erewrite bind_err; [reflexivity|].
      by apply letterIdByAr_unknown with ls.
  - intros Hall Hfk. rewrite <- Hcanon in Hall.
    destruct (labels_resolve a _ Hall) as [Ht Hp].
    destruct (letterIdByAr_known _ db ls Hls Ht) as (l & Hl & Har & Hrun).
    unfold recordAttempt. rewrite (bind_ok _ _ _ _ _ Hrun).
    destruct (JS.truthy (predictedLetterAr a)) as [p|] eqn:Ep.
    + destruct (letterIdByAr_known _ db ls Hls (Hp p eq_refl))
        as (lp & Hlp & _ & Hrunp).
      erewrite bind_ok; [|by rewrite (bind_ok _ _ _ _ _ Hrunp)].
      erewrite insert_attempt_ok; try done.
      * eexists. split; [reflexivity|]. cbn. split; [done|].
        split; [by exists l|done].
      * apply list_elem_of_fmap. by exists l.
      * cbn. apply list_elem_of_fmap. by exists lp.
    + erewrite bind_ok; [|reflexivity].
      erewrite insert_attempt_ok; try done.
      * eexists. split; [reflexivity|]. cbn. split; [done|].
        split; [by exists l|done].
      * apply list_elem_of_fmap. by exists l.
Qed.

Lemma recordAttempt_outcome_witness :
  ∃ row, recordAttempt t0 (attempt_on "u1" "الف" true) with_user
         = (Ok tt, with_attempts [row] with_user)
         ∧ a_user_id row = "u1"%string.
Proof.
  destruct (recordAttempt_outcome t0 (attempt_on "u1" "الف" true) with_user
              seeded_letters []) as [_ Hok].
  - vm_compute. reflexivity.
  - reflexivity.
  - vm_compute. reflexivity.
  - destruct Hok as (row & Hrun & Huid & _).
    + intros ar Har. cbn in Har. apply list_elem_of_singleton in Har as ->. left.
    + right. eexists. split; [vm_compute; reflexivity|]. left.
    + exists row. split; [exact Hrun|exact Huid].
Defined.

(** Without the registration the second half of C3 fails where foreign keys
    are enforced: right after [runMigrations()] no user is registered, the
    label resolves, and yet no row is appended. *)
Lemma recordAttempt_unregistered_refused :
  labels (attempt_on "u1" "الف" true) = ["الف"%string]
  ∧ "الف"%string ∈ CANON_LETTERS
  ∧ recordAttempt t0 (attempt_on "u1" "الف" true) migrated
    = (Err ForeignKeyFailed, migrated)
  ∧ attempts (tables migrated) = Some [].
Proof.
  split; [reflexivity|]. split; [left|].
  split; vm_compute; reflexivity.
Qed.

(** ** A falsy predicted label *)

(** What [insert_attempt] can raise is never the unknown-letter error. *)
Lemma insert_attempt_errors now uid tid pid c conf dur uri db e db' :
  insert_attempt now uid tid pid c conf dur uri db = (Err e, db') →
  ∀ ar, e ≠ UnknownLetter ar.
Proof.
  unfold insert_attempt, from, bind, get_tables, get_foreign_keys, when,
    require, ret, throw, modify_tables.
  intros H ar.
  destruct (attempts (tables db)); [|by injection H as <-].
  destruct (foreign_keys db); [|done].
  destruct (users (tables db)); [|by injection H as <-].
  destruct (letters (tables db)); [|by injection H as <-].
  destruct (decide _); [done|by injection H as <-].
Qed.

(** C10: when the predicted label is [undefined], [null] or the empty
    string, [recordAttempt] runs exactly as it does with the property left
    out: it resolves the target label only and inserts with a NULL
    predicted letter.  So once the target label resolves, no unknown-letter
    error is raised, and the row is inserted (with NULL as its predicted
    letter) whenever the insert is admitted, that is, for a registered user
    or with foreign keys not enforced. *)
Theorem recordAttempt_falsy_predicted (now : Z) (a : NewAttempt) (db : DB) :
  predictedLetterAr a = JS.Undefined ∨ predictedLetterAr a = JS.Null
  ∨ predictedLetterAr a = JS.Val EmptyString →
  recordAttempt now a db = recordAttempt now (without_predicted a) db
  ∧ recordAttempt now a db
    = (targetId <- letterIdByAr (targetLetterAr a) ;;
       insert_attempt now (userId a) targetId None (correct a)
         (JS.nullish (confidence a)) (JS.nullish (durationMs a))
         (JS.nullish (audioUri a))) db
  ∧ ∀ ls rows,
      letters (tables db) = Some ls →
      attempts (tables db) = Some rows →
      targetLetterAr a ∈ (l_ar <$> ls) →
      (∀ ar, fst (recordAttempt now a db) ≠ Err (UnknownLetter ar))
      ∧ (foreign_keys db = false ∨ registered db (userId a) →
         ∃ row, recordAttempt now a db = (Ok tt, with_attempts (rows ++ [row]) db)
                ∧ a_predicted_letter_id row = None).
Proof.
  intros Hfalsy.
  assert (Ht : JS.truthy (predictedLetterAr a) = None)
    by (destruct Hfalsy as [->|[->| ->]]; reflexivity).
  assert (Hrun : recordAttempt now a db
    = (targetId <- letterIdByAr (targetLetterAr a) ;;
       insert_attempt now (userId a) targetId None (correct a)
         (JS.nullish (confidence a)) (JS.nullish (durationMs a))
         (JS.nullish (audioUri a))) db).
  { unfold recordAttempt. rewrite Ht. unfold bind, ret.
    by destruct (letterIdByAr (targetLetterAr a) db) as [[tid|e] db']. }
  split; [|split; [exact Hrun|]].
  - rewrite Hrun. unfold recordAttempt, without_predicted. cbn.
    unfold bind, ret.
    by destruct (letterIdByAr (targetLetterAr a) db) as [[tid|e] db'].
  - intros ls rows Hls Hrows Hin.
    destruct (letterIdByAr_known _ db ls Hls Hin) as (l & Hl & Har & Hid).
    rewrite Hrun, (bind_ok _ _ _ _ _ Hid). split.
    + intros ar Herr.
      destruct (insert_attempt _ _ _ _ _ _ _ _ db) as [[[]|e] db'] eqn:E; [done|].
      cbn in Herr. injection Herr as ->.
      by eapply insert_attempt_errors.
    + intros Hfk. erewrite insert_attempt_ok; try done.
      * eexists. split; [reflexivity|done].
      * apply list_elem_of_fmap. by exists l.
Qed.

Lemma recordAttempt_falsy_predicted_witness :
  ∃ row, recordAttempt t0
           (mkNewAttempt "u1" "باء" (JS.Val EmptyString) true
                         JS.Undefined JS.Undefined JS.Undefined) with_user
         = (Ok tt, with_attempts [row] with_user)
         ∧ a_predicted_letter_id row = None.
Proof.
  destruct (recordAttempt_falsy_predicted t0
              (mkNewAttempt "u1" "باء" (JS.Val EmptyString) true
                            JS.Undefined JS.Undefined JS.Undefined) with_user)
    as (_ & _ & H).
  - right. right. reflexivity.
  - destruct (H seeded_letters []) as [_ Hok].
    + vm_compute. reflexivity.
    + vm_compute. reflexivity.
    + right. left.
    + apply Hok. right. eexists. split; [vm_compute; reflexivity|]. left.
Defined.

(** ** Level promotion *)

#[local] Instance by_level_trans : Transitive by_level.
Proof. unfold by_level. intros x y z. lia. Qed.

#[local] Instance by_level_total : Total by_level.
Proof. unfold by_level. intros x y. lia. Qed.

Lemma elem_of_sorted_levels (L : LevelRow) (lvs : list LevelRow) :
  L ∈ merge_sort by_level lvs ↔ L ∈ lvs.
Proof. by rewrite merge_sort_Permutation. Qed.

(** The loop over thresholds in ascending order ends on the level of the
    last satisfied threshold, which is the highest satisfied one, and keeps
    its initial value when none is satisfied. *)
Lemma scan_loop (n : Z) (acc : PrimFloat.float) (s : list LevelRow) (b0 : Z) :
  StronglySorted by_level s →
  let r := foldl (λ best L, if satisfied n acc L then lv_level L else best) b0 s in
  ((∀ L, L ∈ s → satisfied n acc L = false) ∧ r = b0)
  ∨ (∃ B, B ∈ s ∧ satisfied n acc B = true ∧ r = lv_level B
          ∧ ∀ L, L ∈ s → satisfied n acc L = true → lv_level L ≤ lv_level B).
Proof.
  intros Hs. revert b0. induction Hs as [|x s Hs IH Hx]; intros b0; cbn.
  - left. split; [|done]. intros L HL. by apply elem_of_nil in HL.
  - rewrite Forall_forall in Hx.
    destruct (IH (if satisfied n acc x then lv_level x else b0))
      as [[Hnone Hr]|(B & HB & Hsat & Hr & Hmax)].
    + destruct (satisfied n acc x) eqn:Ex.
      * right. exists x. split; [left|]. split; [done|]. split; [done|].
        intros L HL HsatL. apply elem_of_cons in HL as [->|HL]; [lia|].
        rewrite (Hnone L HL) in HsatL. done.
      * left. split; [|done].
        intros L HL. apply elem_of_cons in HL as [->|HL]; [done|by apply Hnone].
    + right. exists B. split; [by right|]. split; [done|]. split; [done|].
      intros L HL HsatL. apply elem_of_cons in HL as [->|HL].
      * exact (Hx B HB).
      * by apply Hmax.
Qed.

Lemma scan_highest (n : Z) (acc : PrimFloat.float) (lvs : list LevelRow) :
  let best := scan n acc (merge_sort by_level lvs) in
  ((∀ L, L ∈ lvs → satisfied n acc L = false) ∧ best = 1)
  ∨ (∃ B, B ∈ lvs ∧ satisfied n acc B = true ∧ best = lv_level B
          ∧ ∀ L, L ∈ lvs → satisfied n acc L = true → lv_level L ≤ best).
Proof.
  cbn. unfold scan.
  destruct (scan_loop n acc (merge_sort by_level lvs) 1)
    as [[Hnone Hr]|(B & HB & Hsat & Hr & Hmax)].
  - apply StronglySorted_merge_sort; apply _.
  - left. split; [|done]. intros L HL. apply Hnone. by apply elem_of_sorted_levels.
  - right. exists B. split; [by apply elem_of_sorted_levels|].
    split; [done|]. split; [done|].
    intros L HL HsatL. rewrite Hr. apply Hmax; [by apply elem_of_sorted_levels|done].
Qed.

Lemma getTotals_run (userId : string) (db : DB) (rows : list AttemptRow) :
  attempts (tables db) = Some rows →
  getTotals userId db
  = (Ok (mkTotals (attempts_n userId rows) (attempts_correct userId rows)
                  (attempts_acc userId rows)), db).
Proof.
  intros Hrows. unfold getTotals.
  rewrite (bind_ok _ _ _ _ _ (from_some _ _ _ _ Hrows)).
  fold (attempts_of userId rows). by rewrite sum_correct_count.
Qed.

Lemma upsert_user_level_ok now userId lvl db uls lvs :
  user_levels (tables db) = Some uls →
  levels (tables db) = Some lvs →
  foreign_keys db = false ∨ (registered db userId ∧ lvl ∈ (lv_level <$> lvs)) →
  upsert_user_level now userId lvl db = (Ok tt, with_user_level userId lvl now uls db).
Proof.
  intros Huls Hlvs Hfk. unfold upsert_user_level.
  rewrite (bind_ok _ _ _ _ _ (from_some _ _ _ _ Huls)).
  unfold bind at 1, get_foreign_keys.
  destruct (foreign_keys db) eqn:Efk; cbn [when]; [|reflexivity].
  destruct Hfk as [|[(us & Hus & Hin) Hlvl]]; [done|].
  erewrite bind_ok; [reflexivity|].
  rewrite (bind_ok _ _ _ _ _ (from_some _ _ _ _ Hlvs)).
  destruct (uls !! userId).
  - unfold require. by rewrite decide_True.
  - rewrite (bind_ok _ _ _ _ _ (from_some _ _ _ _ Hus)).
    unfold require. by rewrite decide_True.
Qed.

Lemma computeAndUpdateLevel_run now userId db rows lvs uls :
  attempts (tables db) = Some rows →
  levels (tables db) = Some lvs →
  user_levels (tables db) = Some uls →
  foreign_keys db = false
  ∨ (registered db userId ∧ level_for userId rows lvs ∈ (lv_level <$> lvs)) →
  computeAndUpdateLevel now userId db
  = (Ok (level_for userId rows lvs),
     with_user_level userId (level_for userId rows lvs) now uls db).
Proof.
  intros Hrows Hlvs Huls Hfk. unfold computeAndUpdateLevel.
  rewrite (bind_ok _ _ _ _ _ (getTotals_run _ _ _ Hrows)).
  rewrite (bind_ok _ _ _ _ _ (from_some _ _ _ _ Hlvs)).
  cbn [t_n t_acc]. fold (level_for userId rows lvs).
  by rewrite (bind_ok _ _ _ _ _ (upsert_user_level_ok _ _ _ _ _ _ Huls Hlvs Hfk)).
Qed.

(** The level chosen among the thresholds is the level of one of them. *)
Lemma level_for_in_table userId rows lvs :
  1 ∈ (lv_level <$> lvs) → level_for userId rows lvs ∈ (lv_level <$> lvs).
Proof.
  intros H1. unfold level_for.
  destruct (scan_highest (attempts_n userId rows) (attempts_acc userId rows) lvs)
    as [[_ ->]|(B & HB & _ & -> & _)]; [done|].
  apply list_elem_of_fmap. by exists B.
Qed.

Module Promotion.
Import PrimFloat.

(** Ten correct attempts out of twenty are an accuracy of exactly 0.5, and
    thirty-five out of fifty the number written 0.7. *)
Example accuracy_10_of_20 : JS.fdiv 10 20 = 0.5%float.
Proof. vm_compute. reflexivity. Qed.

#[warnings="-inexact-float"]
Example accuracy_35_of_50 : JS.fdiv 35 50 = 0.7%float.
Proof. vm_compute. reflexivity. Qed.

(** C1, as the code has it: for a user registered in [users] and a
    thresholds table that contains level 1 (or with foreign keys not
    enforced), [computeAndUpdateLevel(userId)] returns, and stores in the
    user's row of [user_levels], the highest level of the thresholds table
    whose [min_attempts] and [min_accuracy] are both met by the user's
    totals, and 1 when no threshold is met.  With the seeded thresholds, 20
    attempts at accuracy 0.5 give level 1, and 50 attempts at accuracy 0.7
    give level 2. *)
#[warnings="-inexact-float"]
Theorem computeAndUpdateLevel_highest (now : Z) (userId : string) (db : DB)
    (rows : list AttemptRow) (lvs : list LevelRow) (uls : gmap string UserLevelRow) :
  attempts (tables db) = Some rows →
  levels (tables db) = Some lvs →
  user_levels (tables db) = Some uls →
  foreign_keys db = false ∨ (registered db userId ∧ 1 ∈ (lv_level <$> lvs)) →
  let n := attempts_n userId rows in
  let acc := attempts_acc userId rows in
  ∃ best,
    computeAndUpdateLevel now userId db
    = (Ok best, with_user_level userId best now uls db)
    ∧ ((∀ L, L ∈ lvs → satisfied n acc L = false) → best = 1)
    ∧ (∀ L, L ∈ lvs → satisfied n acc L = true →
         (∃ B, B ∈ lvs ∧ satisfied n acc B = true ∧ best = lv_level B)
         ∧ lv_level L ≤ best)
    ∧ (lvs = SEED_LEVELS → n = 20 → acc = 0.5%float → best = 1)
    ∧ (lvs = SEED_LEVELS → n = 50 → acc = 0.7%float → best = 2).
Proof.
  intros Hrows Hlvs Huls Hfk n acc.
  exists (level_for userId rows lvs). split; [|split; [|split; [|split]]].
  - apply computeAndUpdateLevel_run; try done.
    destruct Hfk as [|[Hreg H1]]; [by left|right].
    split; [done|by apply level_for_in_table].
  - intros Hnone. unfold level_for.
    destruct (scan_highest n acc lvs) as [[_ Hr]|(B & HB & Hsat & _)]; [done|].
    by rewrite (Hnone B HB) in Hsat.
  - intros L HL HsatL. unfold level_for.
    destruct (scan_highest n acc lvs) as [[Hnone _]|(B & HB & Hsat & Hr & Hmax)].
    + by rewrite (Hnone L HL) in HsatL.
    + split; [by exists B|by apply Hmax].
  - intros -> Hn Hacc. unfold level_for. fold n acc. rewrite Hn, Hacc.
    vm_compute. reflexivity.
  - intros -> Hn Hacc. unfold level_for. fold n acc. rewrite Hn, Hacc.
    vm_compute. reflexivity.
Qed.

Lemma computeAndUpdateLevel_highest_witness :
  ∃ db', computeAndUpdateLevel (t0 + 60000) "u1" twenty_half = (Ok 1, db').
Proof.
  destruct (computeAndUpdateLevel_highest (t0 + 60000) "u1" twenty_half
              (rows_of twenty_half) SEED_LEVELS ∅)
    as (best & Hrun & _ & _ & H20 & _).
  - vm_compute. reflexivity.
  - vm_compute. reflexivity.
  - vm_compute. reflexivity.
  - right. split.
    + eexists. split; [vm_compute; reflexivity|]. left.
    + left.
  - rewrite H20 in Hrun.
    + eexists. exact Hrun.
    + reflexivity.
    + vm_compute. reflexivity.
    + vm_compute. reflexivity.
Defined.

(** Without the registration C1 fails where foreign keys are enforced:
    right after [runMigrations()] the thresholds are seeded and the user
    ["u1"], who is not in [users], has no attempts, so no threshold is met;
    the call raises instead of returning the default 1, and stores
    nothing. *)
Lemma computeAndUpdateLevel_unregistered_raises :
  levels (tables migrated) = Some SEED_LEVELS
  ∧ attempts (tables migrated) = Some []
  ∧ computeAndUpdateLevel t0 "u1" migrated = (Err ForeignKeyFailed, migrated).
Proof. repeat split; vm_compute; reflexivity. Qed.

End Promotion.

(** ** The stored level plays no part in the promotion *)

Lemma upsert_user_level_inv now userId lvl db db' :
  upsert_user_level now userId lvl db = (Ok tt, db') →
  ∃ uls, user_levels (tables db) = Some uls
         ∧ db' = with_user_level userId lvl now uls db.
Proof.
  unfold upsert_user_level, from, bind, get_tables, get_foreign_keys, when,
    require, ret, throw, modify_tables.
  intros H.
  destruct (user_levels (tables db)) as [uls|]; [|done].
  exists uls. split; [done|].
  destruct (foreign_keys db); [|by injection H as <-].
  destruct (levels (tables db)); [|done].
  destruct (uls !! userId).
  - destruct (decide _); [by injection H as <-|done].
  - destruct (users (tables db)); [|done].
    destruct (decide _); [by injection H as <-|done].
Qed.

(** Whenever the call returns, what it returns and stores is the level
    computed from [attempts] and [levels]. *)
Lemma computeAndUpdateLevel_inv now userId db l db' :
  computeAndUpdateLevel now userId db = (Ok l, db') →
  ∃ rows lvs uls,
    attempts (tables db) = Some rows ∧ levels (tables db) = Some lvs
    ∧ user_levels (tables db) = Some uls
    ∧ l = level_for userId rows lvs
    ∧ db' = with_user_level userId l now uls db.
Proof.
  intros H. unfold computeAndUpdateLevel in H.
  destruct (attempts (tables db)) as [rows|] eqn:Hrows.
  2: { unfold getTotals in H.
       rewrite (bind_err _ _ _ _ _ (bind_err _ _ _ _ _ (from_none _ _ _ Hrows))) in H.
       done. }
  rewrite (bind_ok _ _ _ _ _ (getTotals_run _ _ _ Hrows)) in H.
  destruct (levels (tables db)) as [lvs|] eqn:Hlvs.
  2: { by rewrite (bind_err _ _ _ _ _ (from_none _ _ _ Hlvs)) in H. }
  rewrite (bind_ok _ _ _ _ _ (from_some _ _ _ _ Hlvs)) in H.
  cbn [t_n t_acc] in H. fold (level_for userId rows lvs) in H.
  unfold bind at 1 in H.
  destruct (upsert_user_level now userId (level_for userId rows lvs) db)
    as [[[]|e] db1] eqn:Hup; [|done].
  unfold ret in H. injection H as <- <-.
  destruct (upsert_user_level_inv _ _ _ _ _ Hup) as (uls & Huls & ->).
  by exists rows, lvs, uls.
Qed.

Lemma getCurrentLevel_stored userId l now uls db :
  getCurrentLevel userId (with_user_level userId l now uls db)
  = (Ok l, with_user_level userId l now uls db).
Proof.
  unfold getCurrentLevel. erewrite bind_ok; [|by apply from_some].
  unfold ret. by rewrite lookup_insert_eq.
Qed.

(** C4: two calls of [computeAndUpdateLevel] on databases that hold the same
    [attempts] and [levels] return the same level and store that level,
    whatever [user_levels] (and the clock) are: every two calls that return
    agree, and the calls do return for a user registered in [users] and a
    thresholds table containing level 1.  The level is not kept from falling:
    ["u1"] is at level 2 after 50 attempts at accuracy 0.7 and at level 1
    after five more wrong attempts. *)
Theorem level_independent_of_stored_level :
  (∀ (now1 now2 : Z) (userId : string) (db1 db2 : DB),
     attempts (tables db1) = attempts (tables db2) →
     levels (tables db1) = levels (tables db2) →
     (∀ l1 l2 db1' db2',
        computeAndUpdateLevel now1 userId db1 = (Ok l1, db1') →
        computeAndUpdateLevel now2 userId db2 = (Ok l2, db2') →
        l1 = l2
        ∧ getCurrentLevel userId db1' = (Ok l1, db1')
        ∧ getCurrentLevel userId db2' = (Ok l1, db2'))
     ∧ (∀ lvs uls1 uls2,
          is_Some (attempts (tables db1)) →
          levels (tables db1) = Some lvs →
          user_levels (tables db1) = Some uls1 →
          user_levels (tables db2) = Some uls2 →
          foreign_keys db1 = false ∨ (registered db1 userId ∧ 1 ∈ (lv_level <$> lvs)) →
          foreign_keys db2 = false ∨ (registered db2 userId ∧ 1 ∈ (lv_level <$> lvs)) →
          ∃ l, computeAndUpdateLevel now1 userId db1
               = (Ok l, with_user_level userId l now1 uls1 db1)
               ∧ computeAndUpdateLevel now2 userId db2
                 = (Ok l, with_user_level userId l now2 uls2 db2)))
  ∧ (fst (computeAndUpdateLevel (t0 + 60000) "u1" fifty) = Ok 2
     ∧ fst (getCurrentLevel "u1" fifty_promoted) = Ok 2
     ∧ fst (computeAndUpdateLevel (t0 + 90000) "u1" fifty_five) = Ok 1
     ∧ fst (getCurrentLevel "u1"
              (snd (computeAndUpdateLevel (t0 + 90000) "u1" fifty_five))) = Ok 1).
Proof.
  split.
  - intros now1 now2 userId db1 db2 Hatt Hlev. split.
    + intros l1 l2 db1' db2' H1 H2.
      destruct (computeAndUpdateLevel_inv _ _ _ _ _ H1)
        as (rows1 & lvs1 & uls1 & Ha1 & Hl1 & _ & -> & ->).
      destruct (computeAndUpdateLevel_inv _ _ _ _ _ H2)
        as (rows2 & lvs2 & uls2 & Ha2 & Hl2 & _ & -> & ->).
      rewrite Ha1, Ha2 in Hatt. rewrite Hl1, Hl2 in Hlev.
      injection Hatt as <-. injection Hlev as <-.
      split; [done|]. split; apply getCurrentLevel_stored.
    + intros lvs uls1 uls2 [rows Hrows] Hlvs Huls1 Huls2 Hfk1 Hfk2.
      exists (level_for userId rows lvs). split.
      * apply computeAndUpdateLevel_run; try done.
        destruct Hfk1 as [|[Hreg H1]]; [by left|right].
        split; [done|by apply level_for_in_table].
      * rewrite Hrows in Hatt. rewrite Hlvs in Hlev.
        apply computeAndUpdateLevel_run; try done.
        destruct Hfk2 as [|[Hreg H1]]; [by left|right].
        split; [done|by apply level_for_in_table].
  - split; [|split; [|split]]; vm_compute; reflexivity.
Qed.

(** The same 50 attempts with two different stored levels. *)
Lemma level_independent_of_stored_level_witness :
  ∃ l, computeAndUpdateLevel (t0 + 60000) "u1" fifty
       = (Ok l, with_user_level "u1" l (t0 + 60000) ∅ fifty)
       ∧ computeAndUpdateLevel (t0 + 60000) "u1"
           (with_user_level "u1" 5 t0 ∅ fifty)
         = (Ok l, with_user_level "u1" l (t0 + 60000)
                    (<["u1" := mkUserLevel 5 (Sqlite.strftime_iso t0)]> ∅)
                    (with_user_level "u1" 5 t0 ∅ fifty)).
Proof.
  destruct level_independent_of_stored_level as [H _].
  destruct (H (t0 + 60000) (t0 + 60000) "u1"%string fifty
              (with_user_level "u1" 5 t0 ∅ fifty)) as [_ Hboth].
  - vm_compute. reflexivity.
  - vm_compute. reflexivity.
  - apply (Hboth SEED_LEVELS).
    + eexists. vm_compute. reflexivity.
    + vm_compute. reflexivity.
    + vm_compute. reflexivity.
    + vm_compute. reflexivity.
    + right. split; [|left]. eexists. split; [vm_compute; reflexivity|]. left.
    + right. split; [|left]. eexists. split; [vm_compute; reflexivity|]. left.
Defined.

(** Without the registration C4 fails where foreign keys are enforced: for
    a user who is not in [users], whether the call returns depends on the
    stored level itself.  Right after [runMigrations()] the call for ["u1"]
    raises, the insert into [user_levels] being refused; on the same
    database with a row of ["u1"] in [user_levels], and nothing else
    changed, the statement is an update, only the level reference is
    checked, and the call returns 1.  The same difference shows between two
    databases the application reaches: the one right after
    [runMigrations()], and the one after ["u1"] was registered and promoted
    once; both hold no attempts and the seeded thresholds. *)
Lemma level_depends_on_stored_row_unregistered :
  (attempts (tables (with_user_level "u1" 3 t0 ∅ migrated))
   = attempts (tables migrated)
   ∧ levels (tables (with_user_level "u1" 3 t0 ∅ migrated))
     = levels (tables migrated)
   ∧ users (tables (with_user_level "u1" 3 t0 ∅ migrated))
     = users (tables migrated)
   ∧ user_levels (tables migrated) = Some ∅
   ∧ user_levels (tables (with_user_level "u1" 3 t0 ∅ migrated))
     = Some (<["u1"%string := mkUserLevel 3 (Sqlite.strftime_iso t0)]> ∅)
   ∧ computeAndUpdateLevel (t0 + 1000) "u1" migrated
     = (Err ForeignKeyFailed, migrated)
   ∧ fst (computeAndUpdateLevel (t0 + 1000) "u1"
            (with_user_level "u1" 3 t0 ∅ migrated)) = Ok 1)
  ∧ (attempts (tables (snd (computeAndUpdateLevel t0 "u1" with_user)))
     = attempts (tables migrated)
     ∧ levels (tables (snd (computeAndUpdateLevel t0 "u1" with_user)))
       = levels (tables migrated)
     ∧ user_levels (tables (snd (computeAndUpdateLevel t0 "u1" with_user)))
       = Some (<["u1"%string := mkUserLevel 1 (Sqlite.strftime_iso t0)]> ∅)
     ∧ fst (computeAndUpdateLevel (t0 + 1000) "u1"
              (snd (computeAndUpdateLevel t0 "u1" with_user))) = Ok 1).
Proof.
  split.
  - split; [|split; [|split; [|split; [|split; [|split]]]]];
      vm_compute; reflexivity.
  - split; [|split; [|split]]; vm_compute; reflexivity.
Qed.

(** ** Migrations *)

Lemma pragma_on_idem db : pragma_on (pragma_on db) = pragma_on db.
Proof. destruct db as [fk t [s|]]; reflexivity. Qed.

(** On a database at the latest version no migration is pending: the run
    only (re)issues the pragma. *)
Lemma runMigrations_at_latest db v :
  version db = Some v → latest ≤ v →
  runMigrations db = (Ok tt, pragma_on db).
Proof.
  unfold version, latest. intros Hv Hle.
  destruct db as [fk [m u l a lv ul ix] tx]. cbn in Hv.
  destruct m as [[|v' r]|]; try done. cbn in Hv. injection Hv as ->.
  unfold runMigrations, pragma_on.
  destruct tx as [s|]; cbn; by rewrite decide_False by lia.
Qed.

Lemma same_marker_refl db : same_marker db db.
Proof. done. Qed.

Lemma same_marker_trans db1 db2 db3 :
  same_marker db1 db2 → same_marker db2 db3 → same_marker db1 db3.
Proof. unfold same_marker. intros (-> & -> & ->) (-> & -> & ->). done. Qed.

Lemma keeps_ret {A} (a : A) : keeps_marker (ret a).
Proof. intros db. apply same_marker_refl. Qed.

Lemma keeps_throw {A} e : keeps_marker (@throw A e).
Proof. intros db. apply same_marker_refl. Qed.

Lemma keeps_bind {A B} (m : M A) (k : A → M B) :
  keeps_marker m → (∀ a, keeps_marker (k a)) → keeps_marker (bind m k).
Proof.
  intros Hm Hk db. unfold bind. specialize (Hm db).
  destruct (m db) as [[a|e] db']; cbn in *; [|done].
  eapply same_marker_trans; [exact Hm|apply Hk].
Qed.

Lemma keeps_from {R} name (sel : Tables → option R) : keeps_marker (from name sel).
Proof. intros db. rewrite from_read_only. apply same_marker_refl. Qed.

Lemma keeps_when b m : keeps_marker m → keeps_marker (when b m).
Proof. destruct b; [done|]. intros _. apply keeps_ret. Qed.

Lemma keeps_require P `{Decision P} e : keeps_marker (require P e).
Proof. unfold require. destruct (decide P); [apply keeps_ret|apply keeps_throw]. Qed.

Lemma keeps_modify (f : Tables → Tables) :
  (∀ t, _meta (f t) = _meta t) → keeps_marker (modify_tables f).
Proof. intros Hf db. unfold same_marker. cbn. by rewrite Hf. Qed.

Lemma keeps_forEach {A} (f : A → Z → M unit) xs i :
  (∀ x j, keeps_marker (f x j)) → keeps_marker (forEach f i xs).
Proof.
  intros Hf. revert i. induction xs as [|x xs IH]; intros i; cbn.
  - apply keeps_ret.
  - apply keeps_bind; [apply Hf|intros _; apply IH].
Qed.

Lemma keeps_post_1 : keeps_marker post_1.
Proof.
  unfold post_1.
  apply keeps_bind; [apply keeps_from|intros ls].
  apply keeps_bind.
  { apply keeps_when, keeps_forEach. intros ar j. unfold insert_letter.
    apply keeps_bind; [apply keeps_from|intros ls'].
    apply keeps_bind; [apply keeps_require|intros _].
    by apply keeps_modify. }
  intros _. apply keeps_bind; [apply keeps_from|intros rows].
  apply keeps_when. unfold insert_levels.
  apply keeps_bind; [apply keeps_from|intros lvs].
  apply keeps_bind; [apply keeps_require|intros _].
  by apply keeps_modify.
Qed.

Lemma sql_1_in_txn fk t s :
  ∃ t', sql_1 (mkDB fk t (Some s)) = (Ok tt, mkDB fk t' (Some s))
        ∧ _meta t' = Some [0].
Proof.
  destruct t as [m u l a lv ul ix].
  destruct m, u, l, a, lv, ul; cbn; eauto.
Qed.

Lemma update_meta_version_run v fk t tx rows :
  _meta t = Some rows →
  update_meta_version v (mkDB fk t tx)
  = (Ok tt, mkDB fk (set__meta (Some ((λ _, v) <$> rows)) t) tx).
Proof.
  intros Hm. unfold update_meta_version.
  by rewrite (bind_ok _ _ _ _ _ (from_some "_meta" _meta (mkDB fk t tx) rows Hm)).
Qed.

(** Applying migration 1: inside a transaction the run fails at [BEGIN];
    outside, a run that succeeds ends at version 1, with the pragma as it
    was and no transaction open. *)
Lemma run_pending_1 cur db db1 :
  cur < 1 →
  run_pending MIGRATIONS cur db = (Ok tt, db1) →
  txn db = None ∧ version db1 = Some 1
  ∧ foreign_keys db1 = foreign_keys db ∧ txn db1 = None.
Proof.
  intros Hcur. destruct db as [fk t tx].
  unfold MIGRATIONS, run_pending. cbn [id sql post].
  rewrite decide_True by done.
  destruct tx as [s|]; [done|].
  rewrite (bind_ok _ _ _ tt (mkDB fk t (Some t))) by reflexivity.
  destruct (sql_1_in_txn fk t t) as (t' & Hsql & Hmeta).
  unfold bind at 1, try_catch.
  rewrite (bind_ok _ _ _ _ _ Hsql).
  rewrite (bind_ok _ _ _ _ _ (update_meta_version_run 1 fk t' (Some t) [0] Hmeta)).
  rewrite (bind_ok _ _ _ tt (mkDB fk (set__meta (Some [1]) t') None)) by reflexivity.
  pose proof (keeps_post_1 (mkDB fk (set__meta (Some [1]) t') None)) as Hkeep.
  unfold bind at 1.
  destruct (post_1 _) as [[[]|e] dbP]; cbn in Hkeep.
  - cbn. intros [= <-]. destruct Hkeep as (Hm & Hf & Ht).
    unfold version. rewrite Hm. done.
  - unfold bind, ROLLBACK, throw. by destruct (txn dbP).
Qed.

Lemma runMigrations_prologue : runMigrations = prologue (run_pending MIGRATIONS).
Proof. reflexivity. Qed.

(** The loop starts from the stored version, or from a new marker 0. *)
Lemma prologue_run (loop : Z → M unit) db :
  prologue loop db
  = match version db with
    | Some v => loop v (pragma_on db)
    | None => loop 0 (with_meta [0] (pragma_on db))
    end.
Proof.
  destruct db as [fk [m u l a lv ul ix] tx].
  destruct m as [[|v r]|], tx; reflexivity.
Qed.

Lemma pragma_on_fixed db :
  txn db = None → foreign_keys db = true → pragma_on db = db.
Proof. destruct db as [fk t tx]. cbn. by intros -> ->. Qed.

Lemma runMigrations_reaches_latest db db1 :
  runMigrations db = (Ok tt, db1) →
  ∃ v, version db1 = Some v ∧ latest ≤ v ∧ pragma_on db1 = db1.
Proof.
  unfold latest. rewrite runMigrations_prologue, prologue_run. intros H.
  assert (Hpending : ∀ cur dbc,
            txn dbc = txn db → (txn db = None → foreign_keys dbc = true) →
            cur < 1 → run_pending MIGRATIONS cur dbc = (Ok tt, db1) →
            ∃ v, version db1 = Some v ∧ 1 ≤ v ∧ pragma_on db1 = db1).
  { intros cur dbc Htx Hfk Hcur Hrun.
    apply run_pending_1 in Hrun as (Hnone & Hv & Hf & Ht); [|done].
    exists 1. split; [done|]. split; [done|].
    apply pragma_on_fixed; [done|]. rewrite Hf. apply Hfk. by rewrite <- Htx. }
  destruct (version db) as [v|] eqn:Hv.
  - destruct (decide (v < 1)) as [Hlt|Hge].
    + apply (Hpending v (pragma_on db)); try done; by destruct db as [fk t [s|]].
    + assert (Hv' : version (pragma_on db) = Some v) by (by destruct db as [fk t [s|]]).
      pose proof (runMigrations_at_latest (pragma_on db) v Hv') as Hrun.
      rewrite runMigrations_prologue, prologue_run, Hv', pragma_on_idem in Hrun.
      rewrite Hrun in H by (unfold latest; lia). injection H as <-.
      exists v. split; [done|]. split; [lia|apply pragma_on_idem].
  - apply (Hpending 0 (with_meta [0] (pragma_on db))); try done;
      by destruct db as [fk t [s|]].
Qed.

(** The seed step inserts nothing into a table that already has rows. *)
Lemma post_1_guarded db ls lvs :
  letters (tables db) = Some ls → levels (tables db) = Some lvs →
  ls ≠ [] → lvs ≠ [] →
  post_1 db = (Ok tt, db).
Proof.
  intros Hls Hlvs Hne1 Hne2. unfold post_1.
  rewrite (bind_ok _ _ _ _ _ (from_some _ _ _ _ Hls)).
  destruct ls as [|x ls]; [done|]. cbn [when Sqlite.count length Z.of_nat Z.eqb].
  rewrite (bind_ok _ _ _ tt db) by reflexivity.
  rewrite (bind_ok _ _ _ _ _ (from_some _ _ _ _ Hlvs)).
  by destruct lvs.
Qed.

(** C6: [runMigrations] is idempotent.  A run on a database that is at the
    latest version applies no migration and leaves every table, index and
    row as it was (it only issues the pragma again); so after a run that
    succeeded, a second run succeeds and returns the very same database:
    no schema change, no further row in [letters] or [levels].  The seed
    step itself inserts nothing when the two tables already have rows. *)
Theorem runMigrations_idempotent :
  (∀ db db1, runMigrations db = (Ok tt, db1) → runMigrations db1 = (Ok tt, db1))
  ∧ (∀ db v, version db = Some v → latest ≤ v →
       runMigrations db = (Ok tt, pragma_on db)
       ∧ tables (pragma_on db) = tables db)
  ∧ (∀ db ls lvs,
       letters (tables db) = Some ls → levels (tables db) = Some lvs →
       ls ≠ [] → lvs ≠ [] → post_1 db = (Ok tt, db)).
Proof.
  split; [|split].
  - intros db db1 H.
    destruct (runMigrations_reaches_latest db db1 H) as (v & Hv & Hle & Hfix).
    by rewrite (runMigrations_at_latest db1 v Hv Hle), Hfix.
  - intros db v Hv Hle. split; [by apply runMigrations_at_latest with v|].
    by destruct db as [fk t [s|]].
  - apply post_1_guarded.
Qed.

(** The first run on a fresh database file succeeds, and the second run
    changes nothing: still 28 letters and 5 thresholds. *)
Lemma runMigrations_idempotent_witness :
  runMigrations fresh = (Ok tt, migrated)
  ∧ runMigrations migrated = (Ok tt, migrated)
  ∧ length <$> letters (tables migrated) = Some 28%nat
  ∧ length <$> levels (tables migrated) = Some 5%nat.
Proof.
  assert (H : runMigrations fresh = (Ok tt, migrated)) by (vm_compute; reflexivity).
  split; [exact H|]. split.
  - destruct runMigrations_idempotent as [Hidem _]. exact (Hidem fresh migrated H).
  - split; vm_compute; reflexivity.
Defined.

(** ** The trailing 7-day series *)

(** One bucket per day among the selected attempts, none twice. *)
Lemma group_by_day_days (acc : list AttemptRow → PrimFloat.float) sel :
  NoDup (d_day <$> group_by_day acc sel)
  ∧ ∀ d, d ∈ (d_day <$> group_by_day acc sel) ↔ ∃ a, a ∈ sel ∧ day_of a = d.
Proof.
  unfold group_by_day. rewrite <- list_fmap_compose.
  assert (E : (d_day ∘ (λ d, mkDayStat d
                              (Sqlite.count (filter (λ a, day_of a = d) sel))
                              (acc (filter (λ a, day_of a = d) sel))))
              <$> merge_sort Sqlite.text_le (remove_dups (day_of <$> sel))
              = merge_sort Sqlite.text_le (remove_dups (day_of <$> sel))).
  { rewrite <- (list_fmap_id (merge_sort _ _)) at 2. by apply list_fmap_ext. }
  rewrite E. split.
  - rewrite merge_sort_Permutation. apply NoDup_remove_dups.
  - intros d. rewrite merge_sort_Permutation, elem_of_remove_dups, list_elem_of_fmap.
    split; intros (a & H1 & H2); exists a; done.
Qed.

(** A bucket carries the number of selected attempts of its day and the
    aggregate of exactly those attempts. *)
Lemma group_by_day_bucket (acc : list AttemptRow → PrimFloat.float) sel b :
  b ∈ group_by_day acc sel →
  let g := filter (λ a, day_of a = d_day b) sel in
  d_n b = Z.of_nat (length g) ∧ d_acc b = acc g.
Proof.
  unfold group_by_day. intros Hb.
  apply list_elem_of_fmap in Hb as (d & -> & _). done.
Qed.

(** The letter filter keeps attempts of the table only, and only those whose
    target letter carries one of the given labels. *)
Lemma join_letters_subset names ls rows a :
  a ∈ join_letters names ls rows →
  a ∈ rows ∧ ∃ l, l ∈ ls ∧ l_id l = a_target_letter_id a ∧ l_ar l ∈ names.
Proof.
  unfold join_letters. intros Ha.
  apply list_elem_of_bind in Ha as (a' & Ha & Hrows).
  apply list_elem_of_bind in Ha as (l & Ha & Hl).
  apply list_elem_of_singleton in Ha as ->.
  apply list_elem_of_filter in Hl as [[Hid Har] Hl].
  split; [done|]. by exists l.
Qed.

(** C5 fails on the code: an attempt recorded at 2024-01-01T00:00:00.000Z
    is seven and a half days old at 2024-01-08T12:00:00.000Z, and both
    series still report it.  The stored timestamp has a [T] after the date
    and the cutoff [2024-01-01 12:00:00] a space, so on the cutoff's own day
    the comparison of the two texts is decided by [T] against the space and
    never looks at the time. *)
Theorem last7days_keeps_older_attempt :
  (a_created_at <$> rows_of once) = ["2024-01-01T00:00:00.000Z"%string]
  ∧ Sqlite.strftime_iso later = "2024-01-08T12:00:00.000Z"%string
  ∧ Sqlite.datetime_minus_7_days later = "2024-01-01 12:00:00"%string
  ∧ 7 * Sqlite.day_ms < later - t0
  ∧ Sqlite.text_ge "2024-01-01T00:00:00.000Z" "2024-01-01 12:00:00" = true
  ∧ fst (getLast7Days later "u1" once)
    = Ok [mkDayStat "2024-01-01" 1 (JS.fdiv 1 1)]
  ∧ fst (getLast7DaysForLetters later "u1" (JS.Val ["الف"%string]) once)
    = Ok [mkDayStat "2024-01-01" 1 (JS.fdiv 1 1)].
Proof.
  split; [|split; [|split; [|split; [|split; [|split]]]]];
    vm_compute; reflexivity.
Qed.

(** A day later the attempt is out of both series. *)
Example last7days_drops_after_the_cutoff_day :
  fst (getLast7Days (later + Sqlite.day_ms) "u1" once) = Ok []
  ∧ fst (getLast7DaysForLetters (later + Sqlite.day_ms) "u1"
           (JS.Val ["الف"%string]) once) = Ok [].
Proof. split; vm_compute; reflexivity. Qed.

(* ================================================================== *)
(** * Further properties *)

(** ** What a call of [recordAttempt] leaves behind *)

Lemma letterIdByAr_inv ar db i db' :
  letterIdByAr ar db = (Ok i, db') →
  db' = db ∧ ∃ ls l, letters (tables db) = Some ls ∧ l ∈ ls
                     ∧ l_ar l = ar ∧ i = l_id l.
Proof.
  unfold letterIdByAr, from, bind, get_tables, ret, throw. intros H.
  destruct (letters (tables db)) as [ls|] eqn:Hls; [|done].
  destruct (head (filter (λ l, l_ar l = ar) ls)) as [l|] eqn:Hh; [|done].
  injection H as <- <-. split; [done|]. exists ls, l. split; [done|].
  apply head_Some_elem_of in Hh. apply list_elem_of_filter in Hh as [Har Hl].
  done.
Qed.

(** A statement that raises leaves the database as it was. *)
Lemma letterIdByAr_err ar db e db' :
  letterIdByAr ar db = (Err e, db') → db' = db.
Proof.
  unfold letterIdByAr, from, bind, get_tables, ret, throw. intros H.
  destruct (letters (tables db)) as [ls|]; [|by injection H as _ <-].
  destruct (head _); [done|by injection H as _ <-].
Qed.

Lemma insert_attempt_inv now uid tid pid c conf dur uri db db' :
  insert_attempt now uid tid pid c conf dur uri db = (Ok tt, db') →
  ∃ rows, attempts (tables db) = Some rows
    ∧ db' = with_attempts
              (rows ++ [mkAttempt (next_rowid rows) uid tid pid c conf dur uri
                                  (Sqlite.strftime_iso now)]) db
    ∧ (foreign_keys db = true →
       ∃ us ls, users (tables db) = Some us ∧ letters (tables db) = Some ls
                ∧ uid ∈ (u_id <$> us) ∧ tid ∈ (l_id <$> ls)
                ∧ fk_nullable pid (l_id <$> ls)).
Proof.
  unfold insert_attempt, from, bind, get_tables, get_foreign_keys, when,
    require, ret, throw, modify_tables.
  intros H.
  destruct (attempts (tables db)) as [rows|]; [|done].
  exists rows. split; [done|].
  destruct (foreign_keys db).
  - destruct (users (tables db)) as [us|]; [|done].
    destruct (letters (tables db)) as [ls|]; [|done].
    destruct (decide _) as [(H1 & H2 & H3)|]; [|done].
    injection H as <-. split; [done|]. intros _. by exists us, ls.
  - injection H as <-. split; [done|]. done.
Qed.

Lemma insert_attempt_err now uid tid pid c conf dur uri db e db' :
  insert_attempt now uid tid pid c conf dur uri db = (Err e, db') → db' = db.
Proof.
  unfold insert_attempt, from, bind, get_tables, get_foreign_keys, when,
    require, ret, throw, modify_tables.
  intros H.
  destruct (attempts (tables db)); [|by injection H as _ <-].
  destruct (foreign_keys db); [|done].
  destruct (users (tables db)); [|by injection H as _ <-].
  destruct (letters (tables db)); [|by injection H as _ <-].
  destruct (decide _); [done|by injection H as _ <-].
Qed.

(** What a successful [recordAttempt] did. *)
Lemma recordAttempt_inv now a db db' :
  recordAttempt now a db = (Ok tt, db') →
  ∃ rows ls lt row,
    attempts (tables db) = Some rows ∧ letters (tables db) = Some ls
    ∧ lt ∈ ls ∧ l_ar lt = targetLetterAr a
    ∧ db' = with_attempts (rows ++ [row]) db
    ∧ a_user_id row = userId a ∧ a_target_letter_id row = l_id lt
    ∧ a_correct row = correct a
    ∧ a_created_at row = Sqlite.strftime_iso now
    ∧ fk_nullable (a_predicted_letter_id row) (l_id <$> ls)
    ∧ (foreign_keys db = true → registered db (userId a)).
Proof.
  unfold recordAttempt. intros H. unfold bind at 1 in H.
  destruct (letterIdByAr (targetLetterAr a) db) as [[tid|e] db1] eqn:Ht; [|done].
  destruct (letterIdByAr_inv _ _ _ _ Ht) as (-> & ls & lt & Hls & Hlt & Har & ->).
  unfold bind at 1 in H.
  assert (Hpred : ∃ pid, (match JS.truthy (predictedLetterAr a) with
                           | Some ar => id <- letterIdByAr ar;; ret (Some id)
                           | None => ret None
                           end) db = (Ok pid, db)
                          ∧ fk_nullable pid (l_id <$> ls)
                          ∧ ∀ r, (match JS.truthy (predictedLetterAr a) with
                           | Some ar => id <- letterIdByAr ar;; ret (Some id)
                           | None => ret None
                           end) db = r → r = (Ok pid, db)).
  { destruct (JS.truthy (predictedLetterAr a)) as [p|].
    - unfold bind in *.
      destruct (letterIdByAr p db) as [[i|e] db1] eqn:Hp; [|done].
      destruct (letterIdByAr_inv _ _ _ _ Hp) as (-> & ls' & lp & Hls' & Hlp & _ & ->).
      rewrite Hls in Hls'. injection Hls' as <-.
      exists (Some (l_id lp)). split; [done|]. split; [|by intros r <-].
      cbn. apply list_elem_of_fmap. by exists lp.
    - exists None. split; [done|]. split; [done|by intros r <-]. }
  destruct Hpred as (pid & Hrun & Hfk & _). rewrite Hrun in H.
  destruct (insert_attempt_inv _ _ _ _ _ _ _ _ _ _ H) as (rows & Hrows & -> & Hreg).
  exists rows, ls, lt. eexists. split; [done|]. split; [done|].
  split; [done|]. split; [done|]. split; [reflexivity|]. cbn.
  repeat (split; [done|]).
  intros Hon. destruct (Hreg Hon) as (us & _ & Hus & _ & Hin & _).
  by exists us.
Qed.

(** A call of [recordAttempt] that raises has written nothing. *)
Lemma recordAttempt_err now a db e db' :
  recordAttempt now a db = (Err e, db') → db' = db.
Proof.
  unfold recordAttempt. intros H. unfold bind at 1 in H.
  destruct (letterIdByAr (targetLetterAr a) db) as [[tid|e1] db1] eqn:Ht.
  - destruct (letterIdByAr_inv _ _ _ _ Ht) as (-> & _).
    unfold bind at 1 in H.
    destruct (JS.truthy (predictedLetterAr a)) as [p|].
    + unfold bind at 1 in H.
      destruct (letterIdByAr p db) as [[i|e2] db2] eqn:Hp.
      * destruct (letterIdByAr_inv _ _ _ _ Hp) as (-> & _).
        cbn in H. by apply insert_attempt_err in H.
      * injection H as _ <-. by apply letterIdByAr_err in Hp.
    + cbn in H. by apply insert_attempt_err in H.
  - injection H as _ <-. by apply letterIdByAr_err in Ht.
Qed.

(** Why a statement raises. *)
Lemma letterIdByAr_err_why ar db e db' :
  letterIdByAr ar db = (Err e, db') →
  (e = UnknownLetter ar
   ∧ ∀ ls, letters (tables db) = Some ls → ar ∉ (l_ar <$> ls))
  ∨ ∃ t, e = NoSuchTable t.
Proof.
  unfold letterIdByAr, from, bind, get_tables, ret, throw. intros H.
  destruct (letters (tables db)) as [ls|]; [|injection H as <- _; by eauto].
  destruct (head (filter (λ l, l_ar l = ar) ls)) as [row|] eqn:Hhead; [done|].
  injection H as <- _. left. split; [done|].
  intros ls' [= <-] Hin.
  apply list_elem_of_fmap in Hin as (l & Har & Hl).
  destruct (head_filter_some (λ l, l_ar l = ar) ls l Hl (eq_sym Har))
    as (y & Hy & _).
  by rewrite Hhead in Hy.
Qed.

Lemma insert_attempt_err_why now uid tid pid c conf dur uri db e db' :
  insert_attempt now uid tid pid c conf dur uri db = (Err e, db') →
  (∃ t, e = NoSuchTable t) ∨ (e = ForeignKeyFailed ∧ foreign_keys db = true).
Proof.
  unfold insert_attempt, from, bind, get_tables, get_foreign_keys, when,
    require, ret, throw, modify_tables.
  intros H.
  destruct (attempts (tables db)); [|injection H as <- _; by eauto].
  destruct (foreign_keys db); [|done].
  destruct (users (tables db)); [|injection H as <- _; by eauto].
  destruct (letters (tables db)); [|injection H as <- _; by eauto].
  destruct (decide _); [done|]. injection H as <- _. by right.
Qed.

(** X19: a call of [recordAttempt] that raises has written nothing: the
    database is the one before the call.  It raises for one of three
    reasons only: a label of the input that is not in [letters], a table
    that is missing, or, with foreign keys enforced, a reference that does
    not hold. *)
Theorem recordAttempt_raises_unchanged (now : Z) (a : NewAttempt) (db db' : DB)
    (e : error) :
  recordAttempt now a db = (Err e, db') →
  db' = db
  ∧ ((∃ ar, e = UnknownLetter ar ∧ ar ∈ labels a
            ∧ ∀ ls, letters (tables db) = Some ls → ar ∉ (l_ar <$> ls))
     ∨ (∃ t, e = NoSuchTable t)
     ∨ (e = ForeignKeyFailed ∧ foreign_keys db = true)).
Proof.
  intros H. split; [by apply recordAttempt_err in H|].
  revert H. unfold recordAttempt, labels. unfold bind at 1.
  destruct (letterIdByAr (targetLetterAr a) db) as [[tid|e1] db1] eqn:Ht.
  - destruct (letterIdByAr_inv _ _ _ _ Ht) as (-> & _).
    unfold bind at 1.
    destruct (JS.truthy (predictedLetterAr a)) as [p|].
    + unfold bind at 1.
      destruct (letterIdByAr p db) as [[i|e2] db2] eqn:Hp.
      * destruct (letterIdByAr_inv _ _ _ _ Hp) as (-> & _).
        intros H. cbn in H. apply insert_attempt_err_why in H. tauto.
      * intros [= <- _]. apply letterIdByAr_err_why in Hp as [[-> Hno]|Ht'].
        -- left. exists p. split; [done|]. split; [|done].
           cbn. right. left.
        -- by auto.
    + intros H. cbn in H. apply insert_attempt_err_why in H. tauto.
  - intros [= <- _]. apply letterIdByAr_err_why in Ht as [[-> Hno]|Ht'].
    + left. exists (targetLetterAr a). split; [done|]. split; [left|done].
    + by auto.
Qed.

Lemma attempts_of_app userId rows row :
  attempts_of userId (rows ++ [row])
  = attempts_of userId rows ++ (if decide (a_user_id row = userId) then [row] else []).
Proof.
  unfold attempts_of. rewrite filter_app.
  f_equal; rewrite filter_cons, filter_nil; by destruct (decide _).
Qed.

Lemma correct_ones_app g row :
  Z.of_nat (length (correct_ones (g ++ [row])))
  = Z.of_nat (length (correct_ones g)) + b2z (a_correct row).
Proof.
  unfold correct_ones. rewrite filter_app, length_app, filter_cons, filter_nil.
  destruct (decide (a_correct row = true)) as [E|E].
  - rewrite E. cbn. lia.
  - destruct (a_correct row); [done|]. cbn. lia.
Qed.

(** X1: after a call of [recordAttempt] that returns, the totals of the
    attempt's user show one more attempt, and one more correct attempt
    exactly when the attempt was flagged correct; the totals of every other
    user are what they were. *)
Theorem recordAttempt_then_getTotals (now : Z) (a : NewAttempt) (db db' : DB)
    (u : string) :
  recordAttempt now a db = (Ok tt, db') →
  ∃ t t', getTotals u db = (Ok t, db) ∧ getTotals u db' = (Ok t', db')
          ∧ t_n t' = t_n t + (if decide (u = userId a) then 1 else 0)
          ∧ t_correct t'
            = t_correct t + (if decide (u = userId a) then b2z (correct a) else 0).
Proof.
  intros H.
  destruct (recordAttempt_inv _ _ _ _ H)
    as (rows & ls & lt & row & Hrows & _ & _ & _ & -> & Huid & _ & Hc & _).
  eexists. eexists.
  split; [by apply getTotals_run|].
  split; [by apply (getTotals_run _ (with_attempts (rows ++ [row]) db))|].
  cbn [t_n t_correct]. unfold attempts_n, attempts_correct.
  rewrite attempts_of_app, Huid.
  destruct (decide (userId a = u)) as [->|Hne].
  - rewrite !decide_True by done. rewrite correct_ones_app, length_app, Hc.
    cbn [length]. split; lia.
  - rewrite !decide_False by done. rewrite app_nil_r. split; lia.
Qed.

Lemma getPerLetterStats_run userId db ls rows :
  letters (tables db) = Some ls →
  attempts (tables db) = Some rows →
  getPerLetterStats userId db
  = (Ok (stat_row userId rows <$> merge_sort by_order_index ls), db).
Proof.
  intros Hls Hrows. unfold getPerLetterStats.
  rewrite (bind_ok _ _ _ _ _ (from_some _ _ _ _ Hls)).
  by rewrite (bind_ok _ _ _ _ _ (from_some _ _ _ _ Hrows)).
Qed.

Lemma CANON_LETTERS_NoDup : NoDup CANON_LETTERS.
Proof. apply (bool_decide_unpack _). vm_compute. reflexivity. Qed.

(** In the seeded catalog a label belongs to one row only. *)
Lemma seeded_letters_label l1 l2 :
  l1 ∈ seeded_letters → l2 ∈ seeded_letters → l_ar l1 = l_ar l2 → l1 = l2.
Proof.
  intros H1 H2 Har.
  apply list_elem_of_lookup in H1 as [i Hi], H2 as [j Hj].
  destruct (seeded_letters_lookup i l1 Hi) as (_ & _ & Hi').
  destruct (seeded_letters_lookup j l2 Hj) as (_ & _ & Hj').
  rewrite Har in Hi'.
  assert (i = j) as -> by (eapply NoDup_lookup; [apply CANON_LETTERS_NoDup|done..]).
  congruence.
Qed.

Lemma joined_app userId l rows row :
  joined userId l (rows ++ [row])
  = joined userId l rows
    ++ (if decide (a_target_letter_id row = l_id l ∧ a_user_id row = userId)
        then [row] else []).
Proof.
  unfold joined. rewrite filter_app.
  f_equal; rewrite filter_cons, filter_nil; by destruct (decide _).
Qed.

Lemma pl_n_stat_row u rows l :
  pl_n (stat_row u rows l) = Z.of_nat (length (joined u l rows)).
Proof. reflexivity. Qed.

Lemma pl_correct_stat_row u rows l :
  pl_correct (stat_row u rows l)
  = Z.of_nat (length (correct_ones (joined u l rows))).
Proof. apply sum_correct_count. Qed.

(** X2: on the seeded catalog, after a call of [recordAttempt] that
    returns, the per-letter statistics of the attempt's user differ in the
    row of the target letter only: one more attempt there, and one more
    correct attempt exactly when the attempt was flagged correct.  The
    statistics of every other user are what they were. *)
Theorem recordAttempt_then_getPerLetterStats (now : Z) (a : NewAttempt)
    (db db' : DB) (u : string) :
  letters (tables db) = Some seeded_letters →
  recordAttempt now a db = (Ok tt, db') →
  ∃ out out',
    getPerLetterStats u db = (Ok out, db)
    ∧ getPerLetterStats u db' = (Ok out', db')
    ∧ length out' = length out
    ∧ ∀ i r r', out !! i = Some r → out' !! i = Some r' →
        pl_ar r' = pl_ar r
        ∧ pl_n r' = pl_n r + (if decide (counts_in u a r) then 1 else 0)
        ∧ pl_correct r'
          = pl_correct r
            + (if decide (counts_in u a r) then b2z (correct a) else 0).
Proof.
  intros Hls H.
  destruct (recordAttempt_inv _ _ _ _ H)
    as (rows & ls & lt & row & Hrows & Hls' & Hlt & Har & -> & Huid & Htid & Hc & _).
  rewrite Hls in Hls'. injection Hls' as <-.
  eexists. eexists.
  split; [by apply getPerLetterStats_run|].
  split; [by apply (getPerLetterStats_run _ (with_attempts (rows ++ [row]) db))|].
  split; [by rewrite !length_fmap|].
  intros i r r'. rewrite !list_lookup_fmap.
  destruct (merge_sort by_order_index seeded_letters !! i) as [l|] eqn:El; [|done].
  intros [= <-] [= <-]. split; [done|].
  rewrite !pl_n_stat_row, !pl_correct_stat_row, joined_app, Htid, Huid.
  assert (Hl : l ∈ seeded_letters).
  { rewrite <- (merge_sort_Permutation by_order_index).
    by eapply list_elem_of_lookup_2. }
  destruct (decide (counts_in u a (stat_row u rows l))) as [[Hu Hlab]|Hno].
  - cbn in Hlab. assert (lt = l) as ->.
    { apply seeded_letters_label; [done..|congruence]. }
    rewrite decide_True by done.
    rewrite correct_ones_app, length_app, Hc. cbn [length]. split; lia.
  - rewrite decide_False; [rewrite app_nil_r; split; lia|].
    intros [Hid Hu]. apply Hno. split; [done|]. cbn.
    apply list_elem_of_lookup in Hlt as [j Hj], Hl as [k Hk].
    destruct (seeded_letters_lookup j lt Hj) as (Hj' & _).
    destruct (seeded_letters_lookup k l Hk) as (Hk' & _).
    assert (j = k) as -> by lia. congruence.
Qed.

(** ** The references of the schema as an invariant *)

(** X3: with foreign keys enforced, [recordAttempt] keeps the references of
    the schema: if every attempt refers to an existing user and existing
    letters (and every stored level to an existing user and threshold)
    before the call, the same holds after it, whether the call returned or
    raised. *)
Theorem recordAttempt_keeps_references (now : Z) (a : NewAttempt) (db : DB) :
  foreign_keys db = true →
  references_hold db →
  references_hold (snd (recordAttempt now a db)).
Proof.
  intros Hfk Hinv.
  destruct (recordAttempt now a db) as [[[]|e] db'] eqn:H; cbn.
  - destruct (recordAttempt_inv _ _ _ _ H)
      as (rows & ls & lt & row & Hrows & Hls & Hlt & _ & -> & Huid & Htid & _ & _
          & Hpid & Hreg).
    destruct (Hreg Hfk) as (us & Hus & Hin).
    destruct Hinv as (rows' & us' & ls' & lvs & uls & Hrows' & Hus' & Hls' & Hlvs
                      & Huls & Hatt & Hul).
    rewrite Hrows in Hrows'. rewrite Hus in Hus'. rewrite Hls in Hls'.
    injection Hrows' as <-. injection Hus' as <-. injection Hls' as <-.
    exists (rows ++ [row]), us, ls, lvs, uls.
    repeat (split; [done|]). split; [|done].
    intros x Hx. apply elem_of_app in Hx as [Hx|Hx]; [by apply Hatt|].
    apply list_elem_of_singleton in Hx as ->.
    rewrite Huid, Htid. split; [done|]. split; [|done].
    apply list_elem_of_fmap. by exists lt.
  - by rewrite (recordAttempt_err _ _ _ _ _ H).
Qed.

Lemma upsert_user_level_inv_fk now userId lvl db db' :
  upsert_user_level now userId lvl db = (Ok tt, db') →
  foreign_keys db = true →
  ∃ uls lvs, user_levels (tables db) = Some uls ∧ levels (tables db) = Some lvs
    ∧ lvl ∈ (lv_level <$> lvs)
    ∧ (uls !! userId = None → registered db userId).
Proof.
  unfold upsert_user_level, from, bind, get_tables, get_foreign_keys, when,
    require, ret, throw, modify_tables.
  intros H Hfk.
  destruct (user_levels (tables db)) as [uls|]; [|done].
  rewrite Hfk in H.
  destruct (levels (tables db)) as [lvs|]; [|done].
  exists uls, lvs. split; [done|]. split; [done|].
  destruct (uls !! userId).
  - destruct (decide _); [done|done].
  - destruct (users (tables db)) as [us|] eqn:Hus; [|done].
    destruct (decide _) as [[H1 H2]|]; [|done].
    split; [done|]. intros _. by exists us.
Qed.

Lemma upsert_user_level_err now userId lvl db e db' :
  upsert_user_level now userId lvl db = (Err e, db') → db' = db.
Proof.
  unfold upsert_user_level, from, bind, get_tables, get_foreign_keys, when,
    require, ret, throw, modify_tables.
  intros H.
  destruct (user_levels (tables db)) as [uls|]; [|by injection H as _ <-].
  destruct (foreign_keys db); [|done].
  destruct (levels (tables db)); [|by injection H as _ <-].
  destruct (uls !! userId).
  - destruct (decide _); [done|by injection H as _ <-].
  - destruct (users (tables db)); [|by injection H as _ <-].
    destruct (decide _); [done|by injection H as _ <-].
Qed.

Lemma computeAndUpdateLevel_err now userId db e db' :
  computeAndUpdateLevel now userId db = (Err e, db') → db' = db.
Proof.
  intros H. unfold computeAndUpdateLevel in H.
  destruct (attempts (tables db)) as [rows|] eqn:Hrows.
  2: { unfold getTotals in H.
       rewrite (bind_err _ _ _ _ _ (bind_err _ _ _ _ _ (from_none _ _ _ Hrows))) in H.
       by injection H as _ <-. }
  rewrite (bind_ok _ _ _ _ _ (getTotals_run _ _ _ Hrows)) in H.
  destruct (levels (tables db)) as [lvs|] eqn:Hlvs.
  2: { rewrite (bind_err _ _ _ _ _ (from_none _ _ _ Hlvs)) in H.
       by injection H as _ <-. }
  rewrite (bind_ok _ _ _ _ _ (from_some _ _ _ _ Hlvs)) in H.
  unfold bind at 1 in H.
  destruct (upsert_user_level _ _ _ db) as [[[]|e1] db1] eqn:Hup; [done|].
  injection H as _ <-. by apply upsert_user_level_err in Hup.
Qed.

(** X4: with foreign keys enforced, [computeAndUpdateLevel] keeps the
    references of the schema too: the level it stores is a level of the
    thresholds table and belongs to a user that exists; a call that raises
    has written nothing. *)
Theorem computeAndUpdateLevel_keeps_references (now : Z) (userId : string)
    (db : DB) :
  foreign_keys db = true →
  references_hold db →
  references_hold (snd (computeAndUpdateLevel now userId db))
  ∧ ∀ e db', computeAndUpdateLevel now userId db = (Err e, db') → db' = db.
Proof.
  intros Hfk Hinv. split; [|intros e db'; apply computeAndUpdateLevel_err].
  destruct (computeAndUpdateLevel now userId db) as [[l|e] db'] eqn:H; cbn.
  - destruct (computeAndUpdateLevel_inv _ _ _ _ _ H)
      as (rows & lvs & uls & Hrows & Hlvs & Huls & Hl & ->).
    destruct Hinv as (rows' & us & ls & lvs' & uls' & Hrows' & Hus & Hls & Hlvs'
                      & Huls' & Hatt & Hul).
    rewrite Hrows in Hrows'. rewrite Hlvs in Hlvs'. rewrite Huls in Huls'.
    injection Hrows' as <-. injection Hlvs' as <-. injection Huls' as <-.
    assert (Hup : upsert_user_level now userId l db
                  = (Ok tt, with_user_level userId l now uls db)).
    { unfold computeAndUpdateLevel in H.
      rewrite (bind_ok _ _ _ _ _ (getTotals_run _ _ _ Hrows)) in H.
      rewrite (bind_ok _ _ _ _ _ (from_some _ _ _ _ Hlvs)) in H.
      cbn [t_n t_acc] in H. fold (level_for userId rows lvs) in H.
      rewrite <- Hl in H. unfold bind at 1 in H.
      destruct (upsert_user_level now userId l db) as [[[]|e] db1] eqn:Hup; [|done].
      by injection H as <-. }
    destruct (upsert_user_level_inv_fk _ _ _ _ _ Hup Hfk)
      as (uls' & lvs' & Huls' & Hlvs' & Hin & Hnew).
    rewrite Huls in Huls'. rewrite Hlvs in Hlvs'.
    injection Huls' as <-. injection Hlvs' as <-.
    exists rows, us, ls, lvs,
      (<[userId := mkUserLevel l (Sqlite.strftime_iso now)]> uls).
    split_and!; try done.
    intros u r. destruct (decide (u = userId)) as [->|Hne].
    + rewrite lookup_insert_eq. intros [= <-]. cbn. split; [|done].
      destruct (uls !! userId) as [r0|] eqn:Er.
      * by destruct (Hul _ _ Er).
      * destruct (Hnew eq_refl) as (us' & Hus' & Hu).
        rewrite Hus in Hus'. by injection Hus' as <-.
    + rewrite lookup_insert_ne by done. apply Hul.
  - by rewrite (computeAndUpdateLevel_err _ _ _ _ _ H).
Qed.

(** ** The stored level *)

(** X5: [getCurrentLevel] answers 1 for a user without a row in
    [user_levels]; and a promotion of one user changes the stored level of no
    other user. *)
Theorem getCurrentLevel_frame (now : Z) (u v : string) (db db' : DB) (l : Z) :
  (∀ uls, user_levels (tables db) = Some uls → uls !! v = None →
          getCurrentLevel v db = (Ok 1, db))
  ∧ (computeAndUpdateLevel now u db = (Ok l, db') → v ≠ u →
     getCurrentLevel u db' = (Ok l, db')
     ∧ fst (getCurrentLevel v db') = fst (getCurrentLevel v db)).
Proof.
  split.
  - intros uls Huls Hv. unfold getCurrentLevel.
    rewrite (bind_ok _ _ _ _ _ (from_some _ _ _ _ Huls)). by rewrite Hv.
  - intros H Hne.
    destruct (computeAndUpdateLevel_inv _ _ _ _ _ H)
      as (rows & lvs & uls & _ & _ & Huls & _ & ->).
    split; [apply getCurrentLevel_stored|].
    unfold getCurrentLevel.
    rewrite (bind_ok _ _ _ _ _ (from_some _ _ _ _ Huls)).
    erewrite bind_ok; [|by apply from_some].
    cbn. by rewrite lookup_insert_ne.
Qed.

(** ** Counting through groups *)

Lemma sum_indicator {K} `{EqDecision K} (x : K) (ks : list K) :
  NoDup ks → x ∈ ks →
  sum_list ((λ k, if decide (x = k) then 1%nat else 0%nat) <$> ks) = 1%nat.
Proof.
  induction 1 as [|k ks Hk Hnd IH]; intros Hx; [by apply elem_of_nil in Hx|].
  cbn. destruct (decide (x = k)) as [->|Hne].
  - rewrite sum_list_fmap_same with (n := 0%nat); [lia|].
    apply Forall_forall. intros y Hy. rewrite decide_False; [done|].
    by intros <-.
  - apply elem_of_cons in Hx as [?|Hx]; [done|]. by rewrite IH.
Qed.

Lemma sum_list_plus {K} (g h : K → nat) (ks : list K) :
  sum_list ((λ k, g k + h k)%nat <$> ks)
  = (sum_list (g <$> ks) + sum_list (h <$> ks))%nat.
Proof. induction ks as [|k ks IH]; cbn; [done|]. rewrite IH. lia. Qed.

(** Grouping by a key loses and repeats nothing: the sizes of the groups of
    the keys [ks], which are distinct and cover the list, add up to the size
    of the list. *)
Lemma group_sizes {A K} `{EqDecision K} (f : A → K) (ks : list K) (l : list A) :
  NoDup ks → (∀ a, a ∈ l → f a ∈ ks) →
  sum_list ((λ k, length (filter (λ a, f a = k) l)) <$> ks) = length l.
Proof.
  intros Hnd. induction l as [|a l IH]; intros Hcov.
  - rewrite sum_list_fmap_same with (n := 0%nat); [cbn; lia|].
    by apply Forall_forall.
  - assert (E : (λ k, length (filter (λ a0, f a0 = k) (a :: l))) <$> ks
               = (λ k, (if decide (f a = k) then 1 else 0)
                       + length (filter (λ a0, f a0 = k) l))%nat <$> ks).
    { apply list_fmap_ext. intros i k _. rewrite filter_cons.
      by destruct (decide (f a = k)). }
    rewrite E.
    rewrite sum_list_plus, (sum_indicator (f a) ks Hnd), IH; [done| |].
    + intros b Hb. apply Hcov. by right.
    + apply Hcov. left.
Qed.

Lemma foldr_add_of_nat (ns : list nat) :
  foldr Z.add 0 (Z.of_nat <$> ns) = Z.of_nat (sum_list ns).
Proof. induction ns as [|n ns IH]; cbn; [done|]. rewrite IH. lia. Qed.

#[local] Instance text_le_total : Total Sqlite.text_le.
Proof. intros a b. apply String.leb_total. Qed.

Lemma group_by_day_keys (acc : list AttemptRow → PrimFloat.float) sel :
  d_day <$> group_by_day acc sel
  = merge_sort Sqlite.text_le (remove_dups (day_of <$> sel)).
Proof.
  unfold group_by_day. rewrite <- list_fmap_compose.
  rewrite <- (list_fmap_id (merge_sort _ _)) at 2. by apply list_fmap_ext.
Qed.

(** The buckets of a series hold every selected attempt once. *)
Lemma group_by_day_total (acc : list AttemptRow → PrimFloat.float) sel :
  series_total (group_by_day acc sel) = Z.of_nat (length sel).
Proof.
  unfold series_total, group_by_day. rewrite <- list_fmap_compose.
  rewrite <- (group_sizes day_of
                (merge_sort Sqlite.text_le (remove_dups (day_of <$> sel))) sel).
  - rewrite <- foldr_add_of_nat, <- list_fmap_compose. done.
  - rewrite merge_sort_Permutation. apply NoDup_remove_dups.
  - intros a Ha. rewrite merge_sort_Permutation, elem_of_remove_dups.
    apply list_elem_of_fmap. by exists a.
Qed.

(** X6: [getLast7Days] returns one bucket per day on which the user has a
    selected attempt, the days ascending and distinct, no bucket empty, and
    the counts of the buckets add up to the number of the attempts the
    query selects: the user's attempts that pass the date comparison, and
    no attempt of another user. *)
Theorem getLast7Days_partition (now : Z) (userId : string) (db : DB)
    (rows : list AttemptRow) :
  attempts (tables db) = Some rows →
  ∃ out, getLast7Days now userId db = (Ok out, db)
    ∧ series_total out = Z.of_nat (length (selected now userId rows))
    ∧ NoDup (d_day <$> out)
    ∧ Sorted Sqlite.text_le (d_day <$> out)
    ∧ ∀ b, b ∈ out →
        1 ≤ d_n b
        ∧ d_n b = Z.of_nat (length (filter (λ a, day_of a = d_day b)
                                      (selected now userId rows)))
        ∧ ∃ a, a ∈ rows ∧ a_user_id a = userId ∧ day_of a = d_day b.
Proof.
  intros Hrows. unfold getLast7Days.
  rewrite (bind_ok _ _ _ _ _ (from_some _ _ _ _ Hrows)).
  fold (selected now userId rows). eexists. split; [reflexivity|].
  split; [apply group_by_day_total|]. split; [apply group_by_day_days|].
  split.
  - rewrite group_by_day_keys. apply Sorted_merge_sort, _.
  - intros b Hb.
    destruct (group_by_day_bucket _ _ _ Hb) as [Hn _].
    assert (Hd : d_day b ∈ (d_day <$> group_by_day ratio_correct
                                       (selected now userId rows)))
      by (apply list_elem_of_fmap; by exists b).
    apply group_by_day_days in Hd as (a & Ha & Hday).
    split; [|split; [done|]].
    + rewrite Hn.
      assert (a ∈ filter (λ a, day_of a = d_day b) (selected now userId rows))
        as Hin by (by apply list_elem_of_filter).
      destruct (filter _ _); [by apply elem_of_nil in Hin|]. cbn. lia.
    + apply list_elem_of_filter in Ha as [[Hu _] Ha]. by exists a.
Qed.

Lemma filter_none {A} (P : A → Prop) `{∀ x, Decision (P x)} (xs : list A) :
  (∀ x, x ∈ xs → ¬ P x) → filter P xs = [].
Proof.
  induction xs as [|x xs IH]; intros Hno; [done|].
  rewrite filter_cons, decide_False by (apply Hno; left).
  apply IH. intros y Hy. apply Hno. by right.
Qed.

(** With distinct identifiers, a key selects at most one row. *)
Lemma filter_by_key (Q : LetterRow → Prop) `{∀ l, Decision (Q l)}
    (ls : list LetterRow) (t : Z) :
  NoDup (l_id <$> ls) →
  filter (λ l, l_id l = t ∧ Q l) ls = []
  ∨ ∃ l, filter (λ l, l_id l = t ∧ Q l) ls = [l].
Proof.
  induction ls as [|l ls IH]; intros Hnd; [by left|].
  rewrite fmap_cons in Hnd. apply NoDup_cons in Hnd as [Hl Hnd].
  rewrite filter_cons. destruct (decide (l_id l = t ∧ Q l)) as [[Hid HQ]|Hno].
  - right. exists l. f_equal. apply filter_none.
    intros y Hy [Hy' _]. apply Hl. apply list_elem_of_fmap. exists y.
    split; [congruence|done].
  - by apply IH.
Qed.

(** The join with [letters] keeps an attempt once when its target letter
    carries one of the labels, and drops it otherwise. *)
Lemma join_letters_filter names ls sel :
  NoDup (l_id <$> ls) →
  join_letters names ls sel = filter (targets_named names ls) sel.
Proof.
  intros Hnd. unfold join_letters.
  induction sel as [|a sel IH]; [done|].
  cbn [mbind list_bind]. change (mbind ?f sel) with (sel ≫= f) in *.
  rewrite filter_cons.
  destruct (filter_by_key (λ l, l_ar l ∈ names) ls (a_target_letter_id a) Hnd)
    as [E|[l E]].
  - rewrite decide_False.
    + unfold mbind in IH |- *. cbn. rewrite E. cbn. exact IH.
    + unfold targets_named. rewrite Exists_exists. intros (l & Hl & HP).
      assert (l ∈ filter (λ l, l_id l = a_target_letter_id a ∧ l_ar l ∈ names) ls)
        as Hin by (by apply list_elem_of_filter).
      rewrite E in Hin. by apply elem_of_nil in Hin.
  - rewrite decide_True.
    + unfold mbind in IH |- *. cbn. rewrite E. cbn. by rewrite IH.
    + unfold targets_named. rewrite Exists_exists. exists l.
      assert (l ∈ filter (λ l, l_id l = a_target_letter_id a ∧ l_ar l ∈ names) ls)
        as Hin by (rewrite E; left).
      apply list_elem_of_filter in Hin as [HP Hl]. done.
Qed.

Lemma group_by_day_day_count (acc1 acc2 : list AttemptRow → PrimFloat.float) sel :
  day_count <$> group_by_day acc1 sel = day_count <$> group_by_day acc2 sel.
Proof. unfold group_by_day. by rewrite <- !list_fmap_compose. Qed.

(** X7: with distinct letter identifiers, [getLast7DaysForLetters] with a
    non-empty list of labels counts exactly the selected attempts of the
    user whose target letter carries one of the labels, each once (a label
    given twice does not count an attempt twice).  When every selected
    attempt targets such a letter, as with the labels of the whole catalog,
    the series has the days and counts of [getLast7Days]. *)
Theorem getLast7DaysForLetters_counts (now : Z) (userId : string) (db : DB)
    (rows : list AttemptRow) (ls : list LetterRow) (names : list string) :
  attempts (tables db) = Some rows →
  letters (tables db) = Some ls →
  NoDup (l_id <$> ls) →
  names ≠ [] →
  ∃ out, getLast7DaysForLetters now userId (JS.Val names) db = (Ok out, db)
    ∧ series_total out
      = Z.of_nat (length (filter (targets_named names ls)
                                 (selected now userId rows)))
    ∧ NoDup (d_day <$> out)
    ∧ ((∀ a, a ∈ selected now userId rows → targets_named names ls a) →
       ∃ out7, getLast7Days now userId db = (Ok out7, db)
               ∧ day_count <$> out = day_count <$> out7).
Proof.
  intros Hrows Hls Hnd Hne. unfold getLast7DaysForLetters.
  destruct names as [|nm names]; [done|].
  rewrite (bind_ok _ _ _ _ _ (from_some _ _ _ _ Hrows)).
  rewrite (bind_ok _ _ _ _ _ (from_some _ _ _ _ Hls)).
  fold (selected now userId rows). rewrite (join_letters_filter _ _ _ Hnd).
  eexists. split; [reflexivity|].
  split; [apply group_by_day_total|]. split; [apply group_by_day_days|].
  intros Hall. unfold getLast7Days.
  rewrite (bind_ok _ _ _ _ _ (from_some _ _ _ _ Hrows)).
  fold (selected now userId rows). eexists. split; [reflexivity|].
  assert (E : filter (targets_named (nm :: names) ls) (selected now userId rows)
              = selected now userId rows).
  { generalize Hall. generalize (selected now userId rows).
    induction l as [|a l IH]; intros Hl; [done|].
    rewrite filter_cons, decide_True by (apply Hl; left).
    f_equal. apply IH. intros b Hb. apply Hl. by right. }
  rewrite E. apply group_by_day_day_count.
Qed.

(** ** Recent attempts *)

Lemma Sorted_take_prefix {A} (R : relation A) (l : list A) (n : nat) :
  Sorted R l → Sorted R (take n l).
Proof.
  intros Hs. revert n. induction Hs as [|x l Hs IH Hx]; intros [|n]; cbn;
    try constructor.
  - apply IH.
  - destruct Hx as [|y l' Hxy]; destruct n; cbn; constructor. done.
Qed.

Lemma filter_by_id (ls : list LetterRow) (t : Z) :
  NoDup (l_id <$> ls) →
  filter (λ l, l_id l = t) ls = [] ∨ ∃ l, filter (λ l, l_id l = t) ls = [l].
Proof.
  induction ls as [|l ls IH]; intros Hnd; [by left|].
  rewrite fmap_cons in Hnd. apply NoDup_cons in Hnd as [Hl Hnd].
  rewrite filter_cons. destruct (decide (l_id l = t)) as [Hid|Hno].
  - right. exists l. f_equal. apply filter_none.
    intros y Hy Hy'. apply Hl. apply list_elem_of_fmap. exists y.
    split; [congruence|done].
  - by apply IH.
Qed.

Lemma predicted_labels_one ls pid :
  NoDup (l_id <$> ls) → ∃ p, predicted_labels ls pid = [p].
Proof.
  intros Hnd. unfold predicted_labels. destruct pid as [p|]; [|by exists None].
  destruct (filter_by_id ls p Hnd) as [->|[l ->]]; [by exists None|].
  by exists (Some (l_ar l)).
Qed.

Lemma bind_singletons {A B} (f : A → list B) (xs : list A) :
  (∀ a, a ∈ xs → length (f a) = 1%nat) → length (xs ≫= f) = length xs.
Proof.
  induction xs as [|x xs IH]; intros Hone; [done|].
  rewrite bind_cons, length_app, (Hone x) by left.
  rewrite IH; [done|]. intros a Ha. apply Hone. by right.
Qed.

(** With distinct letter identifiers and targets that exist, the joins keep
    each attempt of the user once. *)
Lemma recent_rows_length userId ls rows :
  NoDup (l_id <$> ls) →
  (∀ a, a ∈ rows → a_user_id a = userId → a_target_letter_id a ∈ (l_id <$> ls)) →
  length (recent_rows userId ls rows) = length (attempts_of userId rows).
Proof.
  intros Hnd Hex. unfold recent_rows, attempts_of.
  apply bind_singletons. intros a Ha.
  apply list_elem_of_filter in Ha as [Hu Ha].
  destruct (filter_by_id ls (a_target_letter_id a) Hnd) as [E|[l E]].
  - exfalso. assert (Hin := Hex a Ha Hu).
    apply list_elem_of_fmap in Hin as (l & Hl1 & Hl2).
    assert (l ∈ filter (λ l, l_id l = a_target_letter_id a) ls)
      as Hin by (by apply list_elem_of_filter).
    rewrite E in Hin. by apply elem_of_nil in Hin.
  - rewrite E. destruct (predicted_labels_one ls (a_predicted_letter_id a) Hnd)
      as [p ->]. done.
Qed.

Lemma recent_rows_elem userId ls rows r :
  r ∈ recent_rows userId ls rows →
  ∃ a l, a ∈ rows ∧ a_user_id a = userId ∧ l ∈ ls
         ∧ l_id l = a_target_letter_id a
         ∧ r_created_at r = a_created_at a ∧ r_correct r = b2z (a_correct a)
         ∧ r_target_ar r = l_ar l.
Proof.
  unfold recent_rows. intros Hr.
  apply list_elem_of_bind in Hr as (a & Hr & Ha).
  apply list_elem_of_bind in Hr as (l & Hr & Hl).
  apply list_elem_of_bind in Hr as (p & Hr & _).
  apply list_elem_of_singleton in Hr as ->.
  apply list_elem_of_filter in Ha as [Hu Ha].
  apply list_elem_of_filter in Hl as [Hid Hl].
  by exists a, l.
Qed.

(** X8: [getRecentAttempts] returns rows of the user's attempts only, each
    with the label of its target letter, the newest first, and never more
    rows than a non-negative limit (5 when the limit is left out); with
    distinct letter identifiers and targets that exist it returns as many
    rows as the user has attempts, up to the limit, and all of them for a
    negative limit. *)
Theorem getRecentAttempts_rows (userId : string) (limit : option Z) (db : DB)
    (rows : list AttemptRow) (ls : list LetterRow) :
  attempts (tables db) = Some rows →
  letters (tables db) = Some ls →
  ∃ out, getRecentAttempts userId limit db = (Ok out, db)
    ∧ Sorted newest_first out
    ∧ (0 ≤ default 5 limit → Z.of_nat (length out) ≤ default 5 limit)
    ∧ (∀ r, r ∈ out →
         ∃ a l, a ∈ rows ∧ a_user_id a = userId ∧ l ∈ ls
                ∧ l_id l = a_target_letter_id a
                ∧ r_created_at r = a_created_at a
                ∧ r_correct r = b2z (a_correct a)
                ∧ r_target_ar r = l_ar l)
    ∧ (NoDup (l_id <$> ls) →
       (∀ a, a ∈ rows → a_user_id a = userId →
             a_target_letter_id a ∈ (l_id <$> ls)) →
       Z.of_nat (length out)
       = if default 5 limit <? 0 then attempts_n userId rows
         else Z.min (default 5 limit) (attempts_n userId rows)).
Proof.
  intros Hrows Hls. unfold getRecentAttempts.
  rewrite (bind_ok _ _ _ _ _ (from_some _ _ _ _ Hrows)).
  rewrite (bind_ok _ _ _ _ _ (from_some _ _ _ _ Hls)).
  eexists. split; [reflexivity|].
  set (n := default 5 limit).
  set (sorted := merge_sort newest_first (recent_rows userId ls rows)).
  assert (Hsorted : Sorted newest_first sorted).
  { apply Sorted_merge_sort. intros x y. unfold newest_first.
    apply String.leb_total. }
  unfold sql_limit. split; [|split; [|split]].
  - destruct (n <? 0); [done|by apply Sorted_take_prefix].
  - intros Hn. destruct (Z.ltb_spec n 0); [lia|].
    rewrite length_take. lia.
  - intros r Hr. apply (recent_rows_elem userId ls rows).
    rewrite <- (merge_sort_Permutation newest_first). fold sorted.
    destruct (n <? 0); [done|]. by eapply subseteq_take.
  - intros Hnd Hex.
    assert (Hlen : length sorted = length (attempts_of userId rows)).
    { unfold sorted. rewrite merge_sort_Permutation.
      by apply recent_rows_length. }
    unfold attempts_n. destruct (Z.ltb_spec n 0); [by rewrite Hlen|].
    rewrite length_take, Hlen. lia.
Qed.

(** ** The statements at concrete databases *)

Lemma with_user_references : references_hold with_user.
Proof.
  exists [], [mkUser "u1" (Some "Local User"%string) (Sqlite.strftime_iso t0)],
         seeded_letters, SEED_LEVELS, ∅.
  split; [vm_compute; reflexivity|]. split; [vm_compute; reflexivity|].
  split; [vm_compute; reflexivity|]. split; [vm_compute; reflexivity|].
  split; [vm_compute; reflexivity|]. split.
  - intros a Ha. by apply elem_of_nil in Ha.
  - intros u r Hu. by rewrite lookup_empty in Hu.
Qed.

Lemma recordAttempt_raises_unchanged_witness :
  recordAttempt t0 (attempt_on "u1" "الف" true) migrated
  = (Err ForeignKeyFailed, migrated)
  ∧ migrated = migrated
  ∧ ((∃ ar, ForeignKeyFailed = UnknownLetter ar
            ∧ ar ∈ labels (attempt_on "u1" "الف" true)
            ∧ ∀ ls, letters (tables migrated) = Some ls → ar ∉ (l_ar <$> ls))
     ∨ (∃ t, ForeignKeyFailed = NoSuchTable t)
     ∨ (ForeignKeyFailed = ForeignKeyFailed ∧ foreign_keys migrated = true)).
Proof.
  assert (H : recordAttempt t0 (attempt_on "u1" "الف" true) migrated
              = (Err ForeignKeyFailed, migrated)).
  { vm_compute. reflexivity. }
  split; [exact H|].
  exact (recordAttempt_raises_unchanged t0 (attempt_on "u1" "الف" true)
           migrated migrated ForeignKeyFailed H).
Defined.

Lemma recordAttempt_then_getTotals_witness :
  ∃ t t', getTotals "u1" with_user = (Ok t, with_user)
          ∧ getTotals "u1" once = (Ok t', once)
          ∧ t_n t' = t_n t + 1
          ∧ t_correct t' = t_correct t + 1.
Proof.
  apply (recordAttempt_then_getTotals t0 (attempt_on "u1" "الف" true)
           with_user once "u1").
  vm_compute. reflexivity.
Defined.

Lemma recordAttempt_then_getPerLetterStats_witness :
  ∃ out out',
    getPerLetterStats "u1" with_user = (Ok out, with_user)
    ∧ getPerLetterStats "u1" once = (Ok out', once)
    ∧ length out' = length out
    ∧ ∀ i r r', out !! i = Some r → out' !! i = Some r' →
        pl_ar r' = pl_ar r
        ∧ pl_n r'
          = pl_n r + (if decide (counts_in "u1" (attempt_on "u1" "الف" true) r)
                      then 1 else 0)
        ∧ pl_correct r'
          = pl_correct r
            + (if decide (counts_in "u1" (attempt_on "u1" "الف" true) r)
               then b2z true else 0).
Proof.
  apply (recordAttempt_then_getPerLetterStats t0 (attempt_on "u1" "الف" true)
           with_user once "u1").
  - vm_compute. reflexivity.
  - vm_compute. reflexivity.
Defined.

Lemma recordAttempt_keeps_references_witness :
  references_hold (snd (recordAttempt t0 (attempt_on "u1" "الف" true) with_user)).
Proof.
  apply (recordAttempt_keeps_references t0 (attempt_on "u1" "الف" true) with_user).
  - vm_compute. reflexivity.
  - exact with_user_references.
Defined.

Lemma computeAndUpdateLevel_keeps_references_witness :
  references_hold (snd (computeAndUpdateLevel t0 "u1" with_user))
  ∧ ∀ e db', computeAndUpdateLevel t0 "u1" with_user = (Err e, db') →
             db' = with_user.
Proof.
  apply (computeAndUpdateLevel_keeps_references t0 "u1" with_user).
  - vm_compute. reflexivity.
  - exact with_user_references.
Defined.

Lemma getCurrentLevel_frame_witness :
  getCurrentLevel "u2" practised = (Ok 1, practised)
  ∧ getCurrentLevel "u1" (snd (computeAndUpdateLevel t0 "u1" practised))
    = (Ok 1, snd (computeAndUpdateLevel t0 "u1" practised))
  ∧ fst (getCurrentLevel "u2" (snd (computeAndUpdateLevel t0 "u1" practised)))
    = fst (getCurrentLevel "u2" practised).
Proof.
  destruct (getCurrentLevel_frame t0 "u1" "u2" practised
              (snd (computeAndUpdateLevel t0 "u1" practised)) 1) as [H1 H2].
  split.
  - apply (H1 ∅); [vm_compute; reflexivity|apply lookup_empty].
  - apply H2; [vm_compute; reflexivity|discriminate].
Defined.

Lemma getLast7Days_partition_witness :
  ∃ out, getLast7Days (t0 + 5000) "u1" practised = (Ok out, practised)
    ∧ series_total out
      = Z.of_nat (length (selected (t0 + 5000) "u1" (rows_of practised)))
    ∧ NoDup (d_day <$> out)
    ∧ Sorted Sqlite.text_le (d_day <$> out)
    ∧ ∀ b, b ∈ out →
        1 ≤ d_n b
        ∧ d_n b = Z.of_nat (length (filter (λ a, day_of a = d_day b)
                                      (selected (t0 + 5000) "u1"
                                         (rows_of practised))))
        ∧ ∃ a, a ∈ rows_of practised ∧ a_user_id a = "u1"%string
               ∧ day_of a = d_day b.
Proof.
  apply (getLast7Days_partition (t0 + 5000) "u1" practised (rows_of practised)).
  vm_compute. reflexivity.
Defined.

Lemma getLast7DaysForLetters_counts_witness :
  ∃ out, getLast7DaysForLetters (t0 + 5000) "u1" (JS.Val ["الف"%string]) practised
         = (Ok out, practised)
    ∧ series_total out
      = Z.of_nat (length (filter (targets_named ["الف"%string] seeded_letters)
                                 (selected (t0 + 5000) "u1" (rows_of practised))))
    ∧ NoDup (d_day <$> out)
    ∧ ((∀ a, a ∈ selected (t0 + 5000) "u1" (rows_of practised) →
             targets_named ["الف"%string] seeded_letters a) →
       ∃ out7, getLast7Days (t0 + 5000) "u1" practised = (Ok out7, practised)
               ∧ day_count <$> out = day_count <$> out7).
Proof.
  apply (getLast7DaysForLetters_counts (t0 + 5000) "u1" practised
           (rows_of practised) seeded_letters ["الف"%string]).
  - vm_compute. reflexivity.
  - vm_compute. reflexivity.
  - apply (bool_decide_unpack _). vm_compute. reflexivity.
  - discriminate.
Defined.

Lemma getRecentAttempts_rows_witness :
  ∃ out, getRecentAttempts "u1" None practised = (Ok out, practised)
    ∧ Sorted newest_first out
    ∧ (0 ≤ default 5 None → Z.of_nat (length out) ≤ default 5 None)
    ∧ (∀ r, r ∈ out →
         ∃ a l, a ∈ rows_of practised ∧ a_user_id a = "u1"%string
                ∧ l ∈ seeded_letters
                ∧ l_id l = a_target_letter_id a
                ∧ r_created_at r = a_created_at a
                ∧ r_correct r = b2z (a_correct a)
                ∧ r_target_ar r = l_ar l)
    ∧ (NoDup (l_id <$> seeded_letters) →
       (∀ a, a ∈ rows_of practised → a_user_id a = "u1"%string →
             a_target_letter_id a ∈ (l_id <$> seeded_letters)) →
       Z.of_nat (length out)
       = if default 5 None <? 0 then attempts_n "u1" (rows_of practised)
         else Z.min (default 5 None) (attempts_n "u1" (rows_of practised))).
Proof.
  apply (getRecentAttempts_rows "u1" None practised (rows_of practised)
           seeded_letters).
  - vm_compute. reflexivity.
  - vm_compute. reflexivity.
Defined.

(** ** A run of the migrations *)

Lemma sql_1_run fk t s :
  sql_1 (mkDB fk t (Some s)) = (Ok tt, mkDB fk (created t) (Some s)).
Proof.
  destruct t as [m u l a lv ul ix].
  destruct m, u, l, a, lv, ul; reflexivity.
Qed.

Lemma set_letters_same t ls : letters t = Some ls → set_letters (Some ls) t = t.
Proof. destruct t. cbn. by intros ->. Qed.

Lemma set_levels_same t lvs : levels t = Some lvs → set_levels (Some lvs) t = t.
Proof. destruct t. cbn. by intros ->. Qed.

(** The seed loop over labels that are new and distinct appends one row per
    label. *)
Lemma forEach_insert_letters xs : ∀ i ls fk t tx,
  letters t = Some ls →
  NoDup ((l_ar <$> ls) ++ xs) →
  (∀ l, l ∈ ls → l_id l < i) →
  forEach (λ ar i, insert_letter (mkLetter i ar None i)) i xs (mkDB fk t tx)
  = (Ok tt, mkDB fk (set_letters (Some (ls ++ letters_from i xs)) t) tx).
Proof.
  induction xs as [|x xs IH]; intros i ls fk t tx Hls Hnd Hlt.
  - cbn. unfold ret. by rewrite app_nil_r, set_letters_same.
  - cbn [forEach letters_from]. unfold insert_letter at 1.
    erewrite bind_ok; cycle 1.
    { rewrite (bind_ok _ _ _ _ _ (from_some "letters" letters (mkDB fk t tx) ls Hls)).
      unfold require. rewrite decide_True.
      - rewrite (bind_ok _ _ _ tt (mkDB fk t tx)) by reflexivity. reflexivity.
      - cbn [l_id l_ar]. split.
        + intros Hin. apply list_elem_of_fmap in Hin as (l & Hl & Hin).
          specialize (Hlt l Hin). lia.
        + apply NoDup_app in Hnd as (_ & Hdisj & _). intros Hin.
          apply (Hdisj x Hin). left. }
    rewrite (IH (i + 1) (ls ++ [mkLetter i x None i])).
    + f_equal. f_equal. destruct t. cbn. by rewrite <- app_assoc.
    + by destruct t.
    + rewrite fmap_app. cbn. rewrite <- app_assoc. cbn.
      apply NoDup_app in Hnd as (H1 & H2 & H3).
      apply NoDup_cons in H3 as [H3 H4].
      apply NoDup_app. split; [done|]. split.
      * intros y Hy. intros Hy'. apply elem_of_cons in Hy' as [->|Hy'].
        -- apply (H2 x Hy). left.
        -- apply (H2 y Hy). by right.
      * by apply NoDup_cons.
    + intros l Hl. apply elem_of_app in Hl as [Hl|Hl].
      * specialize (Hlt l Hl). lia.
      * apply list_elem_of_singleton in Hl as ->. cbn. lia.
Qed.

Lemma letters_from_canon : letters_from 0 CANON_LETTERS = seeded_letters.
Proof. vm_compute. reflexivity. Qed.

Lemma SEED_LEVELS_NoDup : NoDup (lv_level <$> SEED_LEVELS).
Proof. apply (bool_decide_unpack _). vm_compute. reflexivity. Qed.

(** The seed step never fails on tables that exist: it fills the empty
    ones and leaves the others alone. *)
Lemma post_1_run fk t tx ls lvs :
  letters t = Some ls → levels t = Some lvs →
  post_1 (mkDB fk t tx)
  = (Ok tt, mkDB fk (set_levels (Some (seed_if_empty SEED_LEVELS lvs))
                       (set_letters (Some (seed_if_empty seeded_letters ls)) t))
                 tx).
Proof.
  intros Hls Hlvs. unfold post_1.
  rewrite (bind_ok _ _ _ _ _ (from_some "letters" letters (mkDB fk t tx) ls Hls)).
  assert (Hseed : when (Sqlite.count ls =? 0)
             (forEach (λ ar i, insert_letter (mkLetter i ar None i)) 0 CANON_LETTERS)
             (mkDB fk t tx)
           = (Ok tt, mkDB fk (set_letters (Some (seed_if_empty seeded_letters ls)) t) tx)).
  { destruct ls as [|l ls]; cbn [seed_if_empty].
    - change (Sqlite.count [] =? 0) with true. unfold when.
      rewrite (forEach_insert_letters CANON_LETTERS 0 [] fk t tx Hls).
      + by rewrite letters_from_canon.
      + apply CANON_LETTERS_NoDup.
      + intros l Hl. by apply elem_of_nil in Hl.
    - replace (Sqlite.count (l :: ls) =? 0) with false
        by (symmetry; apply Z.eqb_neq; unfold Sqlite.count; cbn [length]; lia).
      unfold when, ret. by rewrite set_letters_same. }
  rewrite (bind_ok _ _ _ _ _ Hseed).
  set (t1 := set_letters (Some (seed_if_empty seeded_letters ls)) t).
  assert (Hlvs1 : levels t1 = Some lvs) by (by destruct t).
  rewrite (bind_ok _ _ _ _ _ (from_some "levels" levels (mkDB fk t1 tx) lvs Hlvs1)).
  destruct lvs as [|lv lvs]; cbn [seed_if_empty].
  - change (Sqlite.count [] =? 0) with true. unfold when, insert_levels.
    rewrite (bind_ok _ _ _ _ _ (from_some "levels" levels (mkDB fk t1 tx) [] Hlvs1)).
    unfold require. rewrite decide_True by apply SEED_LEVELS_NoDup.
    reflexivity.
  - replace (Sqlite.count (lv :: lvs) =? 0) with false
      by (symmetry; apply Z.eqb_neq; unfold Sqlite.count; cbn [length]; lia).
    unfold when, ret. by rewrite set_levels_same.
Qed.

(** A pending migration 1 goes through on a connection that is not inside a
    transaction. *)
Lemma run_pending_applies cur db :
  cur < 1 → txn db = None →
  run_pending MIGRATIONS cur db = (Ok tt, after_migration_1 db).
Proof.
  intros Hcur Htx. destruct db as [fk t tx]. cbn in Htx. subst tx.
  unfold MIGRATIONS, run_pending. cbn [id sql post].
  rewrite decide_True by done.
  rewrite (bind_ok _ _ _ tt (mkDB fk t (Some t))) by reflexivity.
  unfold bind at 1, try_catch.
  rewrite (bind_ok _ _ _ _ _ (sql_1_run fk t t)).
  rewrite (bind_ok _ _ _ _ _
             (update_meta_version_run 1 fk (created t) (Some t) [0] eq_refl)).
  rewrite (bind_ok _ _ _ tt (mkDB fk (set__meta (Some [1]) (created t)) None))
    by reflexivity.
  rewrite (bind_ok _ _ _ _ _
             (post_1_run fk (set__meta (Some [1]) (created t)) None
                (default [] (letters t)) (default [] (levels t)) eq_refl eq_refl)).
  reflexivity.
Qed.

Lemma run_pending_none cur db :
  1 ≤ cur → run_pending MIGRATIONS cur db = (Ok tt, db).
Proof.
  intros Hcur. unfold MIGRATIONS, run_pending. cbn [id].
  by rewrite decide_False by lia.
Qed.

Lemma after_migration_1_tables db :
  _meta (tables (after_migration_1 db)) = Some [1]
  ∧ users (tables (after_migration_1 db)) = Some (default [] (users (tables db)))
  ∧ attempts (tables (after_migration_1 db))
    = Some (default [] (attempts (tables db)))
  ∧ user_levels (tables (after_migration_1 db))
    = Some (default ∅ (user_levels (tables db)))
  ∧ letters (tables (after_migration_1 db))
    = Some (seed_if_empty seeded_letters (default [] (letters (tables db))))
  ∧ levels (tables (after_migration_1 db))
    = Some (seed_if_empty SEED_LEVELS (default [] (levels (tables db)))).
Proof. destruct db as [fk [m u l a lv ul ix] tx]. done. Qed.

Lemma seed_if_empty_kept {A} (seed rows : list A) :
  rows ≠ [] → seed_if_empty seed rows = rows.
Proof. by destruct rows. Qed.

(** X9: outside a transaction [runMigrations] always goes through, on any
    database file: it ends at the latest version with foreign keys on; every
    row of [users], [attempts] and [user_levels] is kept, a non-empty
    [letters] or [levels] table is kept as it is; and where a migration was
    pending, every table is there afterwards, an empty or missing catalog
    and thresholds table holding the seed. *)
Theorem runMigrations_succeeds (db : DB) :
  txn db = None →
  ∃ db1, runMigrations db = (Ok tt, db1)
    ∧ up_to_date db1 ∧ foreign_keys db1 = true ∧ txn db1 = None
    ∧ (∀ rows, users (tables db) = Some rows → users (tables db1) = Some rows)
    ∧ (∀ rows, attempts (tables db) = Some rows →
               attempts (tables db1) = Some rows)
    ∧ (∀ uls, user_levels (tables db) = Some uls →
              user_levels (tables db1) = Some uls)
    ∧ (∀ ls, letters (tables db) = Some ls → ls ≠ [] →
             letters (tables db1) = Some ls)
    ∧ (∀ lvs, levels (tables db) = Some lvs → lvs ≠ [] →
              levels (tables db1) = Some lvs)
    ∧ (¬ up_to_date db →
       is_Some (users (tables db1)) ∧ is_Some (attempts (tables db1))
       ∧ is_Some (user_levels (tables db1))
       ∧ letters (tables db1)
         = Some (seed_if_empty seeded_letters (default [] (letters (tables db))))
       ∧ levels (tables db1)
         = Some (seed_if_empty SEED_LEVELS (default [] (levels (tables db))))).
Proof.
  intros Htx. rewrite runMigrations_prologue, prologue_run.
  destruct db as [fk t tx]. cbn in Htx. subst tx.
  change (pragma_on (mkDB fk t None)) with (mkDB true t None).
  assert (Hpending : ∀ cur dbc,
            cur < 1 → txn dbc = None → foreign_keys dbc = true →
            users (tables dbc) = users t → attempts (tables dbc) = attempts t →
            user_levels (tables dbc) = user_levels t →
            letters (tables dbc) = letters t → levels (tables dbc) = levels t →
            ∃ db1, run_pending MIGRATIONS cur dbc = (Ok tt, db1)
              ∧ up_to_date db1 ∧ foreign_keys db1 = true ∧ txn db1 = None
              ∧ (∀ rows, users t = Some rows → users (tables db1) = Some rows)
              ∧ (∀ rows, attempts t = Some rows → attempts (tables db1) = Some rows)
              ∧ (∀ uls, user_levels t = Some uls →
                        user_levels (tables db1) = Some uls)
              ∧ (∀ ls, letters t = Some ls → ls ≠ [] →
                       letters (tables db1) = Some ls)
              ∧ (∀ lvs, levels t = Some lvs → lvs ≠ [] →
                        levels (tables db1) = Some lvs)
              ∧ (is_Some (users (tables db1)) ∧ is_Some (attempts (tables db1))
                 ∧ is_Some (user_levels (tables db1))
                 ∧ letters (tables db1)
                   = Some (seed_if_empty seeded_letters (default [] (letters t)))
                 ∧ levels (tables db1)
                   = Some (seed_if_empty SEED_LEVELS (default [] (levels t))))).
  { intros cur dbc Hcur Htx Hfk Hu Ha Hul Hl Hlv.
    exists (after_migration_1 dbc).
    destruct (after_migration_1_tables dbc) as (Hm' & Hu' & Ha' & Hul' & Hl' & Hlv').
    rewrite Hu in Hu'. rewrite Ha in Ha'. rewrite Hul in Hul'.
    rewrite Hl in Hl'. rewrite Hlv in Hlv'.
    split; [by apply run_pending_applies|].
    split; [exists 1; unfold version; by rewrite Hm'|].
    split; [done|]. split; [done|].
    split; [intros rows Hr; by rewrite Hu', Hr|].
    split; [intros rows Hr; by rewrite Ha', Hr|].
    split; [intros uls Hr; by rewrite Hul', Hr|].
    split; [intros ls Hr Hne; rewrite Hl', Hr; cbn;
            by rewrite seed_if_empty_kept|].
    split; [intros lvs Hr Hne; rewrite Hlv', Hr; cbn;
            by rewrite seed_if_empty_kept|].
    rewrite Hu', Ha', Hul'. by eauto 10. }
  destruct (version (mkDB fk t None)) as [v|] eqn:Hv.
  - destruct (decide (1 ≤ v)) as [Hle|Hlt].
    + exists (mkDB true t None). rewrite run_pending_none by done.
      split; [done|]. split; [by exists v|].
      split; [done|]. split; [done|].
      split; [done|]. split; [done|]. split; [done|].
      split; [done|]. split; [done|].
      intros Hnot. destruct Hnot. by exists v.
    + destruct (Hpending v (mkDB true t None)) as (db1 & Hrun & H); try done; [lia|].
      exists db1. split; [done|].
      destruct H as (H1 & H2 & H3 & H4 & H5 & H6 & H7 & H8 & H9).
      by eauto 12.
  - destruct (Hpending 0 (with_meta [0] (mkDB true t None)))
      as (db1 & Hrun & H); try done; try (by destruct t).
    exists db1. split; [done|].
    destruct H as (H1 & H2 & H3 & H4 & H5 & H6 & H7 & H8 & H9).
    by eauto 12.
Qed.

Lemma runMigrations_succeeds_witness :
  txn fresh = None
  ∧ ∃ db1, runMigrations fresh = (Ok tt, db1)
    ∧ up_to_date db1 ∧ foreign_keys db1 = true ∧ txn db1 = None
    ∧ (∀ rows, users (tables fresh) = Some rows → users (tables db1) = Some rows)
    ∧ (∀ rows, attempts (tables fresh) = Some rows →
               attempts (tables db1) = Some rows)
    ∧ (∀ uls, user_levels (tables fresh) = Some uls →
              user_levels (tables db1) = Some uls)
    ∧ (∀ ls, letters (tables fresh) = Some ls → ls ≠ [] →
             letters (tables db1) = Some ls)
    ∧ (∀ lvs, levels (tables fresh) = Some lvs → lvs ≠ [] →
              levels (tables db1) = Some lvs)
    ∧ (¬ up_to_date fresh →
       is_Some (users (tables db1)) ∧ is_Some (attempts (tables db1))
       ∧ is_Some (user_levels (tables db1))
       ∧ letters (tables db1)
         = Some (seed_if_empty seeded_letters (default [] (letters (tables fresh))))
       ∧ levels (tables db1)
         = Some (seed_if_empty SEED_LEVELS (default [] (levels (tables fresh))))).
Proof. split; [reflexivity | apply (runMigrations_succeeds fresh); reflexivity]. Defined.

(** ** The local user *)

Lemma insert_user_run now uid name db us :
  users (tables db) = Some us → uid ∉ (u_id <$> us) →
  insert_user now uid name db
  = (Ok tt, mkDB (foreign_keys db)
               (set_users (Some (us ++ [mkUser uid (Some name)
                                               (Sqlite.strftime_iso now)]))
                          (tables db))
               (txn db)).
Proof.
  intros Hus Hnew. unfold insert_user.
  rewrite (bind_ok _ _ _ _ _ (from_some "users" users db us Hus)).
  unfold require. rewrite decide_True by done.
  by rewrite (bind_ok _ _ _ tt db).
Qed.


(** X10: the first call of [ensureLocalUser] on a store without an
    identifier inserts the new identifier into [users] and stores it; the
    user is registered from then on, the other tables are as they were, the
    references still hold, and every later call returns the same
    identifier and changes nothing. *)
Theorem ensureLocalUser_stable (now : Z) (fresh : string)
    (kv : gmap string string) (db : DB) (us : list UserRow) :
  kv !! User.KEY = None ∨ kv !! User.KEY = Some EmptyString →
  users (tables db) = Some us → fresh ∉ (u_id <$> us) → fresh ≠ EmptyString →
  ∃ kv1 db1,
    User.ensureLocalUser now fresh (kv, db) = (Ok fresh, (kv1, db1))
    ∧ registered db1 fresh
    ∧ (∀ u, registered db u → registered db1 u)
    ∧ attempts (tables db1) = attempts (tables db)
    ∧ letters (tables db1) = letters (tables db)
    ∧ levels (tables db1) = levels (tables db)
    ∧ user_levels (tables db1) = user_levels (tables db)
    ∧ foreign_keys db1 = foreign_keys db
    ∧ (references_hold db → references_hold db1)
    ∧ ∀ now' fresh',
        User.ensureLocalUser now' fresh' (kv1, db1) = (Ok fresh, (kv1, db1)).
Proof.
  intros Hkv Hus Hnew Hne.
  set (row := mkUser fresh (Some "Local User"%string) (Sqlite.strftime_iso now)).
  exists (<[User.KEY := fresh]> kv),
         (mkDB (foreign_keys db) (set_users (Some (us ++ [row])) (tables db))
               (txn db)).
  assert (Hfalsy : JS.truthy (match kv !! User.KEY with
                              | Some existing => JS.Val existing
                              | None => JS.Null
                              end) = None).
  { destruct Hkv as [-> | ->]; [done|]. cbn. by rewrite decide_True. }
  split.
  { unfold User.ensureLocalUser. rewrite Hfalsy.
    by rewrite (insert_user_run now fresh "Local User" db us Hus Hnew). }
  assert (Husers : ∀ u, u ∈ (u_id <$> us) → u ∈ (u_id <$> (us ++ [row]))).
  { intros u Hu. rewrite fmap_app. apply elem_of_app. by left. }
  split.
  { exists (us ++ [row]). split; [by destruct db as [fk [] tx]|].
    rewrite fmap_app. apply elem_of_app. right. cbn. left. }
  split.
  { intros u (us' & Hus' & Hu). rewrite Hus in Hus'. injection Hus' as <-.
    exists (us ++ [row]). split; [by destruct db as [fk [] tx]|]. by apply Husers. }
  split; [by destruct db as [fk [] tx]|].
  split; [by destruct db as [fk [] tx]|].
  split; [by destruct db as [fk [] tx]|].
  split; [by destruct db as [fk [] tx]|].
  split; [done|].
  split.
  { intros (rows & us' & ls & lvs & uls & Hr & Hus' & Hls & Hlvs & Huls & Ha & Hl).
    rewrite Hus in Hus'. injection Hus' as <-.
    exists rows, (us ++ [row]), ls, lvs, uls.
    destruct db as [fk [] tx]. cbn in *.
    split; [done|]. split; [done|]. split; [done|]. split; [done|].
    split; [done|]. split.
    - intros a Hin. destruct (Ha a Hin) as (H1 & H2 & H3). by auto.
    - intros u r Hur. destruct (Hl u r Hur) as [H1 H2]. by auto. }
  intros now' fresh'. unfold User.ensureLocalUser.
  rewrite lookup_insert_eq. cbn. by rewrite decide_False.
Qed.

Lemma ensureLocalUser_stable_witness :
  ∃ kv1 db1,
    User.ensureLocalUser t0 "u1" (∅, migrated) = (Ok "u1"%string, (kv1, db1))
    ∧ registered db1 "u1"
    ∧ (∀ u, registered migrated u → registered db1 u)
    ∧ attempts (tables db1) = attempts (tables migrated)
    ∧ letters (tables db1) = letters (tables migrated)
    ∧ levels (tables db1) = levels (tables migrated)
    ∧ user_levels (tables db1) = user_levels (tables migrated)
    ∧ foreign_keys db1 = foreign_keys migrated
    ∧ (references_hold migrated → references_hold db1)
    ∧ ∀ now' fresh',
        User.ensureLocalUser now' fresh' (kv1, db1) = (Ok "u1"%string, (kv1, db1)).
Proof.
  apply (ensureLocalUser_stable t0 "u1" ∅ migrated []).
  - left. reflexivity.
  - vm_compute. reflexivity.
  - apply not_elem_of_nil.
  - discriminate.
Defined.



(** ** The dashboard *)

Lemma levelLetters_all (sel : Z) :
  sel ≠ 2 → sel ≠ 3 → Analytics.levelLetters sel = CANON_LETTERS.
Proof.
  intros H2 H3. unfold Analytics.levelLetters, Analytics.findLevel, Analytics.LEVELS.
  rewrite !filter_cons, filter_nil. cbn [Analytics.level].
  destruct (decide (1 = sel)); [reflexivity|].
  rewrite decide_False by done. rewrite decide_False by done. reflexivity.
Qed.

Lemma ALL_AR_canon : Analytics.ALL_AR = CANON_LETTERS.
Proof. reflexivity. Qed.

Lemma filter_all {A} (P : A → Prop) `{∀ x, Decision (P x)} (l : list A) :
  Forall P l → filter P l = l.
Proof.
  induction 1 as [|x l Hx Hl IH]; [done|].
  rewrite filter_cons, decide_True by done. by rewrite IH.
Qed.

(** In a list whose keys are distinct, the first element with the key of
    [x] is [x]. *)
Lemma head_filter_key {A K} `{EqDecision K} (f : A → K) (xs : list A) (x : A) :
  NoDup (f <$> xs) → x ∈ xs → head (filter (λ y, f y = f x) xs) = Some x.
Proof.
  induction xs as [|y xs IH]; intros Hnd Hx; [by apply elem_of_nil in Hx|].
  rewrite fmap_cons in Hnd. apply NoDup_cons in Hnd as [Hy Hnd].
  rewrite filter_cons. apply elem_of_cons in Hx as [->|Hx].
  - by rewrite decide_True.
  - rewrite decide_False; [by apply IH|].
    intros E. apply Hy. rewrite E. apply list_elem_of_fmap. by exists x.
Qed.

Lemma perLevelTotals_sum (m : list PerLetter) :
  Analytics.perLevelTotals m
  = (foldr Z.add 0 (pl_n <$> m), foldr Z.add 0 (pl_correct <$> m)).
Proof.
  unfold Analytics.perLevelTotals.
  assert (G : ∀ acc : Z * Z,
            foldl (λ acc r, (acc.1 + pl_n r, acc.2 + pl_correct r)) acc m
            = (acc.1 + foldr Z.add 0 (pl_n <$> m),
               acc.2 + foldr Z.add 0 (pl_correct <$> m))).
  { induction m as [|r m IH]; intros [a b]; cbn.
    - f_equal; lia.
    - rewrite IH. cbn. f_equal; lia. }
  rewrite G. done.
Qed.

Lemma foldr_add_lengths {A} (g : A → nat) (l : list A) :
  foldr Z.add 0 ((λ x, Z.of_nat (g x)) <$> l) = Z.of_nat (sum_list (g <$> l)).
Proof. induction l as [|x l IH]; cbn; [done|]. rewrite IH. lia. Qed.

Lemma joined_by_target u l rows :
  joined u l rows
  = filter (λ a, a_target_letter_id a = l_id l) (attempts_of u rows).
Proof.
  unfold joined, attempts_of. rewrite list_filter_filter.
  apply list_filter_iff. intros a. tauto.
Qed.

Lemma correct_joined_by_target u l rows :
  correct_ones (joined u l rows)
  = filter (λ a, a_target_letter_id a = l_id l)
           (correct_ones (attempts_of u rows)).
Proof.
  rewrite joined_by_target. unfold correct_ones. rewrite !list_filter_filter.
  apply list_filter_iff. intros a. tauto.
Qed.

(** The per-letter counts of a user add up to the user's totals where every
    attempt of the user targets a row of [letters] and the rows' ids are
    distinct. *)
Lemma stat_rows_add_up u rows ls :
  NoDup (l_id <$> ls) →
  (∀ a, a ∈ rows → a_user_id a = u → a_target_letter_id a ∈ (l_id <$> ls)) →
  foldr Z.add 0 (pl_n <$> (stat_row u rows <$> ls)) = attempts_n u rows
  ∧ foldr Z.add 0 (pl_correct <$> (stat_row u rows <$> ls))
    = attempts_correct u rows.
Proof.
  intros Hnd Hcov. rewrite <- !list_fmap_compose. split.
  - rewrite (list_fmap_ext _ (λ l, Z.of_nat (length (joined u l rows))) ls)
      by (intros i l _; apply pl_n_stat_row).
    rewrite (foldr_add_lengths (λ l, length (joined u l rows))).
    unfold attempts_n. f_equal.
    rewrite (list_fmap_ext _
               ((λ k, length (filter (λ a, a_target_letter_id a = k)
                                     (attempts_of u rows))) ∘ l_id) ls)
      by (intros i l _; cbn; by rewrite joined_by_target).
    rewrite list_fmap_compose. apply group_sizes; [done|].
    intros a Ha. apply list_elem_of_filter in Ha as [Hu Ha]. by apply Hcov.
  - rewrite (list_fmap_ext _
               (λ l, Z.of_nat (length (correct_ones (joined u l rows)))) ls)
      by (intros i l _; apply pl_correct_stat_row).
    rewrite (foldr_add_lengths (λ l, length (correct_ones (joined u l rows)))).
    unfold attempts_correct. f_equal.
    rewrite (list_fmap_ext _
               ((λ k, length (filter (λ a, a_target_letter_id a = k)
                                     (correct_ones (attempts_of u rows)))) ∘ l_id)
               ls)
      by (intros i l _; cbn; by rewrite correct_joined_by_target).
    rewrite list_fmap_compose. apply group_sizes; [done|].
    intros a Ha. apply list_elem_of_filter in Ha as [_ Ha].
    apply list_elem_of_filter in Ha as [Hu Ha]. by apply Hcov.
Qed.

Lemma seeded_letters_ids_NoDup : NoDup (l_id <$> seeded_letters).
Proof. apply (bool_decide_unpack _). vm_compute. reflexivity. Qed.

(** The rows of the statistics over the seeded catalog pass [merged]
    unchanged when all the labels are selected. *)
Lemma merged_all (sel : Z) u rows :
  Analytics.levelLetters sel = CANON_LETTERS →
  Analytics.merged sel (stat_row u rows <$> seeded_letters)
  = stat_row u rows <$> seeded_letters.
Proof.
  intros Hsel. unfold Analytics.merged. rewrite Hsel, ALL_AR_canon.
  assert (E : (λ ar, default (mkPerLetter ar 0 0 JS.fzero)
                       (head (filter (λ r, pl_ar r = ar)
                                (stat_row u rows <$> seeded_letters))))
              <$> CANON_LETTERS
              = stat_row u rows <$> seeded_letters).
  { rewrite <- seeded_letters_ar, <- list_fmap_compose.
    apply list_fmap_ext. intros i l Hl. unfold compose.
    change (l_ar l) with (pl_ar (stat_row u rows l)) at 2.
    rewrite (head_filter_key pl_ar); [done| |].
    - rewrite <- list_fmap_compose.
      change (pl_ar ∘ stat_row u rows) with l_ar.
      rewrite seeded_letters_ar. apply CANON_LETTERS_NoDup.
    - apply list_elem_of_fmap. exists l. split; [done|].
      by apply list_elem_of_lookup_2 in Hl. }
  rewrite E. apply filter_all. apply Forall_forall. intros r Hr.
  apply list_elem_of_fmap in Hr as (l & -> & Hl). cbn.
  rewrite <- seeded_letters_ar. apply list_elem_of_fmap. by exists l.
Qed.

(** X12: on the seeded catalog, the summary the dashboard shows for
    level 1 (and for any selection other than levels 2 and 3) is the
    overall total: the rows of [getPerLetterStats] pass [merged] as they
    are, and [perLevelTotals] adds them up to the attempts and correct
    attempts of [getTotals], provided every attempt of the user targets a
    letter of the catalog. *)
Theorem level_summary_is_overall (sel : Z) (u : string) (db : DB)
    (rows : list AttemptRow) :
  sel ≠ 2 → sel ≠ 3 →
  letters (tables db) = Some seeded_letters →
  attempts (tables db) = Some rows →
  (∀ a, a ∈ rows → a_user_id a = u →
        a_target_letter_id a ∈ (l_id <$> seeded_letters)) →
  ∃ r t, getPerLetterStats u db = (Ok r, db) ∧ getTotals u db = (Ok t, db)
    ∧ Analytics.merged sel r = r
    ∧ Analytics.perLevelTotals (Analytics.merged sel r) = (t_n t, t_correct t)
    ∧ Analytics.perLevelAcc (Analytics.perLevelTotals (Analytics.merged sel r))
      = t_acc t.
Proof.
  intros H2 H3 Hls Hrows Hcov.
  exists (stat_row u rows <$> seeded_letters),
         (mkTotals (attempts_n u rows) (attempts_correct u rows)
                   (attempts_acc u rows)).
  split.
  { rewrite (getPerLetterStats_run u db seeded_letters rows Hls Hrows).
    by rewrite seeded_letters_sorted. }
  split; [by apply getTotals_run|].
  rewrite (merged_all sel u rows (levelLetters_all sel H2 H3)).
  split; [done|].
  rewrite perLevelTotals_sum.
  destruct (stat_rows_add_up u rows seeded_letters seeded_letters_ids_NoDup Hcov)
    as [-> ->].
  split; [done|]. reflexivity.
Qed.

Lemma level_summary_is_overall_witness :
  ∃ r t, getPerLetterStats "u1" practised = (Ok r, practised)
    ∧ getTotals "u1" practised = (Ok t, practised)
    ∧ Analytics.merged 1 r = r
    ∧ Analytics.perLevelTotals (Analytics.merged 1 r) = (t_n t, t_correct t)
    ∧ Analytics.perLevelAcc (Analytics.perLevelTotals (Analytics.merged 1 r))
      = t_acc t.
Proof.
  apply (level_summary_is_overall 1 "u1" practised (rows_of practised)).
  - done.
  - done.
  - vm_compute. reflexivity.
  - vm_compute. reflexivity.
  - intros a Ha _. revert a Ha. apply Forall_forall.
    apply (bool_decide_unpack _). vm_compute. reflexivity.
Defined.

(** X13: for a level of [LEVELS] that lists no letters, as levels 2 and 3
    do, the dashboard is empty whatever was practised: the empty list does
    not fall back to all letters, so no row passes [merged], the summary is
    0 attempts with accuracy 0, and a refresh that goes through sets the
    series of the last seven days to the empty one and keeps the selected
    level. *)
Theorem level_without_letters_is_empty (sel : Z) (L : Analytics.Level) :
  Analytics.findLevel sel = Some L → Analytics.letters L = [] →
  (∀ rows, Analytics.merged sel rows = []
           ∧ Analytics.perLevelTotals (Analytics.merged sel rows) = (0, 0)
           ∧ Analytics.perLevelAcc
               (Analytics.perLevelTotals (Analytics.merged sel rows))
             = JS.fzero)
  ∧ ∀ now1 now2 u sc db sc' db',
      Analytics.selectedLevel sc = sel →
      Analytics.refresh_try now1 now2 u sc db = (Ok tt, (sc', db')) →
      Analytics.last7 sc' = [] ∧ Analytics.selectedLevel sc' = sel.
Proof.
  intros Hfind Hnone.
  assert (Hl : Analytics.levelLetters sel = []).
  { unfold Analytics.levelLetters. by rewrite Hfind. }
  assert (Hm : ∀ rows, Analytics.merged sel rows = []).
  { intros rows. unfold Analytics.merged. rewrite Hl.
    induction Analytics.ALL_AR as [|ar ars IH]; [done|].
    rewrite fmap_cons, filter_cons, decide_False; [done|].
    apply not_elem_of_nil. }
  split.
  { intros rows. rewrite Hm. done. }
  intros now1 now2 u sc db sc' db' Hsel. unfold Analytics.refresh_try.
  destruct (getPerLetterStats u db) as [[r|e] db1]; [|done].
  destruct (getTotals u db1) as [[t|e] db2]; [|done].
  destruct (computeAndUpdateLevel now1 u db2) as [[newLvl|e] db3]; [|done].
  cbn [Analytics.selectedLevel]. rewrite Hsel, Hl, Hfind.
  cbn [getLast7DaysForLetters ret]. by intros [= <- <-].
Qed.

Lemma level_without_letters_is_empty_witness :
  (∀ rows, Analytics.merged 2 rows = []
           ∧ Analytics.perLevelTotals (Analytics.merged 2 rows) = (0, 0)
           ∧ Analytics.perLevelAcc
               (Analytics.perLevelTotals (Analytics.merged 2 rows))
             = JS.fzero)
  ∧ ∀ now1 now2 u sc db sc' db',
      Analytics.selectedLevel sc = 2 →
      Analytics.refresh_try now1 now2 u sc db = (Ok tt, (sc', db')) →
      Analytics.last7 sc' = [] ∧ Analytics.selectedLevel sc' = 2.
Proof.
  apply (level_without_letters_is_empty 2 (Analytics.mkLevelCfg 2 "Level 2" []));
    reflexivity.
Defined.

Lemma getLast7DaysForLetters_run now u names db rows ls :
  attempts (tables db) = Some rows → letters (tables db) = Some ls →
  ∃ l7, getLast7DaysForLetters now u (JS.Val names) db = (Ok l7, db).
Proof.
  intros Hrows Hls. destruct names as [|n names]; [by exists []|].
  unfold getLast7DaysForLetters.
  rewrite (bind_ok _ _ _ _ _ (from_some "attempts" attempts db rows Hrows)).
  rewrite (bind_ok _ _ _ _ _ (from_some "letters" letters db ls Hls)).
  by eexists.
Qed.

(** X14: what a refresh of the dashboard shows.  The rows and totals are
    those of the database in both cases.  If the level update raises, the
    error is dropped: the level, the series and the selection shown stay the
    old ones and the database is unchanged.  If it goes through, the level
    shown is the level now stored for the user, the series is the one of
    the selected level's letters, and a selected level that is one of
    [LEVELS] stays selected.  In both cases [refreshing] ends false. *)
Theorem refresh_outcome (now1 now2 : Z) (u : string) (sc : Analytics.Screen)
    (db : DB) (rows : list AttemptRow) (ls : list LetterRow) :
  u ≠ EmptyString →
  attempts (tables db) = Some rows → letters (tables db) = Some ls →
  let r := stat_row u rows <$> merge_sort by_order_index ls in
  let t := mkTotals (attempts_n u rows) (attempts_correct u rows)
                    (attempts_acc u rows) in
  (∀ e db1, computeAndUpdateLevel now1 u db = (Err e, db1) →
     Analytics.refresh now1 now2 (Some u) sc db
     = (Analytics.mkScreen r t (Analytics.shown_level sc)
          (Analytics.selectedLevel sc) (Analytics.last7 sc) false, db))
  ∧ (∀ l db1, computeAndUpdateLevel now1 u db = (Ok l, db1) →
     ∃ l7 sel,
       Analytics.refresh now1 now2 (Some u) sc db
       = (Analytics.mkScreen r t l sel l7 false, db1)
       ∧ getCurrentLevel u db1 = (Ok l, db1)
       ∧ getLast7DaysForLetters now2 u
           (JS.Val (Analytics.levelLetters (Analytics.selectedLevel sc))) db1
         = (Ok l7, db1)
       ∧ (is_Some (Analytics.findLevel (Analytics.selectedLevel sc)) →
          sel = Analytics.selectedLevel sc)).
Proof.
  intros Hu Hrows Hls r t.
  assert (Htruthy : JS.truthy (JS.Val u) = Some u).
  { cbn. by rewrite decide_False. }
  unfold Analytics.refresh, Analytics.refresh_try. rewrite Htruthy.
  rewrite (getPerLetterStats_run u db ls rows Hls Hrows).
  rewrite (getTotals_run u db rows Hrows).
  fold r. fold t. split.
  - intros e db1 Hc. rewrite Hc.
    apply computeAndUpdateLevel_err in Hc as ->. reflexivity.
  - intros l db1 Hc. rewrite Hc.
    apply computeAndUpdateLevel_inv in Hc
      as (rows' & lvs & uls & Hrows' & Hlvs & Huls & Hl & ->).
    destruct (getLast7DaysForLetters_run now2 u
                (Analytics.levelLetters (Analytics.selectedLevel sc))
                (with_user_level u l now1 uls db) rows ls) as [l7 Hl7].
    { by destruct db as [fk [] tx]. }
    { by destruct db as [fk [] tx]. }
    cbn [Analytics.selectedLevel Analytics.last7 Analytics.shown_level
         Analytics.rows Analytics.totals Analytics.refreshing].
    rewrite Hl7.
    exists l7. eexists. split; [reflexivity|].
    split; [apply getCurrentLevel_stored|]. split; [done|].
    intros [L HL]. by rewrite HL.
Qed.

Lemma refresh_outcome_witness :
  let r := stat_row "u1" (rows_of practised)
             <$> merge_sort by_order_index seeded_letters in
  let t := mkTotals (attempts_n "u1" (rows_of practised))
                    (attempts_correct "u1" (rows_of practised))
                    (attempts_acc "u1" (rows_of practised)) in
  (∀ e db1, computeAndUpdateLevel t0 "u1" practised = (Err e, db1) →
     Analytics.refresh t0 t0 (Some "u1"%string) initial_screen practised
     = (Analytics.mkScreen r t (Analytics.shown_level initial_screen)
          (Analytics.selectedLevel initial_screen)
          (Analytics.last7 initial_screen) false, practised))
  ∧ (∀ l db1, computeAndUpdateLevel t0 "u1" practised = (Ok l, db1) →
     ∃ l7 sel,
       Analytics.refresh t0 t0 (Some "u1"%string) initial_screen practised
       = (Analytics.mkScreen r t l sel l7 false, db1)
       ∧ getCurrentLevel "u1" db1 = (Ok l, db1)
       ∧ getLast7DaysForLetters t0 "u1"
           (JS.Val (Analytics.levelLetters
                      (Analytics.selectedLevel initial_screen))) db1
         = (Ok l7, db1)
       ∧ (is_Some (Analytics.findLevel (Analytics.selectedLevel initial_screen)) →
          sel = Analytics.selectedLevel initial_screen)).
Proof.
  apply (refresh_outcome t0 t0 "u1" initial_screen practised
           (rows_of practised) seeded_letters).
  - discriminate.
  - vm_compute. reflexivity.
  - vm_compute. reflexivity.
Defined.

(** ** The guided tour across restarts *)

Module TourFacts.
Import Tutorial.

Lemma key_prefixes u v : key "tutorialActive:" u ≠ key "tutorialStep:" v.
Proof. unfold key. cbn. discriminate. Qed.

Lemma step_of_name_name s : step_of_name (step_name s) = Some s.
Proof. by destruct s. Qed.

Lemma step_name_truthy s : JS.truthy (JS.Val (step_name s)) = Some (step_name s).
Proof. by destruct s. Qed.

Lemma persist_setStep_in_sync u s st :
  u ≠ EmptyString → in_sync u st → in_sync u (persist s (setStep s st)).
Proof.
  intros Hu (Ha & Hn & Hf & Hs). unfold persist. cbn [username setStep].
  rewrite Hn, decide_False by done. unfold in_sync, setItem. cbn.
  split; [done|]. split; [done|]. split.
  - rewrite lookup_insert_ne; [done|]. intros E. by apply (key_prefixes u u).
  - by rewrite lookup_insert_eq.
Qed.

Lemma next_in_sync u st : u ≠ EmptyString → in_sync u st → in_sync u (next st).
Proof.
  intros Hu H. unfold next.
  destruct (at_index order _) as [n|]; [|done].
  by apply persist_setStep_in_sync.
Qed.

Lemma call_in_sync u c st : u ≠ EmptyString → in_sync u st → in_sync u (call c st).
Proof.
  intros Hu H. destruct c; [by apply next_in_sync|].
  by apply persist_setStep_in_sync.
Qed.

Lemma start_in_sync u st : in_sync u (start u st).
Proof.
  unfold in_sync, start. cbn. split; [done|]. split; [done|]. split.
  - rewrite lookup_insert_ne; [by rewrite lookup_insert_eq|].
    intros E. by apply (key_prefixes u u).
  - by rewrite lookup_insert_eq.
Qed.

Lemma calls_in_sync u cs : ∀ st,
  u ≠ EmptyString → in_sync u st → in_sync u (calls cs st).
Proof.
  induction cs as [|c cs IH]; intros st Hu H; [done|].
  cbn. apply IH; [done|]. by apply call_in_sync.
Qed.

(** The keys a call writes are the two keys of the provider's user. *)
Lemma persist_frame s st k :
  (∀ u, username st = Some u → k ≠ key "tutorialStep:" u) →
  storage (persist s st) !! k = storage st !! k.
Proof.
  intros Hk. unfold persist. destruct (username st) as [u|]; [|done].
  destruct (decide (u = EmptyString)); [done|].
  cbn. rewrite lookup_insert_ne; [done|]. intros E. by apply (Hk u).
Qed.

Lemma persist_username s st : username (persist s st) = username st.
Proof.
  unfold persist. destruct (username st) as [u|] eqn:E; [|done].
  by destruct (decide (u = EmptyString)).
Qed.

Lemma persist_active s st : active (persist s st) = active st.
Proof.
  unfold persist. destruct (username st) as [u|]; [|done].
  by destruct (decide (u = EmptyString)).
Qed.

Lemma call_frame c st k :
  (∀ u, username st = Some u → k ≠ key "tutorialStep:" u) →
  storage (call c st) !! k = storage st !! k ∧ username (call c st) = username st.
Proof.
  intros Hk. destruct c; cbn [call].
  - unfold next. destruct (at_index order _) as [n|]; [|by split]. split.
    + by rewrite persist_frame.
    + by rewrite persist_username.
  - unfold markPracticeDone. split.
    + by rewrite persist_frame.
    + by rewrite persist_username.
Qed.

Lemma call_active c st : active (call c st) = active st.
Proof.
  destruct c; cbn [call].
  - unfold next. destruct (at_index order _) as [n|]; [|done].
    by rewrite persist_active.
  - unfold markPracticeDone. by rewrite persist_active.
Qed.

Lemma calls_frame cs : ∀ st k,
  (∀ u, username st = Some u → k ≠ key "tutorialStep:" u) →
  storage (calls cs st) !! k = storage st !! k
  ∧ username (calls cs st) = username st.
Proof.
  induction cs as [|c cs IH]; intros st k Hk; [done|].
  change (calls (c :: cs) st) with (calls cs (call c st)).
  destruct (call_frame c st k Hk) as [Hs Hn].
  destruct (IH (call c st) k) as [Hs' Hn'].
  - intros u Hu'. rewrite Hn in Hu'. by apply Hk.
  - split; [by rewrite Hs', Hs|by rewrite Hn', Hn].
Qed.

(** X15: a tour that was started for a user and is then driven by any
    calls of [next] and [markPracticeDone] is resumed by the next start of
    the app at the step it had reached; and the calls have written to no
    key other than the two keys of that user. *)
Theorem tour_resumes (u : string) (cs : list Call) (st0 : State) :
  u ≠ EmptyString →
  let st := calls cs (start u st0) in
  resume (Some u) (mounted (storage st)) = Some (running u (step st) (storage st))
  ∧ active st = true ∧ username st = Some u
  ∧ ∀ k, k ∉ tour_keys u → storage st !! k = storage st0 !! k.
Proof.
  intros Hu st.
  destruct (calls_in_sync u cs (start u st0) Hu (start_in_sync u st0))
    as (Ha & Hn & Hf & Hs).
  fold st in Ha, Hn, Hf, Hs. split.
  { unfold resume, mounted. cbn [storage setUsername setActive].
    rewrite decide_True by done. rewrite Hs, step_name_truthy.
    rewrite step_of_name_name. reflexivity. }
  split; [done|]. split; [done|].
  intros k Hk. unfold tour_keys in Hk.
  apply not_elem_of_cons in Hk as [Hk1 Hk2].
  apply not_elem_of_cons in Hk2 as [Hk2 _].
  destruct (calls_frame cs (start u st0) k) as [E _].
  { intros v [= <-]. done. }
  unfold st. rewrite E. unfold start. cbn.
  rewrite lookup_insert_ne by done. by rewrite lookup_insert_ne.
Qed.

Lemma tour_resumes_witness :
  let st := calls [Next; Next; MarkPracticeDone] (start "Sara" (mounted ∅)) in
  resume (Some "Sara"%string) (mounted (storage st))
  = Some (running "Sara" (step st) (storage st))
  ∧ active st = true ∧ username st = Some "Sara"%string
  ∧ ∀ k, k ∉ tour_keys "Sara" → storage st !! k = storage (mounted ∅) !! k.
Proof.
  apply (tour_resumes "Sara" [Next; Next; MarkPracticeDone] (mounted ∅)).
  discriminate.
Defined.

(** X16: [finish] ends the tour for good.  After it the two keys of the
    user are gone from the storage, and whatever calls of [next] and
    [markPracticeDone] still follow, the provider stays inactive and the
    next start of the app does not resume the tour. *)
Theorem finish_is_final (u : string) (cs cs' : list Call) (st0 : State) :
  u ≠ EmptyString →
  let st := finish (calls cs (start u st0)) in
  let st' := calls cs' st in
  active st = false ∧ step st = done
  ∧ storage st !! key "tutorialActive:" u = None
  ∧ storage st !! key "tutorialStep:" u = None
  ∧ active st' = false
  ∧ resume (Some u) (mounted (storage st'))
    = Some (mkState false home (Some u) (storage st')).
Proof.
  intros Hu st st'.
  destruct (calls_in_sync u cs (start u st0) Hu (start_in_sync u st0))
    as (Ha & Hn & Hf & Hs).
  assert (Hst : st = mkState false done (Some u)
                       (delete (key "tutorialStep:" u)
                          (delete (key "tutorialActive:" u)
                             (storage (calls cs (start u st0)))))).
  { unfold st, finish. rewrite Hn, decide_False by done.
    unfold setStep, setActive, removeItem.
    cbn [active step username storage]. by rewrite Hn. }
  assert (Hflag : storage st !! key "tutorialActive:" u = None).
  { rewrite Hst. cbn. rewrite lookup_delete_ne.
    - by rewrite lookup_delete_eq.
    - intros E. by apply (key_prefixes u u). }
  assert (Hact : ∀ cs1 s, active (calls cs1 s) = active s).
  { induction cs1 as [|c cs1 IH]; intros s; [done|].
    change (calls (c :: cs1) s) with (calls cs1 (call c s)). rewrite IH.
    apply call_active. }
  split; [by rewrite Hst|]. split; [by rewrite Hst|].
  split; [done|]. split; [rewrite Hst; cbn; by rewrite lookup_delete_eq|].
  split; [unfold st'; rewrite Hact; by rewrite Hst|].
  destruct (calls_frame cs' st (key "tutorialActive:" u)) as [E _].
  { intros v. rewrite Hst. cbn. intros [= <-]. apply key_prefixes. }
  unfold resume, mounted. cbn [storage setUsername].
  fold st'. rewrite decide_False; [done|].
  unfold st'. rewrite E, Hflag. done.
Qed.

Lemma finish_is_final_witness :
  let st := finish (calls [Next] (start "Sara" (mounted ∅))) in
  let st' := calls [Next; MarkPracticeDone] st in
  active st = false ∧ step st = done
  ∧ storage st !! key "tutorialActive:" "Sara" = None
  ∧ storage st !! key "tutorialStep:" "Sara" = None
  ∧ active st' = false
  ∧ resume (Some "Sara"%string) (mounted (storage st'))
    = Some (mkState false home (Some "Sara"%string) (storage st')).
Proof.
  apply (finish_is_final "Sara" [Next] [Next; MarkPracticeDone] (mounted ∅)).
  discriminate.
Defined.

End TourFacts.

(** ** Sending an attempt from the practice screen *)

(** A call with a label of the table, given as the target and as the
    predicted letter. *)
Lemma recordAttempt_same_label now uid ar c conf dur uri db rows ls :
  attempts (tables db) = Some rows → letters (tables db) = Some ls →
  foreign_keys db = false ∨ registered db uid →
  ar ∈ (l_ar <$> ls) → ar ≠ EmptyString →
  ∃ l, l ∈ ls ∧ l_ar l = ar
    ∧ recordAttempt now (mkNewAttempt uid ar (JS.Val ar) c conf dur uri) db
      = (Ok tt, with_attempts
                  (rows ++ [mkAttempt (next_rowid rows) uid (l_id l)
                              (Some (l_id l)) c (JS.nullish conf)
                              (JS.nullish dur) (JS.nullish uri)
                              (Sqlite.strftime_iso now)]) db).
Proof.
  intros Hrows Hls Hfk Hin Hne.
  destruct (letterIdByAr_known ar db ls Hls Hin) as (l & Hl & Har & Hid).
  exists l. split; [done|]. split; [done|].
  unfold recordAttempt.
  cbn [userId targetLetterAr predictedLetterAr correct confidence durationMs
       audioUri JS.truthy].
  rewrite decide_False by done.
  rewrite (bind_ok _ _ _ _ _ Hid).
  erewrite (bind_ok _ _ _ (Some (l_id l)) db);
    [|by rewrite (bind_ok _ _ _ _ _ Hid)].
  apply insert_attempt_ok with (ls := ls); try done.
  - apply list_elem_of_fmap. by exists l.
  - cbn. apply list_elem_of_fmap. by exists l.
Qed.

Lemma level_1_items_mapped :
  Forall (λ g, ∃ c, Practice.GLYPH_TO_CANON_AR !! g = Some c
                    ∧ c ∈ CANON_LETTERS ∧ c ≠ EmptyString)
         Practice.LEVEL1_ITEMS.
Proof.
  assert (H : Forall (λ g, Is_true
                 match Practice.GLYPH_TO_CANON_AR !! g with
                 | Some c => bool_decide (c ∈ CANON_LETTERS ∧ c ≠ EmptyString)
                 | None => false
                 end) Practice.LEVEL1_ITEMS).
  { apply forallb_True. vm_compute. exact I. }
  eapply Forall_impl; [exact H|]. intros g Hg. cbn beta in Hg.
  destruct (Practice.GLYPH_TO_CANON_AR !! g) as [c|]; [|done].
  exists c. split; [done|]. by apply bool_decide_unpack in Hg.
Qed.

Lemma level_2_items_unmapped :
  Forall (λ g, Practice.GLYPH_TO_CANON_AR !! g = None) Practice.LEVEL2_ITEMS.
Proof. apply (bool_decide_unpack _). vm_compute. reflexivity. Qed.

Lemma getLevelById_items (lvl : Z) :
  Practice.items (Practice.getLevelById lvl)
  = if decide (lvl = 2) then Practice.LEVEL2_ITEMS else Practice.LEVEL1_ITEMS.
Proof.
  unfold Practice.getLevelById, Practice.LEVELS.
  rewrite !filter_cons, filter_nil. cbn [Practice.id Practice.LEVEL_1 Practice.LEVEL_2].
  destruct (decide (1 = lvl)) as [<-|]; [done|].
  destruct (decide (2 = lvl)) as [<-|]; [done|].
  by rewrite decide_False.
Qed.

Lemma insert_user_attempts now uid name db r db' :
  insert_user now uid name db = (r, db') →
  attempts (tables db') = attempts (tables db).
Proof.
  unfold insert_user, from, bind, get_tables, require, ret, throw,
    modify_tables.
  intros H.
  destruct (users (tables db)) as [us|]; [|by injection H as _ <-].
  destruct (decide (uid ∉ (u_id <$> us))); injection H as _ <-; [|done].
  by destruct db as [fk [] tx].
Qed.

Lemma ensureLocalUser_attempts now fresh kv db r kv' db' :
  User.ensureLocalUser now fresh (kv, db) = (r, (kv', db')) →
  attempts (tables db') = attempts (tables db).
Proof.
  unfold User.ensureLocalUser.
  destruct (JS.truthy _) as [existing|]; [by intros [= _ _ <-]|].
  destruct (insert_user now fresh "Local User" db) as [[[]|e] db1] eqn:Hi;
    intros [= _ _ <-]; by apply insert_user_attempts in Hi.
Qed.

Lemma tour_eta (t : Tutorial.State) :
  Tutorial.mkState (Tutorial.active t) (Tutorial.step t) (Tutorial.username t)
                   (Tutorial.storage t) = t.
Proof. by destruct t. Qed.

(** X17: an item of level 1 (the level every level id but 2 stands for)
    that is sent with a recording by a registered user is saved: its glyph
    maps to a label of the catalog, the attempt is stored with that letter
    as target and as predicted letter, and a tour at its practice step
    moves on to the profile step. *)
Theorem handleSend_saves_level_1 (nowUser now : Z) (fresh recording uid : string)
    (lvl : Z) (g : string) (app : Practice.App) (rows : list AttemptRow) :
  lvl ≠ 2 → g ∈ Practice.items (Practice.getLevelById lvl) →
  recording ≠ EmptyString →
  letters (tables (Practice.database app)) = Some seeded_letters →
  attempts (tables (Practice.database app)) = Some rows →
  foreign_keys (Practice.database app) = false
  ∨ registered (Practice.database app) uid →
  ∃ l, l ∈ seeded_letters
    ∧ Practice.GLYPH_TO_CANON_AR !! g = Some (l_ar l)
    ∧ Practice.handleSend nowUser now fresh (Some recording) (Some uid) g app
      = (Practice.Saved,
         Practice.mkApp (tour_after_send (Practice.tour app))
           (with_attempts
              (rows ++ [sent_row (next_rowid rows) uid l recording now])
              (Practice.database app))).
Proof.
  intros Hlvl Hg Hrec Hls Hrows Hfk.
  rewrite getLevelById_items, decide_False in Hg by done.
  destruct (proj1 (Forall_forall _ _) level_1_items_mapped g Hg)
    as (c & Hc & Hcat & Hne).
  destruct (recordAttempt_same_label now uid c true (JS.Val (snd (fst Practice.evaluateAttempt)))
              (JS.Val 1000) (JS.Val recording) (Practice.database app) rows
              seeded_letters Hrows Hls Hfk) as (l & Hl & Har & Hrun);
    [by rewrite seeded_letters_ar|done|].
  exists l. split; [done|]. split; [by rewrite Har|].
  unfold Practice.handleSend. cbn [JS.truthy].
  rewrite decide_False by done. rewrite Hc. cbn [JS.truthy].
  rewrite decide_False by done.
  unfold Practice.evaluateAttempt in *. cbn [fst snd] in Hrun.
  rewrite Hrun, tour_eta. cbn [andb JS.nullish].
  unfold tour_after_send, sent_row, Practice.evaluateAttempt.
  by destruct (Tutorial.active (Practice.tour app)
               && bool_decide (Tutorial.step (Practice.tour app) = Tutorial.practice)).
Qed.

(** X18: an item of level 2 is never saved.  Its glyph carries a vowel
    mark and has no entry in [GLYPH_TO_CANON_AR], so [handleSend] ends
    before [recordAttempt] whatever the recording, the user and the
    database are: no attempt is stored and the tour does not move. *)
Theorem handleSend_never_saves_level_2 (nowUser now : Z) (fresh : string)
    (uri userId : option string) (g : string) (app app' : Practice.App)
    (out : Practice.Sent) :
  g ∈ Practice.items (Practice.getLevelById 2) →
  Practice.handleSend nowUser now fresh uri userId g app = (out, app') →
  out ≠ Practice.Saved
  ∧ attempts (tables (Practice.database app'))
    = attempts (tables (Practice.database app))
  ∧ Tutorial.step (Practice.tour app') = Tutorial.step (Practice.tour app)
  ∧ Tutorial.active (Practice.tour app') = Tutorial.active (Practice.tour app)
  ∧ (is_Some userId → app' = app).
Proof.
  intros Hg. rewrite getLevelById_items, decide_True in Hg by done.
  pose proof (proj1 (Forall_forall _ _) level_2_items_unmapped g Hg) as Hnone.
  unfold Practice.handleSend. rewrite Hnone. cbn [JS.truthy].
  destruct (JS.truthy _) as [recording|]; [|by intros [= <- <-]].
  destruct userId as [i|].
  - rewrite tour_eta. intros [= <- <-]. by destruct app.
  - destruct (User.ensureLocalUser nowUser fresh
                (Tutorial.storage (Practice.tour app), Practice.database app))
      as [rid [kv db]] eqn:He.
    apply ensureLocalUser_attempts in He.
    destruct rid as [i|e]; intros [= <- <-]; cbn; by eauto using is_Some_None.
Qed.

Lemma handleSend_saves_level_1_witness :
  ∃ l, l ∈ seeded_letters
    ∧ Practice.GLYPH_TO_CANON_AR !! "ب"%string = Some (l_ar l)
    ∧ Practice.handleSend t0 t0 "u2" (Some "rec.m4a"%string)
        (Some "u1"%string) "ب" practising
      = (Practice.Saved,
         Practice.mkApp (tour_after_send (Practice.tour practising))
           (with_attempts
              ([] ++ [sent_row (next_rowid []) "u1" l "rec.m4a" t0])
              (Practice.database practising))).
Proof.
  apply (handleSend_saves_level_1 t0 t0 "u2" "rec.m4a" "u1" 1 "ب" practising []).
  - discriminate.
  - apply (bool_decide_unpack _). vm_compute. reflexivity.
  - discriminate.
  - vm_compute. reflexivity.
  - vm_compute. reflexivity.
  - right. eexists. split; [vm_compute; reflexivity|]. left.
Defined.

Lemma handleSend_never_saves_level_2_witness :
  Practice.MappingError ≠ Practice.Saved
  ∧ attempts (tables (Practice.database practising))
    = attempts (tables (Practice.database practising))
  ∧ Tutorial.step (Practice.tour practising)
    = Tutorial.step (Practice.tour practising)
  ∧ Tutorial.active (Practice.tour practising)
    = Tutorial.active (Practice.tour practising)
  ∧ (is_Some (Some "u1"%string) → practising = practising).
Proof.
  apply (handleSend_never_saves_level_2 t0 t0 "u2" (Some "rec.m4a"%string)
           (Some "u1"%string) "بَ" practising practising Practice.MappingError).
  - apply (bool_decide_unpack _). vm_compute. reflexivity.
  - vm_compute. reflexivity.
Defined.
